(** * photo-share-frontend: a shallow embedding of [script.js]

    The development follows the order of the source file: the HTML escaping
    helper, the session store kept in [localStorage], the authenticated fetch
    wrapper, and the two debounced suggestion widgets (location autocomplete
    and people selector).

    Conventions.
    - A JavaScript string is a [string] holding its UTF-8 bytes.  The five
      HTML specials are ASCII, so escaping byte by byte is escaping
      character by character; white space and [.length] are read off the
      byte sequences ([trim], [js_length]).
    - A value parsed from a JSON body is a [Json]; [JsVal := option Json]
      adds [undefined] as [None].
    - An [async] function is cut at its [await] points: the part that runs
      when the call is made, and the part that runs when the awaited network
      call settles.  The browser's event loop is the event list given to
      [run]: it may deliver any enabled event at any time. *)

From Stdlib Require Import ZArith Ascii String DecimalString.
From stdpp Require Import base option strings list gmap.

Local Open Scope string_scope.
Local Open Scope list_scope.

Set Warnings "-register-all".

(** ** JavaScript values *)

Inductive Json : Type :=
| JNull
| JBool (b : bool)
| JNum (n : Z)          (* a number as [JSON.parse] returns it, when it is
                           an integer that a double holds exactly and that
                           is below 10^21 in size: ToString writes it in
                           plain decimal; other numbers are not modelled *)
| JStr (s : string)
| JArr (elems : list Json)
| JObj (fields : list (string * Json)).

(** [None] is [undefined]. *)
Definition JsVal : Type := option Json.

Definition undefined : JsVal := None.

(** ToBoolean. *)
Definition truthy (v : JsVal) : bool :=
  match v with
  | None => false
  | Some JNull => false
  | Some (JBool b) => b
  | Some (JNum n) => negb (Z.eqb n 0)
  | Some (JStr s) => negb (String.eqb s "")
  | Some (JArr _) => true
  | Some (JObj _) => true
  end.

(** [a || b]. *)
Definition js_or (a b : JsVal) : JsVal := if truthy a then a else b.

(** [a ?? b]. *)
Definition js_nullish (a b : JsVal) : JsVal :=
  match a with
  | None | Some JNull => b
  | _ => a
  end.

(** [a === b].  Primitives compare by value.  Arrays and objects compare by
    reference; every comparison the program makes is between a value of the
    body just parsed and a value that was there before (the id of a
    selection, of the signed-in user, a string read from the page), and
    those never share a reference. *)
Definition js_strict_eq (a b : JsVal) : bool :=
  match a, b with
  | None, None => true
  | Some JNull, Some JNull => true
  | Some (JBool x), Some (JBool y) => Bool.eqb x y
  | Some (JNum x), Some (JNum y) => Z.eqb x y
  | Some (JStr x), Some (JStr y) => String.eqb x y
  | _, _ => false
  end.

(** Errors a [try] block of this program can catch. *)
Inductive Error : Type :=
| TypeError          (* property read on null, call of a non-function *)
| NetworkFailure     (* [fetch] rejects *)
| SyntaxError        (* [res.json()] rejects *)
| Unauthorized.      (* [new Error('Unauthorized')] of [fetchWithAuth] *)

Fixpoint assoc {A} (k : string) (l : list (string * A)) : option A :=
  match l with
  | [] => None
  | (k', v) :: l' => if String.eqb k k' then Some v else assoc k l'
  end.

(** [v.k] for the property names this program reads ([id], [name],
    [avatarUrl], [place_id], [display_name]): no prototype defines them, so
    only an object's own fields answer; reading from [null] or [undefined]
    throws. *)
Definition get_prop (v : JsVal) (k : string) : Error + JsVal :=
  match v with
  | None | Some JNull => inl TypeError
  | Some (JObj fields) => inr (assoc k fields)
  | Some _ => inr undefined
  end.

(** [v?.k]. *)
Definition get_prop_opt (v : JsVal) (k : string) : JsVal :=
  match get_prop v k with
  | inl _ => undefined
  | inr x => x
  end.

(** ** Constants *)

Definition DEFAULT_API_BASE : string :=
  "https://photo-share-backend-kappa.vercel.app/api".
Definition DEFAULT_AVATAR : string := "https://placehold.co/40x40?text=%2B".

(** ** escapeHtml *)

Definition dquote : ascii := "034"%char.
Definition squote : ascii := "039"%char.

Definition htmlEscapeMap : list (ascii * string) :=
  [ ("&"%char, "&amp;");
    ("<"%char, "&lt;");
    (">"%char, "&gt;");
    (dquote, "&quot;");
    (squote, "&#39;") ].

Fixpoint char_lookup (c : ascii) (m : list (ascii * string)) : option string :=
  match m with
  | [] => None
  | (c', e) :: m' => if Ascii.eqb c c' then Some e else char_lookup c m'
  end.

(** The character class of the regular expression in [escapeHtml]. *)
Definition html_special (c : ascii) : bool :=
  Ascii.eqb c "&" || Ascii.eqb c "<" || Ascii.eqb c ">"
  || Ascii.eqb c dquote || Ascii.eqb c squote.

(** [s.replace(/[class]/g, replacer)]: every character of the class is
    replaced by the replacer's result, the others are kept. *)
Fixpoint replace_class (cls : ascii -> bool) (replacer : ascii -> string)
    (s : string) : string :=
  match s with
  | EmptyString => EmptyString
  | String c s' =>
      (if cls c then replacer c else String c EmptyString)
        +:+ replace_class cls replacer s'
  end.

(** [(char) => htmlEscapeMap[char]]; a missing key would give [undefined],
    which [replace] writes as the text "undefined". *)
Definition escape_replacer (c : ascii) : string :=
  match char_lookup c htmlEscapeMap with
  | Some e => e
  | None => "undefined"
  end.

Definition escapeHtml (value : JsVal) : JsVal :=
  match value with
  | Some (JStr s) => Some (JStr (replace_class html_special escape_replacer s))
  | _ => js_nullish value (Some (JStr ""))
  end.

(** ** Session store *)

(** [localStorage]: string keys, string values. *)
Abbreviation Storage := (gmap string string).

(** [localStorage.getItem(k) || null]: [None] is [null]. *)
Definition getItem_or_null (k : string) (ls : Storage) : option string :=
  match ls !! k with
  | Some v => if String.eqb v "" then None else Some v
  | None => None
  end.

(** [if (x) setItem(k, x) else removeItem(k)], for [x] a string or
    [null]/[undefined] ([None]). *)
Definition set_or_remove (k : string) (x : option string) (ls : Storage) : Storage :=
  match x with
  | Some v => if String.eqb v "" then delete k ls else <[k := v]> ls
  | None => delete k ls
  end.

Definition getToken (ls : Storage) : option string :=
  getItem_or_null "photoshare_token" ls.
Definition setToken (token : option string) (ls : Storage) : Storage :=
  set_or_remove "photoshare_token" token ls.

Definition getUserRole (ls : Storage) : option string :=
  getItem_or_null "photoshare_role" ls.
Definition setUserRole (role : option string) (ls : Storage) : Storage :=
  set_or_remove "photoshare_role" role ls.

Definition setUserName (name : option string) (ls : Storage) : Storage :=
  set_or_remove "photoshare_name" name ls.
Definition getUserName (ls : Storage) : option string :=
  getItem_or_null "photoshare_name" ls.

(** The keys the program persists: the three above and the user id written
    by the login handler and by [hydrateSession]. *)
Definition session_keys : list string :=
  [ "photoshare_token"; "photoshare_role"; "photoshare_name";
    "photoshare_user_id" ].

(** The module-level mutable state every function shares. *)
Record Global : Type := mkGlobal {
  localStorage : Storage;
  currentUser : option Json;        (* [None] is [null] *)
  location_href : string            (* [window.location.href] *)
}.

Definition logout (g : Global) : Global :=
  let ls := setToken None (localStorage g) in
  let ls := setUserRole None ls in
  let ls := setUserName None ls in
  {| localStorage := ls;
     currentUser := None;
     location_href := "login.html" |}.

(** ** Strings of the platform *)

(** White space removed by [String.prototype.trim] (WhiteSpace and
    LineTerminator of the language), by the length of its UTF-8 encoding.
    One byte: tab, line feed, vertical tab, form feed, carriage return,
    space. *)
Definition is_space (c : ascii) : bool :=
  let n := nat_of_ascii c in
  (Nat.leb 9 n && Nat.leb n 13) || Nat.eqb n 32.

(** Two bytes: U+00A0 (C2 A0). *)
Definition is_space2 (a b : ascii) : bool :=
  Nat.eqb (nat_of_ascii a) 194 && Nat.eqb (nat_of_ascii b) 160.

(** Three bytes: U+1680 (E1 9A 80), U+2000 to U+200A (E2 80 80 to 8A),
    U+2028, U+2029, U+202F (E2 80 A8, A9, AF), U+205F (E2 81 9F),
    U+3000 (E3 80 80) and U+FEFF (EF BB BF). *)
Definition is_space3 (a b c : ascii) : bool :=
  let x := nat_of_ascii a in
  let y := nat_of_ascii b in
  let z := nat_of_ascii c in
  (Nat.eqb x 225 && Nat.eqb y 154 && Nat.eqb z 128)
  || (Nat.eqb x 226 && Nat.eqb y 128
      && ((Nat.leb 128 z && Nat.leb z 138)
          || Nat.eqb z 168 || Nat.eqb z 169 || Nat.eqb z 175))
  || (Nat.eqb x 226 && Nat.eqb y 129 && Nat.eqb z 159)
  || (Nat.eqb x 227 && Nat.eqb y 128 && Nat.eqb z 128)
  || (Nat.eqb x 239 && Nat.eqb y 187 && Nat.eqb z 191).

(** Drops the white space at the start, character by character; [two] and
    [three] recognise the white space of two and of three bytes. *)
Fixpoint strip_spaces (two : ascii -> ascii -> bool)
    (three : ascii -> ascii -> ascii -> bool) (s : string) : string :=
  match s with
  | EmptyString => EmptyString
  | String a s1 =>
      if is_space a then strip_spaces two three s1
      else
        match s1 with
        | String b s2 =>
            if two a b then strip_spaces two three s2
            else
              match s2 with
              | String c s3 =>
                  if three a b c then strip_spaces two three s3 else s
              | EmptyString => s
              end
        | EmptyString => s
        end
  end.

Fixpoint string_rev (s : string) : string :=
  match s with
  | EmptyString => EmptyString
  | String c s' => string_rev s' +:+ String c EmptyString
  end.

Definition trim_start (s : string) : string :=
  strip_spaces is_space2 is_space3 s.

(** Drops the white space at the end: the start of the reversed bytes,
    where the bytes of a character come last byte first. *)
Definition trim_end (s : string) : string :=
  string_rev
    (strip_spaces (fun a b => is_space2 b a) (fun a b c => is_space3 c b a)
                  (string_rev s)).

Definition trim (s : string) : string := trim_end (trim_start s).

(** A continuation byte of a UTF-8 sequence. *)
Definition is_continuation (c : ascii) : bool :=
  let n := nat_of_ascii c in
  Nat.leb 128 n && Nat.leb n 191.

Definition starts_with_continuation (s : string) : bool :=
  match s with
  | String c _ => is_continuation c
  | EmptyString => false
  end.

(** [s.length]: the number of UTF-16 code units.  Every character counts
    one at its first byte, and a character of four bytes (first byte F0 or
    above), which UTF-16 writes as a surrogate pair, one more. *)
Fixpoint js_length (s : string) : nat :=
  match s with
  | EmptyString => 0
  | String c s' =>
      (if is_continuation c then 0 else 1)
      + (if Nat.leb 240 (nat_of_ascii c) && starts_with_continuation s'
         then 1 else 0)
      + js_length s'
  end.

Fixpoint join (sep : string) (l : list string) : string :=
  match l with
  | [] => ""
  | [x] => x
  | x :: l' => x +:+ sep +:+ join sep l'
  end.

Definition Z_to_string (n : Z) : string :=
  NilEmpty.string_of_int (Z.to_int n).

(** ToString of a parsed value that has a text (see [printable] below for
    the values on which ToString throws instead). *)
Fixpoint js_to_string (j : Json) : string :=
  match j with
  | JNull => "null"
  | JBool true => "true"
  | JBool false => "false"
  | JNum n => Z_to_string n
  | JStr s => s
  | JArr elems =>
      join ","
        ((fix each (l : list Json) : list string :=
            match l with
            | [] => []
            | JNull :: l' => "" :: each l'
            | e :: l' => js_to_string e :: each l'
            end) elems)
  | JObj _ => "[object Object]"
  end.

(** The text [`${v}`] interpolates, for a value that has one. *)
Definition template (v : JsVal) : string :=
  match v with
  | None => "undefined"
  | Some j => js_to_string j
  end.

(** ToString throws a TypeError: on an object with a field named
    [toString] (a parsed value is never callable, and neither that field nor
    [valueOf], its own or the inherited one, gives a primitive), and on an
    array with such an element, since [Array.prototype.toString] joins the
    texts of the elements. *)
Fixpoint to_string_throws (j : Json) : bool :=
  match j with
  | JObj fields =>
      match assoc "toString" fields with
      | Some _ => true
      | None => false
      end
  | JArr elems =>
      (fix any (l : list Json) : bool :=
         match l with
         | [] => false
         | e :: l' => to_string_throws e || any l'
         end) elems
  | _ => false
  end.

(** The value has a text: a template literal, [localStorage.setItem], the
    [value] setter of a field, [encodeURIComponent] and [new Error] all
    apply ToString to what they are given, and throw where it throws. *)
Definition printable (v : JsVal) : bool :=
  match v with
  | Some j => negb (to_string_throws j)
  | None => true
  end.

(** [`${v}`] as an expression that may throw. *)
Definition to_text (v : JsVal) : Error + string :=
  if printable v then inr (template v) else inl TypeError.

(** The text [inputEl.value = v] writes, for a value that has one: the
    setter writes the empty string for [null]. *)
Definition to_input_value (v : JsVal) : string :=
  match v with
  | Some JNull => ""
  | _ => template v
  end.

(** What the program takes from the platform: the base address the page is
    configured with ([const API_BASE = resolveApiBase()], computed once at
    load) and three built-ins whose results the program only passes on.
    [encodeURIComponent] throws on a lone surrogate only, which a [string]
    cannot hold, so it is a total function here. *)
Class Platform : Type := {
  API_BASE : string;
  JSON_stringify : Json -> string;
  encodeURIComponent : string -> string;
  (* [new URL(base)], [searchParams.set] for each pair, [toString()] *)
  url_with_params : string -> list (string * string) -> string
}.

(** ** Requests and responses *)

Definition ascii_lower (c : ascii) : ascii :=
  let n := nat_of_ascii c in
  if Nat.leb 65 n && Nat.leb n 90 then ascii_of_nat (n + 32) else c.

Fixpoint lower (s : string) : string :=
  match s with
  | EmptyString => EmptyString
  | String c s' => String (ascii_lower c) (lower s')
  end.

(** A [Headers] object: names are case-insensitive and kept in lower case.
    Names and values that are not well-formed (for which the constructor
    and [set] throw) are not modelled. *)
Abbreviation Headers := (gmap string string).

(** White space a [Headers] object removes around a value: tab, line feed,
    carriage return, space. *)
Definition is_http_space (c : ascii) : bool :=
  let n := nat_of_ascii c in
  Nat.eqb n 9 || Nat.eqb n 10 || Nat.eqb n 13 || Nat.eqb n 32.

Fixpoint http_trim_start (s : string) : string :=
  match s with
  | EmptyString => EmptyString
  | String c s' => if is_http_space c then http_trim_start s' else s
  end.

(** A character is kept when it is not white space or when something is
    kept after it. *)
Fixpoint http_trim_end (s : string) : string :=
  match s with
  | EmptyString => EmptyString
  | String c s' =>
      match http_trim_end s' with
      | EmptyString =>
          if is_http_space c then EmptyString else String c EmptyString
      | t => String c t
      end
  end.

(** The value a [Headers] object keeps for a value it is given. *)
Definition normalize_value (value : string) : string :=
  http_trim_end (http_trim_start value).

(** [headers.set(name, value)], for a value with no white space around it:
    the program sets a constant and the text [Bearer <token>]. *)
Definition headers_set (name value : string) (h : Headers) : Headers :=
  <[lower name := value]> h.

Definition headers_get (name : string) (h : Headers) : option string :=
  h !! lower name.

Definition headers_append (name value : string) (h : Headers) : Headers :=
  let value := normalize_value value in
  match h !! lower name with
  | Some old => <[lower name := old +:+ ", " +:+ value]> h
  | None => <[lower name := value]> h
  end.

(** [new Headers(init)] for a plain object [init]. *)
Definition new_Headers (init : list (string * string)) : Headers :=
  fold_left (fun h nv => headers_append nv.1 nv.2 h) init ∅.

Inductive Body : Type :=
| BodyAbsent                                   (* no [body] option *)
| BodyFormData (parts : list (string * string))  (* a multipart [FormData] *)
| BodyValue (v : Json).                        (* any other value *)

Record Options : Type := mkOptions {
  opt_method : option string;
  opt_cache : option string;
  opt_headers : option (list (string * string));
  opt_body : Body
}.

Record Request : Type := mkRequest {
  req_url : string;
  req_method : option string;
  req_cache : option string;
  req_headers : Headers;
  req_body : Body
}.

(** How a network call settles: [fetch] rejects, or it resolves with a
    status and a body that [res.json()] parses ([Some]) or rejects
    ([None]). *)
Inductive Response : Type :=
| FetchRejected
| HttpResponse (status : nat) (body : option Json).

(** [res.ok]. *)
Definition res_ok (status : nat) : bool :=
  Nat.leb 200 status && Nat.leb status 299.

(** ** fetchWithAuth *)

Definition is_FormData (b : Body) : bool :=
  match b with BodyFormData _ => true | _ => false end.

(** [options.body && typeof options.body !== 'string'] *)
Definition body_needs_stringify (b : Body) : bool :=
  match b with
  | BodyValue (JStr _) => false
  | BodyValue v => truthy (Some v)
  | _ => false
  end.

(** The part of [fetchWithAuth] before its [await]: the request it hands to
    [fetch]. *)
Definition fetchWithAuth_request `{Platform} (ls : Storage) (path : string)
    (options : Options) : Request :=
  let token := getToken ls in
  let headers := new_Headers (default [] (opt_headers options)) in
  let '(headers, body) :=
    if negb (is_FormData (opt_body options)) then
      (headers_set "Content-Type" "application/json" headers,
       match opt_body options with
       | BodyValue v =>
           if body_needs_stringify (opt_body options)
           then BodyValue (JStr (JSON_stringify v))
           else opt_body options
       | b => b
       end)
    else (headers, opt_body options) in
  let headers :=
    match token with
    | Some t => headers_set "Authorization" ("Bearer " +:+ t) headers
    | None => headers
    end in
  {| req_url := API_BASE +:+ path;
     req_method := opt_method options;
     req_cache := opt_cache options;
     req_headers := headers;
     req_body := body |}.

(** The part after the [await]: what the caller's [await fetchWithAuth(...)]
    sees, and the session state it leaves. *)
Definition fetchWithAuth_settle (g : Global) (r : Response)
    : Global * (Error + (nat * option Json)) :=
  match r with
  | FetchRejected => (g, inl NetworkFailure)
  | HttpResponse status body =>
      if Nat.eqb status 401 then
        let g := logout g in
        ({| localStorage := localStorage g;
            currentUser := currentUser g;
            location_href := "login.html" |}, inl Unauthorized)
      else (g, inr (status, body))
  end.

(** ** Handlers as state-and-exception computations *)

(** A handler body runs on the widget state [S]; it ends normally with a
    value or abruptly with a thrown error, and keeps the state changes made
    before the throw. *)
Definition M (S A : Type) : Type := S -> S * (Error + A).

Definition ret {S A} (a : A) : M S A := fun s => (s, inr a).
Definition throw {S A} (e : Error) : M S A := fun s => (s, inl e).
Definition bind {S A B} (m : M S A) (k : A -> M S B) : M S B :=
  fun s =>
    match m s with
    | (s', inl e) => (s', inl e)
    | (s', inr a) => k a s'
    end.
Definition get {S} : M S S := fun s => (s, inr s).
Definition modify {S} (f : S -> S) : M S unit := fun s => (f s, inr tt).
Definition lift {S A} (r : Error + A) : M S A := fun s => (s, r).

(** [try { body } catch (error) { handler }] *)
Definition try_catch {S A} (body : M S A) (handler : Error -> M S A) : M S A :=
  fun s =>
    match body s with
    | (s', inl e) => handler e s'
    | (s', inr a) => (s', inr a)
    end.

Declare Scope js_scope.
Delimit Scope js_scope with js.
Notation "x <- c1 ;; c2" := (bind c1 (fun x => c2))
  (at level 100, c1 at next level, right associativity) : js_scope.
Notation "c1 ;; c2" := (bind c1 (fun _ => c2))
  (at level 100, right associativity) : js_scope.

(** [Array.prototype.map] with a callback that may throw. *)
Fixpoint mapM {A B} (f : A -> Error + B) (l : list A) : Error + list B :=
  match l with
  | [] => inr []
  | x :: l' =>
      match f x with
      | inl e => inl e
      | inr y =>
          match mapM f l' with
          | inl e => inl e
          | inr ys => inr (y :: ys)
          end
      end
  end.

(** [Array.prototype.filter] with a callback that may throw. *)
Fixpoint filterM {A} (f : A -> Error + bool) (l : list A) : Error + list A :=
  match l with
  | [] => inr []
  | x :: l' =>
      match f x with
      | inl e => inl e
      | inr b =>
          match filterM f l' with
          | inl e => inl e
          | inr ys => inr (if b then x :: ys else ys)
          end
      end
  end.

(** [(data || [])] seen as the receiver of an array method: a falsy value
    gives the empty array, an array its elements, and any other value has
    no [map] or [filter] to call. *)
Definition as_array (data : Json) : Error + list Json :=
  if truthy (Some data) then
    match data with
    | JArr elems => inr elems
    | _ => inl TypeError
    end
  else inr [].

(** ** What a widget shares with the browser *)

(** A suggestion held in [results] or [selected], with the properties the
    widgets read. *)
Record Item : Type := mkItem {
  item_id : JsVal;
  item_name : JsVal;
  item_avatarUrl : JsVal
}.

(** One [<div class="suggestion-item">] of [suggestionsEl.innerHTML]: its
    [data-index] and the three interpolated texts. *)
Record Row : Type := mkRow {
  row_index : nat;
  row_src : string;
  row_alt : string;
  row_text : string
}.

Definition render_row (index : nat) (item : Item) : Row :=
  {| row_index := index;
     row_src := template (escapeHtml (js_or (item_avatarUrl item)
                                            (Some (JStr DEFAULT_AVATAR))));
     row_alt := template (escapeHtml (item_name item));
     row_text := template (escapeHtml (item_name item)) |}.

(** The row template of [renderSuggestions] has a text for this item: the
    two values it interpolates, after [escapeHtml], are printable. *)
Definition row_renders (item : Item) : bool :=
  printable (escapeHtml (js_or (item_avatarUrl item)
                               (Some (JStr DEFAULT_AVATAR))))
  && printable (escapeHtml (item_name item)).

(** The callbacks the widgets give to [setTimeout]. *)
Inductive Callback : Type :=
| CbFetch (value : string)      (* [() => fetchSuggestions(value)] *)
| CbClear.                      (* [() => { clearSuggestions(); }] *)

Record Timer : Type := mkTimer {
  timer_id : nat;
  timer_delay : nat;
  timer_cb : Callback
}.

Definition is_fetch_timer (t : Timer) : bool :=
  match timer_cb t with CbFetch _ => true | CbClear => false end.

(** A call of [fetchSuggestions]: its argument, the request it made, and
    whether that request has settled. *)
Record Call : Type := mkCall {
  call_query : string;
  call_request : Request;
  call_settled : bool
}.

Definition settle (c : Call) : Call :=
  {| call_query := call_query c;
     call_request := call_request c;
     call_settled := true |}.

(** The browser side of a widget: pending timers (oldest first), the next
    timer id, and the network calls made so far (oldest first). *)
Record Browser : Type := mkBrowser {
  timers : list Timer;
  next_timer : nat;
  calls : list Call
}.

Definition setTimeout (cb : Callback) (delay : nat) (b : Browser) : nat * Browser :=
  (next_timer b,
   {| timers := timers b ++ [ {| timer_id := next_timer b;
                                 timer_delay := delay;
                                 timer_cb := cb |} ];
      next_timer := S (next_timer b);
      calls := calls b |}).

Definition clearTimeout (id : nat) (b : Browser) : Browser :=
  {| timers := filter (fun t => timer_id t ≠ id) (timers b);
     next_timer := next_timer b;
     calls := calls b |}.

(** [if (timeout) clearTimeout(timeout)]: [None] is [undefined], and [0]
    is falsy. *)
Definition clear_if_set (timeout : option nat) (b : Browser) : Browser :=
  match timeout with
  | Some id => if Nat.eqb id 0 then b else clearTimeout id b
  | None => b
  end.

Definition find_timer (id : nat) (b : Browser) : option Timer :=
  List.find (fun t => Nat.eqb (timer_id t) id) (timers b).

Definition push_call (query : string) (req : Request) (b : Browser) : Browser :=
  {| timers := timers b;
     next_timer := next_timer b;
     calls := calls b ++ [ {| call_query := query;
                              call_request := req;
                              call_settled := false |} ] |}.

Definition mark_settled (k : nat) (b : Browser) : Browser :=
  {| timers := timers b;
     next_timer := next_timer b;
     calls := alter settle k (calls b) |}.

(** The call [k] is in flight. *)
Definition in_flight (k : nat) (b : Browser) : bool :=
  match calls b !! k with
  | Some c => negb (call_settled c)
  | None => false
  end.

Definition browser0 : Browser :=
  {| timers := []; next_timer := 1; calls := [] |}.

(** Queries of the calls made, oldest first. *)
Definition dispatched (b : Browser) : list string :=
  map call_query (calls b).

(** ** DOM elements the widgets are attached to *)

Record InputElement : Type := mkInput {
  input_value : string                 (* [inputEl.value] *)
}.

Record ListElement : Type := mkListEl {
  innerHTML : list Row;                (* rows of [suggestionsEl.innerHTML] *)
  hidden : bool                        (* [classList] holds 'hidden' *)
}.

Definition render_rows (items : list Item) : list Row :=
  imap render_row items.

(** What the user and the browser can do to a widget. *)
Inductive Event : Type :=
| EvInput (text : string)        (* the field now reads [text]; 'input' fires *)
| EvTimer (id : nat)             (* the pending timer [id] fires *)
| EvResponse (k : nat) (r : Response)  (* the network call [k] settles *)
| EvMousedown (target : option nat)
    (* 'mousedown' in the list; [closest('.suggestion-item')] finds the row
       with this [data-index], or nothing *)
| EvRemoveClick (target : option string)
    (* 'click' in the chip container; [closest('button[data-action="remove"]')]
       finds a button with this [data-id], or nothing *)
| EvBlur                         (* 'blur' on the field *)
| EvReset.                       (* the form calls [reset()] *)

(** ** setupLocationAutocomplete *)

Module Location.

Record State : Type := mkState {
  inputEl : InputElement;
  suggestionsEl : ListElement;
  timeout : option nat;              (* [let timeout] *)
  results : list Item;               (* [let results] *)
  selectedValue : JsVal;             (* [let selectedValue] *)
  browser : Browser
}.

Definition set_inputEl (v : string) (s : State) : State :=
  mkState (mkInput v) (suggestionsEl s) (timeout s) (results s)
          (selectedValue s) (browser s).
Definition set_suggestionsEl (el : ListElement) (s : State) : State :=
  mkState (inputEl s) el (timeout s) (results s) (selectedValue s) (browser s).
Definition set_timeout (t : option nat) (s : State) : State :=
  mkState (inputEl s) (suggestionsEl s) t (results s) (selectedValue s)
          (browser s).
Definition set_results (r : list Item) (s : State) : State :=
  mkState (inputEl s) (suggestionsEl s) (timeout s) r (selectedValue s)
          (browser s).
Definition set_selectedValue (v : JsVal) (s : State) : State :=
  mkState (inputEl s) (suggestionsEl s) (timeout s) (results s) v (browser s).
Definition set_browser (b : Browser) (s : State) : State :=
  mkState (inputEl s) (suggestionsEl s) (timeout s) (results s)
          (selectedValue s) b.

Local Open Scope js_scope.

Definition clearSuggestions : M State unit :=
  modify (set_suggestionsEl (mkListEl [] true)) ;;
  modify (set_results []).

(** The rows are built before [innerHTML] is assigned: when the template
    throws on one of them, nothing has been written. *)
Definition renderSuggestions (items : list Item) : M State unit :=
  match items with
  | [] => clearSuggestions
  | _ =>
      if forallb row_renders items then
        modify (fun s =>
          set_suggestionsEl (mkListEl (render_rows items) false) s)
      else throw TypeError
  end.

(** [(item) => ({ id: item.place_id, name: item.display_name })] *)
Definition to_item (item : Json) : Error + Item :=
  match get_prop (Some item) "place_id" with
  | inl e => inl e
  | inr id =>
      match get_prop (Some item) "display_name" with
      | inl e => inl e
      | inr name => inr (mkItem id name undefined)
      end
  end.

Definition search_request `{Platform} (query : string) : Request :=
  {| req_url :=
       url_with_params "https://nominatim.openstreetmap.org/search"
         [ ("q", query); ("format", "json"); ("limit", "7");
           ("addressdetails", "0") ];
     req_method := None;
     req_cache := None;
     req_headers := new_Headers [ ("Accept", "application/json") ];
     req_body := BodyAbsent |}.

(** [fetchSuggestions(query)] up to [await fetch(...)]. *)
Definition fetchSuggestions `{Platform} (query : string) : M State unit :=
  modify (fun s =>
    set_browser (push_call query (search_request query) (browser s)) s).

(** The [try] block of [fetchSuggestions] from [await fetch(...)] on. *)
Definition fetchSuggestions_try (r : Response) : M State unit :=
  match r with
  | FetchRejected => throw NetworkFailure
  | HttpResponse status body =>
      if negb (res_ok status) then clearSuggestions
      else
        data <- lift (from_option inr (inl SyntaxError) body) ;;
        elems <- lift (as_array data) ;;
        items <- lift (mapM to_item elems) ;;
        modify (set_results items) ;;
        s <- get ;;
        renderSuggestions (results s)
  end.

(** [fetchSuggestions] from [await fetch(...)] on, with its [catch]. *)
Definition fetchSuggestions_settled (r : Response) : M State unit :=
  try_catch (fetchSuggestions_try r) (fun _ => clearSuggestions).

Definition on_input `{Platform} (text : string) : M State unit :=
  modify (set_inputEl text) ;;
  s <- get ;;
  modify (set_selectedValue (Some (JStr (trim (input_value (inputEl s)))))) ;;
  let value := trim (input_value (inputEl s)) in
  modify (fun s => set_browser (clear_if_set (timeout s) (browser s)) s) ;;
  if Nat.ltb (js_length value) 2 then clearSuggestions
  else
    modify (fun s =>
      let '(id, b) := setTimeout (CbFetch value) 250 (browser s) in
      set_timeout (Some id) (set_browser b s)).

Definition on_mousedown (target : option nat) : M State unit :=
  match target with
  | None => ret tt
  | Some index =>
      s <- get ;;
      match results s !! index with
      | Some suggestion =>
          modify (set_selectedValue (item_name suggestion)) ;;
          (if printable (item_name suggestion)
           then modify (set_inputEl (to_input_value (item_name suggestion)))
           else throw TypeError) ;;
          clearSuggestions
      | None => ret tt
      end
  end.

Definition on_blur : M State unit :=
  modify (fun s => set_browser (setTimeout CbClear 150 (browser s)).2 s).

(** [getValue()] *)
Definition getValue (s : State) : JsVal :=
  js_or (selectedValue s) (Some (JStr (trim (input_value (inputEl s))))).

Definition reset : M State unit :=
  modify (set_selectedValue (Some (JStr ""))) ;;
  modify (set_inputEl "") ;;
  clearSuggestions.

Definition run_callback `{Platform} (cb : Callback) : M State unit :=
  match cb with
  | CbFetch value => fetchSuggestions value
  | CbClear => clearSuggestions
  end.

(** A pending timer fires: the browser drops it and runs its callback. *)
Definition on_timer `{Platform} (id : nat) : M State unit :=
  s <- get ;;
  match find_timer id (browser s) with
  | Some t =>
      modify (fun s => set_browser (clearTimeout id (browser s)) s) ;;
      run_callback (timer_cb t)
  | None => ret tt
  end.

(** The network call [k] settles and [fetchSuggestions] resumes. *)
Definition on_response (k : nat) (r : Response) : M State unit :=
  s <- get ;;
  if in_flight k (browser s) then
    modify (fun s => set_browser (mark_settled k (browser s)) s) ;;
    fetchSuggestions_settled r
  else ret tt.

Definition handle `{Platform} (ev : Event) : M State unit :=
  match ev with
  | EvInput text => on_input text
  | EvTimer id => on_timer id
  | EvResponse k r => on_response k r
  | EvMousedown target => on_mousedown target
  | EvRemoveClick _ => ret tt          (* this widget has no chips *)
  | EvBlur => on_blur
  | EvReset => reset
  end.

Definition step `{Platform} (s : State) (ev : Event) : State :=
  (handle ev s).1.

Definition run `{Platform} (s : State) (evs : list Event) : State :=
  fold_left step evs s.

(** [setupLocationAutocomplete(inputEl, suggestionsEl)]: [None] is a
    missing element, and the result [None] is the [null] returned then. *)
Definition setupLocationAutocomplete (inputEl : option InputElement)
    (suggestionsEl : option ListElement) : option State :=
  match inputEl, suggestionsEl with
  | Some i, Some l =>
      Some {| inputEl := i;
              suggestionsEl := l;
              timeout := None;
              results := [];
              selectedValue := Some (JStr (trim (input_value i)));
              browser := browser0 |}
  | _, _ => None
  end.

(** The widget on an empty field and an empty, hidden list. *)
Definition init : State :=
  {| inputEl := mkInput "";
     suggestionsEl := mkListEl [] true;
     timeout := None;
     results := [];
     selectedValue := Some (JStr "");
     browser := browser0 |}.

End Location.

(** ** setupPeopleSelector *)

(** One [<span class="chip">] of the markup assigned to
    [containerEl.innerHTML], by the texts interpolated into it: [chip_id]
    is written, not escaped, into the [data-id] of the chip and of its
    remove button; the other three pass through [escapeHtml]. *)
Record Chip : Type := mkChip {
  chip_id : string;
  chip_src : string;
  chip_alt : string;
  chip_text : string
}.

Definition render_chip (person : Item) : Chip :=
  {| chip_id := template (item_id person);
     chip_src := template (escapeHtml (js_or (item_avatarUrl person)
                                             (Some (JStr DEFAULT_AVATAR))));
     chip_alt := template (escapeHtml (item_name person));
     chip_text := template (escapeHtml (item_name person)) |}.

(** The chip template of [renderSelected] has a text for this person. *)
Definition chip_renders (person : Item) : bool :=
  printable (item_id person) && row_renders person.

(** [new Set(ids).has(x)]: SameValueZero, which is [===] on parsed values. *)
Definition Set_has (ids : list JsVal) (x : JsVal) : bool :=
  existsb (js_strict_eq x) ids.

Module People.

Record State : Type := mkState {
  inputEl : InputElement;
  suggestionsEl : ListElement;
  containerEl : list Chip;           (* chips of [containerEl.innerHTML] *)
  selected : list Item;              (* [let selected] *)
  timeout : option nat;              (* [let timeout] *)
  results : list Item;               (* [let results] *)
  browser : Browser;
  global : Global
}.

Definition set_inputEl (v : string) (s : State) : State :=
  mkState (mkInput v) (suggestionsEl s) (containerEl s) (selected s)
          (timeout s) (results s) (browser s) (global s).
Definition set_suggestionsEl (el : ListElement) (s : State) : State :=
  mkState (inputEl s) el (containerEl s) (selected s) (timeout s)
          (results s) (browser s) (global s).
Definition set_containerEl (c : list Chip) (s : State) : State :=
  mkState (inputEl s) (suggestionsEl s) c (selected s) (timeout s)
          (results s) (browser s) (global s).
Definition set_selected (l : list Item) (s : State) : State :=
  mkState (inputEl s) (suggestionsEl s) (containerEl s) l (timeout s)
          (results s) (browser s) (global s).
Definition set_timeout (t : option nat) (s : State) : State :=
  mkState (inputEl s) (suggestionsEl s) (containerEl s) (selected s) t
          (results s) (browser s) (global s).
Definition set_results (r : list Item) (s : State) : State :=
  mkState (inputEl s) (suggestionsEl s) (containerEl s) (selected s)
          (timeout s) r (browser s) (global s).
Definition set_browser (b : Browser) (s : State) : State :=
  mkState (inputEl s) (suggestionsEl s) (containerEl s) (selected s)
          (timeout s) (results s) b (global s).
Definition set_global (g : Global) (s : State) : State :=
  mkState (inputEl s) (suggestionsEl s) (containerEl s) (selected s)
          (timeout s) (results s) (browser s) g.

Local Open Scope js_scope.

(** The chips are built before [innerHTML] is assigned: when the template
    throws on one of them, the chips on the page stay as they were. *)
Definition renderSelected : M State unit :=
  s <- get ;;
  match selected s with
  | [] => modify (set_containerEl [])
  | _ =>
      if forallb chip_renders (selected s)
      then modify (set_containerEl (map render_chip (selected s)))
      else throw TypeError
  end.

Definition clearSuggestions : M State unit :=
  modify (set_suggestionsEl (mkListEl [] true)) ;;
  modify (set_results []).

(** The rows are built before [innerHTML] is assigned: when the template
    throws on one of them, nothing has been written. *)
Definition renderSuggestions (items : list Item) : M State unit :=
  match items with
  | [] => clearSuggestions
  | _ =>
      if forallb row_renders items then
        modify (fun s =>
          set_suggestionsEl (mkListEl (render_rows items) false) s)
      else throw TypeError
  end.

Definition search_options : Options :=
  {| opt_method := Some "GET";
     opt_cache := None;
     opt_headers := None;
     opt_body := BodyAbsent |}.

(** [fetchSuggestions(query)] up to the [await] inside [fetchWithAuth]. *)
Definition fetchSuggestions `{Platform} (query : string) : M State unit :=
  modify (fun s =>
    let req :=
      fetchWithAuth_request (localStorage (global s))
        ("/users/search?q=" +:+ encodeURIComponent query) search_options in
    set_browser (push_call query req (browser s)) s).

(** [await fetchWithAuth(...)] resuming in the widget. *)
Definition await_fetchWithAuth (r : Response) : M State (nat * option Json) :=
  fun s =>
    let '(g, res) := fetchWithAuth_settle (global s) r in
    (set_global g s, res).

(** [(person) => !selectedIds.has(person.id) &&
                 person.id !== currentUser?.id] *)
Definition keep_person (selectedIds : list JsVal) (user : option Json)
    (person : Json) : Error + bool :=
  match get_prop (Some person) "id" with
  | inl e => inl e
  | inr id =>
      inr (negb (Set_has selectedIds id)
           && negb (js_strict_eq id (get_prop_opt user "id")))
  end.

(** [(person) => ({ ...person,
                    avatarUrl: person.avatarUrl || DEFAULT_AVATAR })] *)
Definition to_item (person : Json) : Item :=
  {| item_id := get_prop_opt (Some person) "id";
     item_name := get_prop_opt (Some person) "name";
     item_avatarUrl := js_or (get_prop_opt (Some person) "avatarUrl")
                             (Some (JStr DEFAULT_AVATAR)) |}.

(** The [try] block of [fetchSuggestions] from the [await] on. *)
Definition fetchSuggestions_try (r : Response) : M State unit :=
  res <- await_fetchWithAuth r ;;
  if negb (res_ok res.1) then clearSuggestions
  else
    data <- lift (from_option inr (inl SyntaxError) res.2) ;;
    s <- get ;;
    let selectedIds := map item_id (selected s) in
    elems <- lift (as_array data) ;;
    kept <- lift (filterM (keep_person selectedIds (currentUser (global s)))
                          elems) ;;
    modify (set_results (map to_item kept)) ;;
    s <- get ;;
    renderSuggestions (results s).

Definition fetchSuggestions_settled (r : Response) : M State unit :=
  try_catch (fetchSuggestions_try r) (fun _ => clearSuggestions).

Definition on_input `{Platform} (text : string) : M State unit :=
  modify (set_inputEl text) ;;
  s <- get ;;
  let value := trim (input_value (inputEl s)) in
  modify (fun s => set_browser (clear_if_set (timeout s) (browser s)) s) ;;
  if Nat.ltb (js_length value) 2 then clearSuggestions
  else
    modify (fun s =>
      let '(id, b) := setTimeout (CbFetch value) 200 (browser s) in
      set_timeout (Some id) (set_browser b s)).

Definition on_mousedown (target : option nat) : M State unit :=
  match target with
  | None => ret tt
  | Some index =>
      s <- get ;;
      match results s !! index with
      | Some selection =>
          modify (fun s => set_selected (selected s ++ [selection]) s) ;;
          renderSelected ;;
          modify (set_inputEl "") ;;
          clearSuggestions
      | None => ret tt
      end
  end.

Definition on_remove_click (target : option string) : M State unit :=
  match target with
  | None => ret tt
  | Some id =>
      modify (fun s =>
        set_selected
          (List.filter
             (fun person => negb (js_strict_eq (item_id person) (Some (JStr id))))
             (selected s)) s) ;;
      renderSelected
  end.

Definition on_blur : M State unit :=
  modify (fun s => set_browser (setTimeout CbClear 150 (browser s)).2 s).

(** [getSelectedIds()] *)
Definition getSelectedIds (s : State) : list JsVal :=
  map item_id (selected s).

Definition reset : M State unit :=
  modify (set_selected []) ;;
  renderSelected ;;
  clearSuggestions ;;
  modify (set_inputEl "").

Definition run_callback `{Platform} (cb : Callback) : M State unit :=
  match cb with
  | CbFetch value => fetchSuggestions value
  | CbClear => clearSuggestions
  end.

Definition on_timer `{Platform} (id : nat) : M State unit :=
  s <- get ;;
  match find_timer id (browser s) with
  | Some t =>
      modify (fun s => set_browser (clearTimeout id (browser s)) s) ;;
      run_callback (timer_cb t)
  | None => ret tt
  end.

Definition on_response (k : nat) (r : Response) : M State unit :=
  s <- get ;;
  if in_flight k (browser s) then
    modify (fun s => set_browser (mark_settled k (browser s)) s) ;;
    fetchSuggestions_settled r
  else ret tt.

Definition handle `{Platform} (ev : Event) : M State unit :=
  match ev with
  | EvInput text => on_input text
  | EvTimer id => on_timer id
  | EvResponse k r => on_response k r
  | EvMousedown target => on_mousedown target
  | EvRemoveClick target => on_remove_click target
  | EvBlur => on_blur
  | EvReset => reset
  end.

Definition step `{Platform} (s : State) (ev : Event) : State :=
  (handle ev s).1.

Definition run `{Platform} (s : State) (evs : list Event) : State :=
  fold_left step evs s.

(** [setupPeopleSelector({ inputEl, suggestionsEl, containerEl })] on the
    page whose module state is [g]. *)
Definition setupPeopleSelector (g : Global) (inputEl : option InputElement)
    (suggestionsEl : option ListElement) (containerEl : option (list Chip))
    : option State :=
  match inputEl, suggestionsEl, containerEl with
  | Some i, Some l, Some c =>
      Some {| inputEl := i;
              suggestionsEl := l;
              containerEl := c;
              selected := [];
              timeout := None;
              results := [];
              browser := browser0;
              global := g |}
  | _, _, _ => None
  end.

(** The widget on an empty field, an empty hidden list and no chips. *)
Definition init (g : Global) : State :=
  {| inputEl := mkInput "";
     suggestionsEl := mkListEl [] true;
     containerEl := [];
     selected := [];
     timeout := None;
     results := [];
     browser := browser0;
     global := g |}.

End People.

(** A platform to run the definitions on: the built-ins are replaced by
    stand-ins that keep their argument visible. *)
Definition test_platform : Platform :=
  {| API_BASE := DEFAULT_API_BASE;
     JSON_stringify := fun v => "json:" +:+ js_to_string v;
     encodeURIComponent := fun s => s;
     url_with_params := fun base params =>
       base +:+ "?" +:+ join "&" (map (fun kv => kv.1 +:+ "=" +:+ kv.2) params) |}.

(** ** Base address *)

(** [url.replace(/\/+$/, '')]: the run of slashes at the end is dropped; a
    character is kept when it is not a slash or when something is kept after
    it. *)
Fixpoint strip_trailing_slashes (s : string) : string :=
  match s with
  | EmptyString => EmptyString
  | String c s' =>
      match strip_trailing_slashes s' with
      | EmptyString =>
          if Ascii.eqb c "/" then EmptyString else String c EmptyString
      | t => String c t
      end
  end.

(** [normalizeBase(url)], for [url] a string or a missing value ([None]). *)
Definition normalizeBase (url : option string) : string :=
  match url with
  | None => ""
  | Some u => if String.eqb u "" then "" else strip_trailing_slashes u
  end.

(** [window.location], the parts [resolveApiBase] reads. *)
Record WindowLocation : Type := mkWindowLocation {
  loc_protocol : string;
  loc_port : string;
  loc_hostname : string;
  loc_origin : string
}.

Record Window : Type := mkWindow {
  PHOTOSHARE_API_BASE : option string;   (* [window.__PHOTOSHARE_API_BASE] *)
  window_location : WindowLocation
}.

(** The document, as far as [resolveApiBase] looks: the [content] of
    [<meta name="photoshare-api-base">], [None] when there is no such
    element. *)
Record Document : Type := mkDocument {
  meta_api_base : option string
}.

(** Truthiness of a string that may be missing. *)
Definition str_truthy (o : option string) : bool :=
  match o with
  | Some s => negb (String.eqb s "")
  | None => false
  end.

(** [resolveApiBase()]; [None] for [window] or [document] is
    [typeof ... === 'undefined']. *)
Definition resolveApiBase (window : option Window) (document : option Document)
    : string :=
  match window with
  | None => DEFAULT_API_BASE
  | Some w =>
      if str_truthy (PHOTOSHARE_API_BASE w) then
        normalizeBase (PHOTOSHARE_API_BASE w)
      else
        let meta := match document with
                    | Some d => meta_api_base d
                    | None => None
                    end in
        if str_truthy meta then normalizeBase (option_map trim meta)
        else
          let l := window_location w in
          if String.eqb (loc_protocol l) "file:" then DEFAULT_API_BASE
          else if String.eqb (loc_port l) "5000" then
            normalizeBase (Some (loc_origin l +:+ "/api"))
          else if String.eqb (loc_hostname l) "localhost"
                  || String.eqb (loc_hostname l) "127.0.0.1" then
            DEFAULT_API_BASE
          else normalizeBase (Some (loc_origin l +:+ "/api"))
  end.

(** The last character of a string. *)
Fixpoint last_char (s : string) : option ascii :=
  match s with
  | EmptyString => None
  | String c EmptyString => Some c
  | String _ s' => last_char s'
  end.

(** [k] slashes. *)
Fixpoint slashes (k : nat) : string :=
  match k with
  | O => EmptyString
  | S k' => String "/" (slashes k')
  end.


(** ** Page functions built on fetchWithAuth *)

(** How a page function fails: with an [Error] this program creates, known
    by its message, or with an error the platform raised. *)
Inductive Failure : Type :=
| ErrorMessage (message : string)
| PlatformError (e : Error).

(** The rejection of [fetchWithAuth] as its caller sees it. *)
Definition failure_of (e : Error) : Failure :=
  match e with
  | Unauthorized => ErrorMessage "Unauthorized"
  | _ => PlatformError e
  end.

(** [throw new Error(v || fallback)]: the message is the text of a truthy
    [v], else the fallback; when [v] has no text, [new Error] itself throws
    a TypeError. *)
Definition error_or (v : JsVal) (fallback : string) : Failure :=
  match to_text (js_or v (Some (JStr fallback))) with
  | inr message => ErrorMessage message
  | inl e => PlatformError e
  end.

(** The options [uploadImageFile] passes on: the file goes into a
    [FormData] under the name [image]. *)
Definition upload_options (file : string) : Options :=
  {| opt_method := Some "POST";
     opt_cache := None;
     opt_headers := None;
     opt_body := BodyFormData [ ("image", file) ] |}.

(** [uploadImageFile(file)] up to its [await]: [None] is a missing file. *)
Definition uploadImageFile_start `{Platform} (ls : Storage)
    (file : option string) : Failure + Request :=
  match file with
  | None => inl (ErrorMessage "Please select a photo to upload.")
  | Some f =>
      inr (fetchWithAuth_request ls "/photos/upload-image" (upload_options f))
  end.

(** [uploadImageFile] from the [await] on: the session it leaves and the
    image address it resolves with, or its rejection. *)
Definition uploadImageFile_settle (g : Global) (r : Response)
    : Global * (Failure + JsVal) :=
  match fetchWithAuth_settle g r with
  | (g', inl e) => (g', inl (failure_of e))
  | (g', inr (status, body)) =>
      (* [let payload = {}], replaced when [res.json()] succeeds *)
      let payload : JsVal :=
        match body with
        | Some data => Some data
        | None => Some (JObj [])
        end in
      if negb (res_ok status) || negb (truthy (get_prop_opt payload "imageUrl"))
      then (g', inl (error_or (get_prop_opt payload "message")
                              "Image upload failed"))
      else (g', inr (get_prop_opt payload "imageUrl"))
  end.

(** A property of an object literal as [JSON.stringify] writes it: a
    property whose value is [undefined] is left out. *)
Definition json_field (k : string) (v : JsVal) : list (string * Json) :=
  match v with
  | Some j => [ (k, j) ]
  | None => []
  end.

(** The object [createPhotoRecord] sends, as [JSON.stringify] reads it: an
    [undefined] entry of the [people] array is written [null]. *)
Definition photo_record (title caption location : JsVal) (people : list JsVal)
    (imageUrl : JsVal) : Json :=
  JObj (json_field "title" title ++ json_field "caption" caption
        ++ json_field "location" location
        ++ [ ("people", JArr (map (default JNull) people)) ]
        ++ json_field "imageUrl" imageUrl).

Definition createPhotoRecord_start `{Platform} (ls : Storage)
    (title caption location : JsVal) (people : list JsVal) (imageUrl : JsVal)
    : Request :=
  fetchWithAuth_request ls "/photos"
    {| opt_method := Some "POST";
       opt_cache := None;
       opt_headers := None;
       opt_body := BodyValue (photo_record title caption location people
                                           imageUrl) |}.

Definition createPhotoRecord_settle (g : Global) (r : Response)
    : Global * (Failure + Json) :=
  match fetchWithAuth_settle g r with
  | (g', inl e) => (g', inl (failure_of e))
  | (g', inr (status, body)) =>
      match body with
      | None => (g', inl (ErrorMessage "Unexpected response from server"))
      | Some payload =>
          if negb (res_ok status)
          then (g', inl (error_or (get_prop_opt (Some payload) "message")
                                  "Photo creation failed"))
          else (g', inr payload)
      end
  end.


(** ** Signing in and restoring the session *)

(** [localStorage.setItem(k, v)] for any value [v]: it stores the text of
    [v], and throws when [v] has none. *)
Definition setItem_js (k : string) (v : JsVal) (ls : Storage)
    : Error + Storage :=
  match to_text v with
  | inr text => inr (<[k := text]> ls)
  | inl e => inl e
  end.

(** [if (v) setItem(k, v) else removeItem(k)] for any value [v]. *)
Definition set_or_remove_js (k : string) (v : JsVal) (ls : Storage)
    : Error + Storage :=
  if truthy v then setItem_js k v ls else inr (delete k ls).

(** The setters, called with a value read from a parsed body. *)
Definition setToken_js (token : JsVal) (ls : Storage) : Error + Storage :=
  set_or_remove_js "photoshare_token" token ls.
Definition setUserRole_js (role : JsVal) (ls : Storage) : Error + Storage :=
  set_or_remove_js "photoshare_role" role ls.
Definition setUserName_js (name : JsVal) (ls : Storage) : Error + Storage :=
  set_or_remove_js "photoshare_name" name ls.

(** [user.id || user._id]: the id of a user, as the login handler,
    [hydrateSession] and the profile page read it. *)
Definition user_id_of (user : JsVal) : JsVal :=
  js_or (get_prop_opt user "id") (get_prop_opt user "_id").

(** [localStorage.setItem('photoshare_user_id', user.id || user._id)] *)
Definition store_user_id (user : JsVal) (ls : Storage) : Error + Storage :=
  setItem_js "photoshare_user_id" (user_id_of user) ls.

(** The three writes both sign-in paths make, in their order: role, name,
    user id.  The result is the store after the last write that went
    through, and the error of the write that threw, if one did. *)
Definition store_user (ls : Storage) (role name : JsVal) (user : JsVal)
    : Storage * option Error :=
  match setUserRole_js role ls with
  | inl e => (ls, Some e)
  | inr ls1 =>
      match setUserName_js name ls1 with
      | inl e => (ls1, Some e)
      | inr ls2 =>
          match store_user_id user ls2 with
          | inl e => (ls2, Some e)
          | inr ls3 => (ls3, None)
          end
      end
  end.

(** [hydrateSession()] up to its [await]: without a token it returns at
    once ([None]), else it asks for [/auth/me]. *)
Definition hydrateSession_start `{Platform} (g : Global) : option Request :=
  match getToken (localStorage g) with
  | None => None
  | Some _ =>
      Some (fetchWithAuth_request (localStorage g) "/auth/me"
              {| opt_method := None;
                 opt_cache := Some "no-store";
                 opt_headers := None;
                 opt_body := BodyAbsent |})
  end.

(** The [catch] of [hydrateSession]: [logout(); currentUser = null]. *)
Definition hydrateSession_catch (g : Global) : Global :=
  let g := logout g in
  {| localStorage := localStorage g;
     currentUser := None;
     location_href := location_href g |}.

(** [hydrateSession] from the [await] on: the session it leaves and the
    value it returns ([None] is [null]). *)
Definition hydrateSession_settle (g : Global) (r : Response)
    : Global * option Json :=
  match fetchWithAuth_settle g r with
  | (g', inl _) => (hydrateSession_catch g', None)
  | (g', inr (status, body)) =>
      if negb (res_ok status) then (hydrateSession_catch g', None)
      else
        match body with
        | None => (hydrateSession_catch g', None)
        | Some data =>
            match get_prop (Some data) "role" with
            | inl _ => (hydrateSession_catch g', None)
            | inr role =>
                match store_user (localStorage g') role
                        (get_prop_opt (Some data) "name") (Some data) with
                | (ls, Some _) =>
                    (* a write threw: the [catch] runs on what was written *)
                    (hydrateSession_catch
                       {| localStorage := ls;
                          currentUser := currentUser g';
                          location_href := location_href g' |}, None)
                | (ls, None) =>
                    ({| localStorage := ls;
                        currentUser := Some data;
                        location_href := location_href g' |}, Some data)
                end
            end
        end
  end.

(** The functions [init] calls for a page, by name. *)
Inductive PageCall : Type :=
| Call_bindSearch
| Call_bindCreatePostModal
| Call_loadFeed
| Call_loadPhotoDetail
| Call_bindLoginForm
| Call_bindSignupForm
| Call_loadCreatorDashboard
| Call_bindUploadForm
| Call_refreshFeeds
| Call_loadProfilePage.

Definition PageCall_eqb (a b : PageCall) : bool :=
  match a, b with
  | Call_bindSearch, Call_bindSearch
  | Call_bindCreatePostModal, Call_bindCreatePostModal
  | Call_loadFeed, Call_loadFeed
  | Call_loadPhotoDetail, Call_loadPhotoDetail
  | Call_bindLoginForm, Call_bindLoginForm
  | Call_bindSignupForm, Call_bindSignupForm
  | Call_loadCreatorDashboard, Call_loadCreatorDashboard
  | Call_bindUploadForm, Call_bindUploadForm
  | Call_refreshFeeds, Call_refreshFeeds
  | Call_loadProfilePage, Call_loadProfilePage => true
  | _, _ => false
  end.

(** [page === name] for [page = document.body.dataset.page], [None] when the
    attribute is missing. *)
Definition page_is (page : option string) (name : string) : bool :=
  match page with
  | Some p => String.eqb p name
  | None => false
  end.

(** The [switch (page)] of [init]. *)
Definition init_switch (page : option string) : list PageCall :=
  if page_is page "feed" then
    [ Call_bindSearch; Call_bindCreatePostModal; Call_loadFeed ]
  else if page_is page "photo-detail" then
    [ Call_bindSearch; Call_bindCreatePostModal; Call_loadPhotoDetail ]
  else if page_is page "login" then [ Call_bindLoginForm ]
  else if page_is page "signup" then [ Call_bindSignupForm ]
  else if page_is page "creator-dashboard" then
    [ Call_bindSearch; Call_loadCreatorDashboard; Call_bindUploadForm;
      Call_bindCreatePostModal; Call_refreshFeeds ]
  else if page_is page "profile" then
    [ Call_bindSearch; Call_bindCreatePostModal; Call_loadProfilePage ]
  else [].

(** [init] after [await hydrateSession()]: the redirect it makes, if any,
    and the page functions it calls. *)
Definition init_after_hydrate (g : Global) (page : option string)
    : Global * list PageCall :=
  let token := getToken (localStorage g) in
  let go (href : string) : Global :=
    {| localStorage := localStorage g;
       currentUser := currentUser g;
       location_href := href |} in
  if negb (bool_decide (is_Some token))
     && negb (page_is page "login") && negb (page_is page "signup")
  then (go "login.html", [])
  else if bool_decide (is_Some token)
          && (page_is page "login" || page_is page "signup")
  then (go "index.html", [])
  else (g, init_switch page).

(** The submit handler of the login form from its [await fetch(...)] on:
    the session it leaves and the error it shows, if any. *)
Definition login_settle (g : Global) (r : Response) : Global * option Failure :=
  match r with
  | FetchRejected => (g, Some (PlatformError NetworkFailure))
  | HttpResponse status body =>
      if negb (res_ok status) then
        (g, Some (match body with
                  | Some payload =>
                      error_or (get_prop_opt (Some payload) "message")
                               "Invalid credentials"
                  | None => ErrorMessage "Invalid credentials"
                  end))
      else
        match body with
        | None => (g, Some (ErrorMessage "Unexpected response from server"))
        | Some data =>
            match get_prop (Some data) "token" with
            | inl e => (g, Some (PlatformError e))
            | inr token =>
                match setToken_js token (localStorage g) with
                | inl e => (g, Some (PlatformError e))
                | inr ls =>
                    let user := get_prop_opt (Some data) "user" in
                    match get_prop user "role" with
                    | inl e =>
                        (* [data.user.role] throws after the token is stored *)
                        ({| localStorage := ls;
                            currentUser := currentUser g;
                            location_href := location_href g |},
                         Some (PlatformError e))
                    | inr role =>
                        match store_user ls role (get_prop_opt user "name")
                                user with
                        | (ls, Some e) =>
                            (* a write threw: what was written stays *)
                            ({| localStorage := ls;
                                currentUser := currentUser g;
                                location_href := location_href g |},
                             Some (PlatformError e))
                        | (ls, None) =>
                            ({| localStorage := ls;
                                currentUser := user;
                                location_href := "index.html" |}, None)
                        end
                    end
                end
            end
        end
  end.


(** ** bindSearch, refreshFeeds and the request of loadFeed *)

(** [loadFeed(query, ...)]: the address it fetches, without the token. *)
Definition loadFeed_url `{Platform} (query : string) : string :=
  let qs := if String.eqb query "" then ""
            else "?q=" +:+ encodeURIComponent query in
  API_BASE +:+ "/photos" +:+ qs.

Module Search.

(** The search field and what its debounced handler can reach: the two
    feed containers the page may have, the page address, and the feeds
    loaded so far (container id and address fetched, oldest first). *)
Record State : Type := mkState {
  value : string;                     (* [input.value] *)
  debounceHandle : option nat;        (* [let debounceHandle] *)
  pending : list nat;                 (* ids of the pending timers *)
  next_id : nat;                      (* the id [setTimeout] gives next *)
  hasMainFeed : bool;                 (* [#photo-grid] exists *)
  hasDashboardFeed : bool;            (* [#dashboard-photo-grid] exists *)
  href : string;                      (* [window.location.href] *)
  loads : list (string * string)
}.

Inductive Event : Type :=
| Input (text : string)      (* the field now reads [text]; 'input' fires *)
| Timer (id : nat).          (* the pending timer [id] fires *)

(** [clearTimeout(debounceHandle)]: nothing happens for [undefined] or for
    an id that is not pending. *)
Definition cancel (handle : option nat) (l : list nat) : list nat :=
  match handle with
  | Some id => List.filter (fun i => negb (Nat.eqb i id)) l
  | None => l
  end.

Definition on_input (text : string) (s : State) : State :=
  {| value := text;
     debounceHandle := Some (next_id s);
     pending := cancel (debounceHandle s) (pending s) ++ [ next_id s ];
     next_id := S (next_id s);
     hasMainFeed := hasMainFeed s;
     hasDashboardFeed := hasDashboardFeed s;
     href := href s;
     loads := loads s |}.

(** [refreshFeeds(query)]: the feeds it loads. *)
Definition refreshFeeds `{Platform} (query : string) (s : State)
    : list (string * string) :=
  (if hasMainFeed s then [ ("photo-grid", loadFeed_url query) ] else [])
  ++ (if hasDashboardFeed s
      then [ ("dashboard-photo-grid", loadFeed_url query) ] else []).

(** The callback given to [setTimeout]. *)
Definition search_now `{Platform} (s : State) : State :=
  let v := trim (value s) in
  if negb (hasMainFeed s) && negb (hasDashboardFeed s) then
    {| value := value s;
       debounceHandle := debounceHandle s;
       pending := pending s;
       next_id := next_id s;
       hasMainFeed := hasMainFeed s;
       hasDashboardFeed := hasDashboardFeed s;
       href := if Nat.ltb 0 (js_length v)
               then "index.html?q=" +:+ encodeURIComponent v
               else "index.html";
       loads := loads s |}
  else
    {| value := value s;
       debounceHandle := debounceHandle s;
       pending := pending s;
       next_id := next_id s;
       hasMainFeed := hasMainFeed s;
       hasDashboardFeed := hasDashboardFeed s;
       href := href s;
       loads := loads s ++ refreshFeeds v s |}.

Definition on_timer `{Platform} (id : nat) (s : State) : State :=
  if existsb (Nat.eqb id) (pending s) then
    search_now
      {| value := value s;
         debounceHandle := debounceHandle s;
         pending := List.filter (fun i => negb (Nat.eqb i id)) (pending s);
         next_id := next_id s;
         hasMainFeed := hasMainFeed s;
         hasDashboardFeed := hasDashboardFeed s;
         href := href s;
         loads := loads s |}
  else s.

Definition step `{Platform} (s : State) (ev : Event) : State :=
  match ev with
  | Input text => on_input text s
  | Timer id => on_timer id s
  end.

Definition run `{Platform} (s : State) (evs : list Event) : State :=
  fold_left step evs s.

(** [bindSearch()] on a page with a search field reading [text]. *)
Definition init (text : string) (main dashboard : bool) (address : string)
    : State :=
  {| value := text;
     debounceHandle := None;
     pending := [];
     next_id := 1;
     hasMainFeed := main;
     hasDashboardFeed := dashboard;
     href := address;
     loads := [] |}.

End Search.


(** ** Markup of a photo card *)

(** One entry of the people list of a card: plain text, or a link to a
    profile.  [text] is what is interpolated between the tags. *)
Inductive PersonLink : Type :=
| LinkSpan (text : string)
| LinkAnchor (href : string) (text : string).

(** [person.userId || person.user?._id || person.user?.id] *)
Definition person_id_of (person : JsVal) : JsVal :=
  js_or (js_or (get_prop_opt person "userId")
               (get_prop_opt (get_prop_opt person "user") "_id"))
        (get_prop_opt (get_prop_opt person "user") "id").

(** [person.name || person.user?.name || 'Creator'] *)
Definition person_raw_name (person : JsVal) : JsVal :=
  js_or (js_or (get_prop_opt person "name")
               (get_prop_opt (get_prop_opt person "user") "name"))
        (Some (JStr "Creator")).

(** The [name] computed in [buildPeopleMarkup]: the raw name when it is a
    string, else its [toString()] when it has one, else 'Creator'.  A parsed
    object has the inherited [toString] unless a field of that name hides
    it; the [toString] of an array joins the texts of its elements and
    throws when one of them has none. *)
Definition person_name_of (person : JsVal) : Error + string :=
  let rawName := person_raw_name person in
  match rawName with
  | Some (JStr s) => inr s
  | Some (JObj fields) =>
      match assoc "toString" fields with
      | Some _ => inr "Creator"
      | None => inr "[object Object]"
      end
  | Some _ => if truthy rawName then to_text rawName else inr "Creator"
  | None => inr "Creator"
  end.

(** The callback of [map] in [buildPeopleMarkup]; [encodeURIComponent]
    takes the text of the id, and throws when it has none. *)
Definition person_link `{Platform} (person : Json) : Error + PersonLink :=
  let personId := person_id_of (Some person) in
  match person_name_of (Some person) with
  | inl e => inl e
  | inr name =>
      if negb (truthy personId)
      then inr (LinkSpan (template (escapeHtml (Some (JStr name)))))
      else
        match to_text personId with
        | inl e => inl e
        | inr id =>
            inr (LinkAnchor ("profile.html?id=" +:+ encodeURIComponent id)
                            (template (escapeHtml (Some (JStr name)))))
        end
  end.

(** The callback of [filter] in [buildPeopleMarkup]. *)
Definition person_has_id (person : Json) : bool :=
  truthy (Some person) && truthy (person_id_of (Some person)).

(** [buildPeopleMarkup(people)]: the links joined inside the
    [people-list] element; no link is the empty string. *)
Definition buildPeopleMarkup `{Platform} (people : JsVal)
    : Error + list PersonLink :=
  match people with
  | Some (JArr entries) => mapM person_link (List.filter person_has_id entries)
  | _ => inr []
  end.

(** [localStorage.getItem('photoshare_user_id')] *)
Definition stored_user_id (ls : Storage) : option string :=
  ls !! "photoshare_user_id".

(** [likes.includes(userId)], and [likes.some((id) => id === userId)]. *)
Definition likes_include (likes : list Json) (userId : string) : bool :=
  existsb (fun id => js_strict_eq (Some id) (Some (JStr userId))) likes.

(** [updateLikeState(photo)] on a page that has the like button and the
    counter: whether the button is marked liked, and the count shown. *)
Definition updateLikeState (ls : Storage) (photo : Json) : Error + (bool * nat) :=
  match get_prop (Some photo) "likes" with
  | inl e => inl e
  | inr likes_prop =>
      let likes := match likes_prop with
                   | Some (JArr l) => l
                   | _ => []
                   end in
      let liked :=
        match stored_user_id ls with
        | Some userId =>
            if String.eqb userId "" then false else likes_include likes userId
        | None => false
        end in
      inr (liked, length likes)
  end.

(** The [liked] flag of [renderPhotoCard], for a photo that is not [null]. *)
Definition card_liked (ls : Storage) (photo : Json) : bool :=
  str_truthy (stored_user_id ls)
  && match get_prop_opt (Some photo) "likes", stored_user_id ls with
     | Some (JArr l), Some userId => likes_include l userId
     | _, _ => false
     end.


(** ** updateNavigationVisibility *)

(** An element of the page as this function sees it: its [id], its
    [data-visible] and [data-role] attributes ([None]: no such attribute),
    and whether its class list holds 'hidden'. *)
Record NavElement : Type := mkNav {
  nav_id : option string;
  data_visible : option string;
  data_role : option string;
  nav_hidden : bool
}.

(** [el.classList.toggle('hidden', force)] *)
Definition toggle_hidden (force : bool) (e : NavElement) : NavElement :=
  {| nav_id := nav_id e;
     data_visible := data_visible e;
     data_role := data_role e;
     nav_hidden := force |}.

Definition attr_is (a : option string) (v : string) : bool :=
  match a with
  | Some x => String.eqb x v
  | None => false
  end.

(** [document.querySelectorAll(selector).forEach((el) => toggle)] for a
    selector on one attribute value. *)
Definition toggle_all (sel : NavElement → bool) (force : bool)
    (page : list NavElement) : list NavElement :=
  map (fun e => if sel e then toggle_hidden force e else e) page.

(** [const el = document.getElementById(id);
     if (el && !el.hasAttribute('data-visible')) toggle]: the first element
    with that id, in document order. *)
Fixpoint toggle_by_id (id : string) (force : bool) (page : list NavElement)
    : list NavElement :=
  match page with
  | [] => []
  | e :: rest =>
      if attr_is (nav_id e) id then
        match data_visible e with
        | Some _ => e
        | None => toggle_hidden force e
        end :: rest
      else e :: toggle_by_id id force rest
  end.

Definition updateNavigationVisibility (ls : Storage) (page : list NavElement)
    : list NavElement :=
  let role := getUserRole ls in
  let token := str_truthy (getToken ls) in
  let page := toggle_all (fun e => attr_is (data_visible e) "guest") token page in
  let page := toggle_all (fun e => attr_is (data_visible e) "auth")
                         (negb token) page in
  let page := toggle_all (fun e => attr_is (data_role e) "creator")
                         (negb (attr_is role "creator")) page in
  let page := toggle_by_id "login-link" token page in
  let page := toggle_by_id "signup-link" token page in
  toggle_by_id "logout-btn" (negb token) page.


(** ** Vocabulary of the properties *)

(** The entity of a character, read off the escaping rule: the five HTML
    specials have one, the others stay as they are. *)
Definition spec_entity (c : ascii) : string :=
  if Ascii.eqb c "&" then "&amp;"
  else if Ascii.eqb c "<" then "&lt;"
  else if Ascii.eqb c ">" then "&gt;"
  else if Ascii.eqb c dquote then "&quot;"
  else if Ascii.eqb c squote then "&#39;"
  else String c EmptyString.

Fixpoint spec_escape (s : string) : string :=
  match s with
  | EmptyString => EmptyString
  | String c s' => spec_entity c +:+ spec_escape s'
  end.

(** The character [c] occurs in [s]. *)
Fixpoint occurs (c : ascii) (s : string) : bool :=
  match s with
  | EmptyString => false
  | String c' s' => Ascii.eqb c c' || occurs c s'
  end.

(** An object or an array: a structured value. *)
Definition structured (v : Json) : bool :=
  match v with
  | JArr _ | JObj _ => true
  | _ => false
  end.

(** No two entries have ids that are the same string, number, boolean,
    [null] or [undefined].  (Ids that are objects or arrays are the same
    only as references; [===] never equates two of them here.) *)
Fixpoint ids_distinct (l : list Item) : bool :=
  match l with
  | [] => true
  | p :: l' =>
      forallb (fun q => negb (js_strict_eq (item_id p) (item_id q))) l'
      && ids_distinct l'
  end.

(** No entry has the id the filter of [fetchSuggestions] compares with,
    [currentUser?.id] ([None]: nobody is signed in and the filter compares
    with [undefined], which the selections are not checked against).  The
    id of a user is elsewhere [id || _id], see [user_id_of]. *)
Definition no_self (user : option Json) (l : list Item) : bool :=
  match user with
  | None => true
  | Some u =>
      forallb (fun p => negb (js_strict_eq (item_id p)
                                (get_prop_opt (Some u) "id"))) l
  end.

(** The fetch timers among the pending timers. *)
Definition fetch_timers (b : Browser) : list Timer :=
  List.filter is_fetch_timer (timers b).

(** The events that let every timer pending in [b] fire, oldest first. *)
Definition fire_all (b : Browser) : list Event :=
  map (fun t => EvTimer (timer_id t)) (timers b).



(** The list of suggestions is cleared. *)
Definition list_cleared (el : ListElement) (results : list Item) : Prop :=
  innerHTML el = [] ∧ hidden el = true ∧ results = [].

(** The queries the pending fetch timers will dispatch, oldest first. *)
Definition pending_queries (b : Browser) : list string :=
  flat_map (fun t => match timer_cb t with
                     | CbFetch value => [value]
                     | CbClear => []
                     end) (timers b).

(** The timer table as the browser keeps it, seen from a widget whose handle
    is [timeout]: ids are positive, fresh and pairwise different, and a
    pending fetch timer is the one the handle names. *)
Definition timers_ok (timeout : option nat) (b : Browser) : Prop :=
  0 < next_timer b
  ∧ Forall (fun t => 0 < timer_id t < next_timer b) (timers b)
  ∧ NoDup (map timer_id (timers b))
  ∧ Forall (fun t => is_fetch_timer t = true → timeout = Some (timer_id t))
           (timers b).

(** The invariant of the people selector, on the signed-in user, the
    selections and the suggestions on offer: the selections have distinct
    ids and none is the user's; no suggestion on offer has the id of a
    selection or of the user. *)
Definition selection_inv (user : option Json) (selected results : list Item)
    : Prop :=
  ids_distinct selected = true
  ∧ no_self user selected = true
  ∧ Forall (fun p =>
              Forall (fun q => js_strict_eq (item_id q) (item_id p) = false)
                     selected) results
  ∧ no_self user results = true.

Definition ppl_inv (s : People.State) : Prop :=
  selection_inv (currentUser (People.global s)) (People.selected s)
                (People.results s).

(** The answers on which [hydrateSession] gives up: the transport fails,
    the status is not a success, the body does not parse, or it parses to
    [null]. *)
Definition hydrate_failed (r : Response) : bool :=
  match r with
  | FetchRejected => true
  | HttpResponse status body =>
      negb (res_ok status)
      || match body with
         | None | Some JNull => true
         | Some _ => false
         end
  end.

(** The login and signup forms. *)
Definition is_auth_form (c : PageCall) : bool :=
  PageCall_eqb c Call_bindLoginForm || PageCall_eqb c Call_bindSignupForm.


(** The list element shows the suggestions on offer, row by row, and is
    hidden exactly when there are none. *)
Definition list_in_sync (el : ListElement) (results : list Item) : Prop :=
  innerHTML el = render_rows results
  ∧ hidden el = match results with [] => true | _ => false end.


(** The value is not a string. *)
Definition not_a_string (v : JsVal) : bool :=
  match v with
  | Some (JStr _) => false
  | _ => true
  end.

(** A setter of the session store accepts the value: it is falsy, and the
    key is removed, or it has a text to store. *)
Definition storable (v : JsVal) : bool :=
  negb (truthy v) || printable v.

(** The value is a string, [null] or [undefined]: what [escapeHtml] turns
    into an escaped string. *)
Definition escapable (v : JsVal) : bool :=
  match v with
  | None | Some JNull | Some (JStr _) => true
  | _ => false
  end.


(** The people selector shows its state: the list is in sync, and the chips
    are those of the selections whenever the chip template has a text for
    each of them. *)
Definition ppl_view_ok (s : People.State) : Prop :=
  list_in_sync (People.suggestionsEl s) (People.results s)
  ∧ (forallb chip_renders (People.selected s) = true →
     People.containerEl s = map render_chip (People.selected s)).


(** The search field on a page with these feeds has at most one timer
    pending, the one its handle names. *)
Definition search_inv (main dashboard : bool) (s : Search.State) : Prop :=
  Search.hasMainFeed s = main
  ∧ Search.hasDashboardFeed s = dashboard
  ∧ (Search.pending s = []
     ∨ ∃ id, Search.debounceHandle s = Some id ∧ Search.pending s = [ id ]).


Definition is_anchor (l : PersonLink) : bool :=
  match l with
  | LinkAnchor _ _ => true
  | LinkSpan _ => false
  end.

Definition link_text (l : PersonLink) : string :=
  match l with
  | LinkAnchor _ text => text
  | LinkSpan text => text
  end.

Definition link_href (l : PersonLink) : option string :=
  match l with
  | LinkAnchor href _ => Some href
  | LinkSpan _ => None
  end.

(** The callback of [map] in [buildPeopleMarkup] has a result for this
    entry: its name can be computed and its id has a text. *)
Definition link_renders (person : Json) : bool :=
  match person_name_of (Some person) with
  | inr _ => printable (person_id_of (Some person))
  | inl _ => false
  end.


(** The handle of a widget names no timer of a blur: it is an id already
    given out, and no pending [CbClear] timer has it. *)
Definition handle_fresh (timeout : option nat) (b : Browser) : Prop :=
  timers_ok timeout b
  ∧ (∀ id, timeout = Some id → id < next_timer b)
  ∧ Forall (fun t => is_fetch_timer t = false → timeout ≠ Some (timer_id t))
           (timers b).

(** The timer a blur starts when the next id is [id]. *)
Definition blur_timer (id : nat) : Timer :=
  {| timer_id := id; timer_delay := 150; timer_cb := CbClear |}.


(** An empty, hidden list with nothing on offer. *)
Definition cleared : ListElement * list Item := (mkListEl [] true, []).

(** What a list of suggestions shows for [items]: their rows, and nothing
    when there is no item or when a row has no text. *)
Definition shown (items : list Item) : ListElement * list Item :=
  match items with
  | [] => cleared
  | _ =>
      if forallb row_renders items
      then (mkListEl (render_rows items) false, items)
      else cleared
  end.

(** What the location autocomplete shows for the answer [r]: the places of
    a 2xx answer that parses to a list of records, and nothing for any
    other answer. *)
Definition loc_shown (r : Response) : ListElement * list Item :=
  match r with
  | HttpResponse status (Some data) =>
      if res_ok status then
        match as_array data with
        | inr elems =>
            match mapM Location.to_item elems with
            | inr items => shown items
            | inl _ => cleared
            end
        | inl _ => cleared
        end
      else cleared
  | _ => cleared
  end.

(** What the people selector shows for the answer [r] when [selected] is
    selected and [user] is signed in: the people of a 2xx answer that
    parses to a list of records, without those whose id is selected or is
    [user?.id], and nothing for any other answer. *)
Definition ppl_shown (selected : list Item) (user : option Json)
    (r : Response) : ListElement * list Item :=
  match r with
  | HttpResponse status (Some data) =>
      if res_ok status then
        match as_array data with
        | inr elems =>
            match filterM (People.keep_person (map item_id selected) user)
                          elems with
            | inr kept => shown (map People.to_item kept)
            | inl _ => cleared
            end
        | inl _ => cleared
        end
      else cleared
  | _ => cleared
  end.

(** No handler of the run [evs] from [s] ends with an exception. *)
Fixpoint ppl_all_normal `{Platform} (s : People.State) (evs : list Event)
    : Prop :=
  match evs with
  | [] => True
  | ev :: evs' =>
      (People.handle ev s).2 = inr tt ∧ ppl_all_normal (People.step s ev) evs'
  end.



(** ** Sample data *)

Definition sample_user : Json :=
  JObj [ ("id", JStr "u1"); ("name", JStr "Ann"); ("role", JStr "creator") ].

(** The store of a signed-in page: the login handler has written the four
    session keys. *)
Definition sample_store : Storage :=
  <["photoshare_token" := "tok"]>
    (<["photoshare_role" := "creator"]>
       (<["photoshare_name" := "Ann"]>
          (<["photoshare_user_id" := "u1"]> ∅))).

Definition sample_global : Global :=
  {| localStorage := sample_store;
     currentUser := Some sample_user;
     location_href := "index.html" |}.

Definition sample_photo : Json :=
  JObj [ ("title", JStr "Dawn"); ("people", JArr [JStr "u2"]) ].

Definition sample_options : Options :=
  {| opt_method := Some "POST";
     opt_cache := None;
     opt_headers := None;
     opt_body := BodyValue sample_photo |}.

(** A record of the geocoding service. *)
Definition place (id : Z) (name : string) : Json :=
  JObj [ ("place_id", JNum id); ("display_name", JStr name) ].

(** A record of the user search. *)
Definition person (id name : string) : Json :=
  JObj [ ("id", JStr id); ("name", JStr name) ].

Definition ok_json (data : Json) : Response := HttpResponse 200 (Some data).

Definition pa_places : list Json := [ place 1 "Pau, France"; place 2 "Padova" ].
Definition par_places : list Json := [ place 3 "Paris, France" ].

(** Two queries go out, "pa" then "par"; the answer to "par" arrives first,
    the answer to "pa" second. *)
Definition race_trace : list Event :=
  [ EvInput "pa"; EvTimer 1; EvInput "par"; EvTimer 2;
    EvResponse 1 (ok_json (JArr par_places));
    EvResponse 0 (ok_json (JArr pa_places)) ].

(** The state [race_trace] is in when both calls are in flight. *)
Definition two_in_flight : list Event :=
  [ EvInput "pa"; EvTimer 1; EvInput "par"; EvTimer 2 ].

(** A no-break space, U+00A0, in UTF-8. *)
Definition nbsp : string := String "194" (String "160" EmptyString).

(** A value with no text: an object with a field named [toString]. *)
Definition no_text : Json := JObj [ ("toString", JNum 1) ].


(** A record of the user search whose id has no text. *)
Definition person_id_no_text (name : string) : Json :=
  JObj [ ("id", no_text); ("name", JStr name) ].

(** A user whose id is carried in [_id]. *)
Definition user_underscore_id : Json :=
  JObj [ ("_id", JStr "u1"); ("name", JStr "Ann"); ("role", JStr "creator") ].

(** A person whose id is the number 7. *)
Definition person_numbered : Json :=
  JObj [ ("id", JNum 7); ("name", JStr "Seven") ].


(** * Properties *)

(** ** Strings *)


(** ** escapeHtml *)

Lemma replace_class_spec (s : string) :
  replace_class html_special escape_replacer s = spec_escape s.
Proof.
  induction s as [|c s IH]; simpl; [reflexivity|].
  rewrite IH. f_equal.
  unfold html_special, escape_replacer, spec_entity, htmlEscapeMap, char_lookup.
  destruct (Ascii.eqb c "&"); [reflexivity|].
  destruct (Ascii.eqb c "<"); [reflexivity|].
  destruct (Ascii.eqb c ">"); [reflexivity|].
  destruct (Ascii.eqb c dquote); [reflexivity|].
  destruct (Ascii.eqb c squote); reflexivity.
Qed.

Lemma occurs_app (c : ascii) (s t : string) :
  occurs c (s +:+ t) = occurs c s || occurs c t.
Proof.
  induction s as [|c' s IH]; simpl; [reflexivity|].
  rewrite IH. apply orb_assoc.
Qed.

(** The four characters that must not survive. *)
Definition markup_char (c : ascii) : bool :=
  Ascii.eqb c "<" || Ascii.eqb c ">" || Ascii.eqb c dquote || Ascii.eqb c squote.

Lemma spec_entity_clean (c d : ascii) :
  markup_char c = true → occurs c (spec_entity d) = false.
Proof.
  unfold markup_char. intros Hc.
  assert (Hcases : c = "<"%char ∨ c = ">"%char ∨ c = dquote ∨ c = squote).
  { repeat (apply orb_prop in Hc; destruct Hc as [Hc|Hc]);
      apply Ascii.eqb_eq in Hc; auto. }
  unfold spec_entity.
  destruct (Ascii.eqb d "&") eqn:E1; [destruct Hcases as [ -> | [ -> | [ -> | -> ] ] ]; reflexivity|].
  destruct (Ascii.eqb d "<") eqn:E2; [destruct Hcases as [ -> | [ -> | [ -> | -> ] ] ]; reflexivity|].
  destruct (Ascii.eqb d ">") eqn:E3; [destruct Hcases as [ -> | [ -> | [ -> | -> ] ] ]; reflexivity|].
  destruct (Ascii.eqb d dquote) eqn:E4; [destruct Hcases as [ -> | [ -> | [ -> | -> ] ] ]; reflexivity|].
  destruct (Ascii.eqb d squote) eqn:E5; [destruct Hcases as [ -> | [ -> | [ -> | -> ] ] ]; reflexivity|].
  simpl. rewrite orb_false_r.
  destruct Hcases as [ -> | [ -> | [ -> | -> ] ] ]; rewrite Ascii.eqb_sym; assumption.
Qed.

Lemma spec_escape_clean (c : ascii) (s : string) :
  markup_char c = true → occurs c (spec_escape s) = false.
Proof.
  intros Hc. induction s as [|d s IH]; simpl; [reflexivity|].
  rewrite occurs_app, IH, (spec_entity_clean c d Hc). reflexivity.
Qed.

(** C9.  On a string, [escapeHtml] replaces every occurrence of the five HTML
    specials by its entity and keeps the other characters, so that none of
    [<], [>], the double quote and the single quote occurs in the result; on
    [null] and [undefined] it returns the empty string; any other value that
    is not a string is returned unchanged. *)
Theorem escapeHtml_spec :
  (∀ s : string,
      escapeHtml (Some (JStr s)) = Some (JStr (spec_escape s))
      ∧ occurs "<" (spec_escape s) = false
      ∧ occurs ">" (spec_escape s) = false
      ∧ occurs dquote (spec_escape s) = false
      ∧ occurs squote (spec_escape s) = false)
  ∧ escapeHtml (Some JNull) = Some (JStr "")
  ∧ escapeHtml undefined = Some (JStr "")
  ∧ (∀ b, escapeHtml (Some (JBool b)) = Some (JBool b))
  ∧ (∀ n, escapeHtml (Some (JNum n)) = Some (JNum n))
  ∧ (∀ l, escapeHtml (Some (JArr l)) = Some (JArr l))
  ∧ (∀ fs, escapeHtml (Some (JObj fs)) = Some (JObj fs)).
Proof.
  split; [|repeat split; reflexivity].
  intros s. split.
  - simpl. now rewrite replace_class_spec.
  - repeat split; apply spec_escape_clean; reflexivity.
Qed.

(** ** Session store *)

Lemma getItem_set_or_remove (k v : string) (ls : Storage) :
  v ≠ "" → getItem_or_null k (set_or_remove k (Some v) ls) = Some v.
Proof.
  intros Hv. unfold getItem_or_null, set_or_remove.
  destruct (String.eqb v "") eqn:E; [apply String.eqb_eq in E; contradiction|].
  rewrite lookup_insert_eq, E. reflexivity.
Qed.

Lemma getItem_set_or_remove_None (k : string) (ls : Storage) :
  getItem_or_null k (set_or_remove k None ls) = None.
Proof. unfold getItem_or_null, set_or_remove. now rewrite lookup_delete_eq. Qed.

Lemma getItem_absent (k : string) (ls : Storage) :
  ls !! k = None → getItem_or_null k ls = None.
Proof. unfold getItem_or_null. now intros ->. Qed.

(** C10.  The token store round-trips: a non-empty token written by
    [setToken] is read back by [getToken]; after [setToken(null)], and on a
    store that holds no token, [getToken] returns [null]. *)
Theorem token_roundtrip (ls ls0 : Storage) (t : string) :
  t ≠ "" →
  ls0 !! "photoshare_token" = None →
  getToken (setToken (Some t) ls) = Some t
  ∧ getToken (setToken None ls) = None
  ∧ getToken ls0 = None.
Proof.
  intros Ht Habs. unfold getToken, setToken. repeat split.
  - now apply getItem_set_or_remove.
  - apply getItem_set_or_remove_None.
  - now apply getItem_absent.
Qed.

Lemma token_roundtrip_witness :
  getToken (setToken (Some "abc") {[ "photoshare_role" := "creator" ]}) = Some "abc"
  ∧ getToken (setToken None {[ "photoshare_role" := "creator" ]}) = None
  ∧ getToken (∅ : Storage) = None.
Proof.
  apply (token_roundtrip {[ "photoshare_role" := "creator" ]} ∅ "abc").
  - discriminate.
  - reflexivity.
Defined.

Lemma getToken_Some (ls : Storage) (t : string) :
  getToken ls = Some t ↔ ls !! "photoshare_token" = Some t ∧ t ≠ "".
Proof.
  unfold getToken, getItem_or_null.
  destruct (ls !! "photoshare_token") as [v|]; [|split; [discriminate|intros [? _]; discriminate]].
  destruct (String.eqb v "") eqn:E.
  - apply String.eqb_eq in E. subst v. split; [discriminate|].
    intros [[= <-] Hne]. contradiction.
  - apply String.eqb_neq in E. split.
    + intros [= <-]. auto.
    + intros [[= <-] _]. reflexivity.
Qed.

(** ** fetchWithAuth *)

(** C8.  The request [fetchWithAuth] hands to [fetch]: its target is the
    base address followed by the path; a structured body that is not
    multipart is replaced by its JSON text and the content type is JSON;
    a stored token is sent as [Authorization: Bearer <token>]. *)
Theorem fetchWithAuth_request_spec `{Platform} (ls : Storage) (path : string)
    (o : Options) :
  let req := fetchWithAuth_request ls path o in
  req_url req = API_BASE +:+ path
  ∧ (∀ v, opt_body o = BodyValue v → structured v = true →
       req_body req = BodyValue (JStr (JSON_stringify v))
       ∧ headers_get "Content-Type" (req_headers req) = Some "application/json")
  ∧ (∀ t, getToken ls = Some t →
       headers_get "Authorization" (req_headers req) = Some ("Bearer " +:+ t)).
Proof.
  cbv zeta. unfold fetchWithAuth_request. split; [|split].
  - destruct (negb (is_FormData (opt_body o))); reflexivity.
  - intros v Hv Hs. rewrite Hv.
    destruct v; try discriminate Hs; simpl;
      (split; [reflexivity|]);
      unfold headers_get, headers_set;
      (destruct (getToken ls);
       [rewrite lookup_insert_ne by (vm_compute; discriminate)|];
       apply lookup_insert_eq).
  - intros t Ht. rewrite Ht.
    destruct (negb (is_FormData (opt_body o))); simpl;
      unfold headers_get, headers_set; apply lookup_insert_eq.
Qed.

Lemma fetchWithAuth_request_spec_witness :
  let req := @fetchWithAuth_request test_platform sample_store "/photos"
               sample_options in
  req_url req = DEFAULT_API_BASE +:+ "/photos"
  ∧ req_body req = BodyValue (JStr ("json:" +:+ js_to_string sample_photo))
  ∧ headers_get "Content-Type" (req_headers req) = Some "application/json"
  ∧ headers_get "Authorization" (req_headers req) = Some "Bearer tok".
Proof.
  cbv zeta.
  destruct (@fetchWithAuth_request_spec test_platform sample_store "/photos"
              sample_options) as (Hurl & Hbody & Hauth).
  destruct (Hbody sample_photo) as [Hb Hct]; [reflexivity|reflexivity|].
  split; [exact Hurl|]. split; [exact Hb|]. split; [exact Hct|].
  apply (Hauth "tok"). reflexivity.
Defined.

Lemma logout_spec (g : Global) :
  let g' := logout g in
  localStorage g' !! "photoshare_token" = None
  ∧ localStorage g' !! "photoshare_role" = None
  ∧ localStorage g' !! "photoshare_name" = None
  ∧ localStorage g' !! "photoshare_user_id"
    = localStorage g !! "photoshare_user_id"
  ∧ currentUser g' = None
  ∧ location_href g' = "login.html".
Proof.
  cbv zeta. unfold logout, setToken, setUserRole, setUserName, set_or_remove.
  simpl. repeat split.
  - rewrite !lookup_delete_ne by discriminate. apply lookup_delete_eq.
  - rewrite lookup_delete_ne by discriminate. apply lookup_delete_eq.
  - apply lookup_delete_eq.
  - now rewrite !lookup_delete_ne by discriminate.
Qed.

(** On a 401 the wrapper signs out, sends the browser to the login page and
    rejects; of the four session keys it removes three. *)
Lemma fetchWithAuth_401 (g : Global) (body : option Json) :
  let '(g', res) := fetchWithAuth_settle g (HttpResponse 401 body) in
  res = inl Unauthorized
  ∧ currentUser g' = None
  ∧ location_href g' = "login.html"
  ∧ localStorage g' !! "photoshare_token" = None
  ∧ localStorage g' !! "photoshare_role" = None
  ∧ localStorage g' !! "photoshare_name" = None
  ∧ localStorage g' !! "photoshare_user_id"
    = localStorage g !! "photoshare_user_id".
Proof.
  simpl. destruct (logout_spec g) as (Ht & Hr & Hn & Hu & Hc & Hh).
  repeat split; assumption.
Qed.

(** C3.  On the store of a signed-in page, a 401 answer makes the wrapper
    reject, forget the current user, go to the login page and remove the
    token, the role and the name; the fourth session key, the user id,
    is still in the store afterwards. *)
Theorem unauthorized_keeps_user_id :
  let '(g', res) := fetchWithAuth_settle sample_global (HttpResponse 401 None) in
  res = inl Unauthorized
  ∧ currentUser g' = None
  ∧ location_href g' = "login.html"
  ∧ localStorage g' !! "photoshare_token" = None
  ∧ localStorage g' !! "photoshare_role" = None
  ∧ localStorage g' !! "photoshare_name" = None
  ∧ localStorage g' !! "photoshare_user_id" = Some "u1".
Proof.
  pose proof (fetchWithAuth_401 sample_global None) as H.
  destruct (fetchWithAuth_settle sample_global (HttpResponse 401 None)) as [g' res].
  destruct H as (H1 & H2 & H3 & H4 & H5 & H6 & H7).
  refine (conj H1 (conj H2 (conj H3 (conj H4 (conj H5 (conj H6 _)))))).
  rewrite H7. reflexivity.
Qed.

(** ** The timer table *)

Lemma timers_ok_browser0 (timeout : option nat) : timers_ok timeout browser0.
Proof.
  unfold timers_ok, browser0. simpl.
  repeat split; [lia|constructor|constructor|constructor].
Qed.

Lemma NoDup_map_filter {A B} (f : A → B) (P : A → Prop)
    `{∀ x, Decision (P x)} (l : list A) :
  NoDup (map f l) → NoDup (map f (filter P l)).
Proof.
  induction l as [|x l IH]; simpl; [constructor|].
  intros Hnd. apply NoDup_cons in Hnd as [Hx Hnd].
  rewrite filter_cons. destruct (decide (P x)); [|auto].
  simpl. apply NoDup_cons. split; [|auto].
  intros Hin. apply Hx.
  apply list_elem_of_fmap in Hin as (y & Hy & Hyin).
  apply list_elem_of_fmap. exists y. split; [exact Hy|].
  apply list_elem_of_filter in Hyin. tauto.
Qed.

Lemma filter_none {A} (f : A → bool) (l : list A) :
  (∀ x, x ∈ l → f x = false) → List.filter f l = [].
Proof.
  induction l as [|x l IH]; simpl; [reflexivity|].
  intros H. rewrite (H x) by apply list_elem_of_here.
  apply IH. intros y Hy. apply H. now apply list_elem_of_further.
Qed.

Lemma filter_all {A} (P : A → Prop) `{∀ x, Decision (P x)} (l : list A) :
  Forall P l → filter P l = l.
Proof.
  induction 1 as [|x l Hx Hl IH]; [reflexivity|].
  rewrite filter_cons. destruct (decide (P x)); [|contradiction].
  now rewrite IH.
Qed.

Lemma timers_ok_clearTimeout (timeout : option nat) (id : nat) (b : Browser) :
  timers_ok timeout b → timers_ok timeout (clearTimeout id b).
Proof.
  intros (Hn & Hr & Hnd & Hf). unfold timers_ok, clearTimeout. simpl.
  repeat split.
  - exact Hn.
  - apply Forall_forall. intros t Ht. apply list_elem_of_filter in Ht as [_ Ht].
    rewrite Forall_forall in Hr. now apply Hr.
  - now apply NoDup_map_filter.
  - apply Forall_forall. intros t Ht. apply list_elem_of_filter in Ht as [_ Ht].
    rewrite Forall_forall in Hf. now apply Hf.
Qed.

(** After [if (timeout) clearTimeout(timeout)] no fetch timer is pending,
    so the table is consistent with any handle. *)
Lemma timers_ok_clear_if_set (timeout timeout' : option nat) (b : Browser) :
  timers_ok timeout b →
  timers_ok timeout' (clear_if_set timeout b)
  ∧ fetch_timers (clear_if_set timeout b) = [].
Proof.
  intros Hok.
  assert (Hnone : ∀ t, t ∈ timers (clear_if_set timeout b) →
                       is_fetch_timer t = false).
  { intros t Ht. destruct (is_fetch_timer t) eqn:E; [|reflexivity].
    exfalso. destruct Hok as (Hn & Hr & Hnd & Hf).
    rewrite Forall_forall in Hf, Hr.
    unfold clear_if_set in Ht. destruct timeout as [id|].
    - destruct (Nat.eqb id 0) eqn:E0.
      + apply Nat.eqb_eq in E0. subst id.
        specialize (Hf t Ht E). injection Hf as Hf.
        specialize (Hr t Ht). lia.
      + simpl in Ht. apply list_elem_of_filter in Ht as [Hne Ht].
        specialize (Hf t Ht E). injection Hf as Hf. congruence.
    - specialize (Hf t Ht E). discriminate. }
  assert (Hok' : timers_ok timeout (clear_if_set timeout b)).
  { unfold clear_if_set. destruct timeout as [id|]; [|exact Hok].
    destruct (Nat.eqb id 0); [exact Hok|]. now apply timers_ok_clearTimeout. }
  split.
  - destruct Hok' as (Hn & Hr & Hnd & _). repeat split; try assumption.
    apply Forall_forall. intros t Ht E. rewrite (Hnone t Ht) in E. discriminate.
  - unfold fetch_timers. now apply filter_none.
Qed.

Lemma timers_ok_setTimeout_fetch (timeout : option nat) (value : string)
    (delay : nat) (b : Browser) :
  timers_ok timeout b → fetch_timers b = [] →
  timers_ok (Some (setTimeout (CbFetch value) delay b).1)
            (setTimeout (CbFetch value) delay b).2.
Proof.
  intros (Hn & Hr & Hnd & Hf) Hnone. unfold timers_ok, setTimeout. simpl.
  rewrite Forall_forall in Hr.
  repeat split.
  - lia.
  - apply Forall_app. split.
    + apply Forall_forall. intros t Ht. specialize (Hr t Ht). lia.
    + constructor; [simpl; lia|constructor].
  - rewrite map_app. simpl. apply NoDup_app. repeat split.
    + exact Hnd.
    + intros x Hx Hx'. apply list_elem_of_fmap in Hx as (t & -> & Ht).
      apply list_elem_of_singleton in Hx'. specialize (Hr t Ht). lia.
    + apply NoDup_singleton.
  - apply Forall_app. split.
    + apply Forall_forall. intros t Ht E. exfalso.
      unfold fetch_timers in Hnone.
      assert (Hin : In t (List.filter is_fetch_timer (timers b))).
      { apply List.filter_In. split; [now apply list_elem_of_In|exact E]. }
      rewrite Hnone in Hin. destruct Hin.
    + constructor; [reflexivity|constructor].
Qed.

Lemma timers_ok_setTimeout_clear (timeout : option nat) (delay : nat)
    (b : Browser) :
  timers_ok timeout b → timers_ok timeout (setTimeout CbClear delay b).2.
Proof.
  intros (Hn & Hr & Hnd & Hf). unfold timers_ok, setTimeout. simpl.
  rewrite Forall_forall in Hr.
  repeat split.
  - lia.
  - apply Forall_app. split.
    + apply Forall_forall. intros t Ht. specialize (Hr t Ht). lia.
    + constructor; [simpl; lia|constructor].
  - rewrite map_app. simpl. apply NoDup_app. repeat split.
    + exact Hnd.
    + intros x Hx Hx'. apply list_elem_of_fmap in Hx as (t & -> & Ht).
      apply list_elem_of_singleton in Hx'. specialize (Hr t Ht). lia.
    + apply NoDup_singleton.
  - apply Forall_app. split; [exact Hf|].
    constructor; [discriminate|constructor].
Qed.

Lemma timers_ok_push_call (timeout : option nat) (q : string) (req : Request)
    (b : Browser) :
  timers_ok timeout b → timers_ok timeout (push_call q req b).
Proof. intros H. exact H. Qed.

Lemma timers_ok_mark_settled (timeout : option nat) (k : nat) (b : Browser) :
  timers_ok timeout b → timers_ok timeout (mark_settled k b).
Proof. intros H. exact H. Qed.

Lemma fetch_timers_nil_pending (b : Browser) :
  fetch_timers b = [] → pending_queries b = [].
Proof.
  unfold fetch_timers, pending_queries.
  induction (timers b) as [|t ts IH]; simpl; [reflexivity|].
  unfold is_fetch_timer at 1. destruct (timer_cb t); [discriminate|].
  exact IH.
Qed.

Lemma pending_queries_setTimeout_fetch (value : string) (delay : nat)
    (b : Browser) :
  pending_queries (setTimeout (CbFetch value) delay b).2
  = pending_queries b ++ [value].
Proof.
  unfold pending_queries, setTimeout. simpl.
  rewrite flat_map_app. reflexivity.
Qed.

(** ** Location autocomplete: frame and timer invariant *)

Ltac unfold_monad :=
  unfold bind, modify, get, ret, lift, throw, try_catch in *.

(** Settling a network call ends normally, whatever the answer, and
    replaces the list and [results] by what the answer shows. *)
Lemma loc_settled_shape (r : Response) (s : Location.State) :
  Location.fetchSuggestions_settled r s
  = (Location.set_results (loc_shown r).2
       (Location.set_suggestionsEl (loc_shown r).1 s), inr tt).
Proof.
  unfold Location.fetchSuggestions_settled, Location.fetchSuggestions_try,
    Location.renderSuggestions, Location.clearSuggestions, loc_shown, shown,
    cleared.
  unfold_monad.
  destruct r as [|status body]; simpl; [reflexivity|].
  destruct (res_ok status); simpl; [|destruct body; reflexivity].
  destruct body as [data|]; simpl; [|reflexivity].
  destruct (as_array data) as [e|elems]; simpl; [reflexivity|].
  destruct (mapM Location.to_item elems) as [e|items]; simpl; [reflexivity|].
  destruct items as [|item items]; simpl; [reflexivity|].
  destruct (row_renders item && forallb row_renders items); reflexivity.
Qed.

(** Settling a network call touches the list and [results] only. *)
Lemma loc_settled_frame (r : Response) (s : Location.State) :
  let s' := (Location.fetchSuggestions_settled r s).1 in
  Location.browser s' = Location.browser s
  ∧ Location.timeout s' = Location.timeout s
  ∧ Location.inputEl s' = Location.inputEl s
  ∧ Location.selectedValue s' = Location.selectedValue s.
Proof. cbv zeta. rewrite loc_settled_shape. simpl. auto. Qed.

Lemma loc_step_timers_ok `{Platform} (s : Location.State) (ev : Event) :
  timers_ok (Location.timeout s) (Location.browser s) →
  timers_ok (Location.timeout (Location.step s ev))
            (Location.browser (Location.step s ev)).
Proof.
  intros Hok. unfold Location.step, Location.handle.
  destruct ev as [text|id|k r|target|target| |].
  - unfold Location.on_input, Location.clearSuggestions. unfold_monad. simpl.
    destruct (timers_ok_clear_if_set (Location.timeout s) (Location.timeout s)
                (Location.browser s) Hok) as [Hok' Hnone].
    destruct (Nat.ltb _ 2); simpl; [exact Hok'|].
    exact (timers_ok_setTimeout_fetch (Location.timeout s) _ _ _ Hok' Hnone).
  - unfold Location.on_timer, Location.run_callback, Location.fetchSuggestions,
      Location.clearSuggestions. unfold_monad. simpl.
    destruct (find_timer id (Location.browser s)) as [t|]; simpl; [|exact Hok].
    destruct (timer_cb t); simpl; now apply timers_ok_clearTimeout.
  - unfold Location.on_response. unfold_monad. simpl.
    destruct (in_flight k (Location.browser s)); simpl; [|exact Hok].
    match goal with
    | |- context [Location.fetchSuggestions_settled r ?s0] =>
        destruct (loc_settled_frame r s0) as (Hb & Ht & _)
    end.
    rewrite Hb, Ht. simpl. exact Hok.
  - unfold Location.on_mousedown, Location.clearSuggestions. unfold_monad.
    destruct target as [index|]; simpl; [|exact Hok].
    destruct (Location.results s !! index) as [x|]; simpl; [|exact Hok].
    destruct (printable (item_name x)); simpl; exact Hok.
  - simpl. exact Hok.
  - unfold Location.on_blur. unfold_monad. simpl.
    now apply timers_ok_setTimeout_clear.
  - simpl. exact Hok.
Qed.

Lemma loc_run_app `{Platform} (s : Location.State) (evs evs' : list Event) :
  Location.run s (evs ++ evs') = Location.run (Location.run s evs) evs'.
Proof. unfold Location.run. apply fold_left_app. Qed.

Lemma loc_run_timers_ok `{Platform} (s : Location.State) (evs : list Event) :
  timers_ok (Location.timeout s) (Location.browser s) →
  timers_ok (Location.timeout (Location.run s evs))
            (Location.browser (Location.run s evs)).
Proof.
  revert s. induction evs as [|ev evs IH]; intros s Hok; [exact Hok|].
  simpl. apply IH. now apply loc_step_timers_ok.
Qed.

Lemma loc_reachable_timers_ok `{Platform} (evs : list Event) :
  timers_ok (Location.timeout (Location.run Location.init evs))
            (Location.browser (Location.run Location.init evs)).
Proof. apply loc_run_timers_ok. apply timers_ok_browser0. Qed.

(** What one 'input' event does. *)
Lemma loc_input_effect `{Platform} (s : Location.State) (text : string) :
  timers_ok (Location.timeout s) (Location.browser s) →
  let s' := Location.step s (EvInput text) in
  calls (Location.browser s') = calls (Location.browser s)
  ∧ if Nat.ltb (js_length (trim text)) 2
    then list_cleared (Location.suggestionsEl s') (Location.results s')
         ∧ fetch_timers (Location.browser s') = []
    else pending_queries (Location.browser s') = [trim text].
Proof.
  intros Hok. cbv zeta.
  unfold Location.step, Location.handle, Location.on_input,
    Location.clearSuggestions. unfold_monad. simpl.
  destruct (timers_ok_clear_if_set (Location.timeout s) (Location.timeout s)
              (Location.browser s) Hok) as [Hok' Hnone].
  assert (Hcalls : calls (clear_if_set (Location.timeout s) (Location.browser s))
                   = calls (Location.browser s)).
  { unfold clear_if_set. destruct (Location.timeout s) as [id|]; [|reflexivity].
    destruct (Nat.eqb id 0); reflexivity. }
  destruct (Nat.ltb _ 2); simpl.
  - split; [exact Hcalls|]. split; [|exact Hnone].
    unfold list_cleared. auto.
  - split; [exact Hcalls|].
    pose proof (pending_queries_setTimeout_fetch (trim text) 250
                  (clear_if_set (Location.timeout s) (Location.browser s))) as Hp.
    rewrite (fetch_timers_nil_pending _ Hnone) in Hp. exact Hp.
Qed.

(** Letting every pending timer fire dispatches the pending queries, in
    order, and nothing else. *)
Lemma loc_fire_all `{Platform} (ts : list Timer) (s : Location.State) :
  timers (Location.browser s) = ts →
  NoDup (map timer_id ts) →
  dispatched (Location.browser
                (Location.run s (map (fun t => EvTimer (timer_id t)) ts)))
  = dispatched (Location.browser s) ++ pending_queries (Location.browser s).
Proof.
  revert s. induction ts as [|t ts IH]; intros s Hts Hnd.
  - simpl. unfold pending_queries. rewrite Hts. simpl. now rewrite app_nil_r.
  - simpl. apply NoDup_cons in Hnd as [Ht Hnd].
    assert (Hfind : find_timer (timer_id t) (Location.browser s) = Some t).
    { unfold find_timer. rewrite Hts. simpl. now rewrite Nat.eqb_refl. }
    assert (Hrest : filter (fun t' => timer_id t' ≠ timer_id t) (t :: ts) = ts).
    { rewrite filter_cons. destruct (decide (timer_id t ≠ timer_id t)) as [Hne|_];
        [contradiction|].
      apply filter_all. apply Forall_forall. intros t' Ht' Heq. apply Ht.
      apply list_elem_of_fmap. exists t'. split; [congruence|exact Ht']. }
    set (s1 := Location.step s (EvTimer (timer_id t))).
    assert (Hs1 : timers (Location.browser s1) = ts
                  ∧ dispatched (Location.browser s1)
                    = dispatched (Location.browser s)
                      ++ match timer_cb t with
                         | CbFetch value => [value]
                         | CbClear => []
                         end).
    { unfold s1, Location.step, Location.handle, Location.on_timer,
        Location.run_callback, Location.fetchSuggestions,
        Location.clearSuggestions. unfold_monad. simpl.
      rewrite Hfind. simpl.
      destruct (timer_cb t); simpl; rewrite Hts, Hrest; (split; [reflexivity|]);
        unfold dispatched; simpl.
      - now rewrite map_app.
      - now rewrite app_nil_r. }
    destruct Hs1 as [Hts1 Hd1].
    rewrite (IH s1 Hts1 Hnd), Hd1.
    unfold pending_queries at 2. rewrite Hts. simpl.
    unfold pending_queries. rewrite Hts1. now rewrite app_assoc.
Qed.

(** ** People selector: frame and timer invariant *)

Lemma res_ok_not_401 (status : nat) :
  res_ok status = true → Nat.eqb status 401 = false.
Proof.
  unfold res_ok. intros Hok. apply andb_prop in Hok as [_ H2].
  apply Nat.leb_le in H2. apply Nat.eqb_neq. lia.
Qed.

(** Settling a network call ends normally, whatever the answer; it replaces
    the list and [results] by what the answer shows, and the session by the
    one [fetchWithAuth] leaves. *)
Lemma ppl_settled_shape (r : Response) (s : People.State) :
  People.fetchSuggestions_settled r s
  = (let sh := ppl_shown (People.selected s)
                         (currentUser (People.global s)) r in
     People.set_results sh.2
       (People.set_suggestionsEl sh.1
          (People.set_global (fetchWithAuth_settle (People.global s) r).1 s)),
     inr tt).
Proof.
  cbv zeta.
  unfold People.fetchSuggestions_settled, People.fetchSuggestions_try,
    People.await_fetchWithAuth, People.renderSuggestions,
    People.clearSuggestions, fetchWithAuth_settle, ppl_shown, shown, cleared.
  unfold_monad.
  destruct r as [|status body]; simpl; [reflexivity|].
  destruct (Nat.eqb status 401) eqn:H401; simpl.
  { apply Nat.eqb_eq in H401. subst status. simpl.
    destruct body; reflexivity. }
  destruct (res_ok status); simpl; [|destruct body; reflexivity].
  destruct body as [data|]; simpl; [|reflexivity].
  destruct (as_array data) as [e|elems]; simpl; [reflexivity|].
  destruct (filterM _ elems) as [e|kept]; simpl; [reflexivity|].
  destruct (map People.to_item kept) as [|item items]; simpl; [reflexivity|].
  destruct (row_renders item && forallb row_renders items); reflexivity.
Qed.

(** Settling a network call touches the list, [results] and, on a 401, the
    session. *)
Lemma ppl_settled_frame (r : Response) (s : People.State) :
  let s' := (People.fetchSuggestions_settled r s).1 in
  People.browser s' = People.browser s
  ∧ People.timeout s' = People.timeout s
  ∧ People.inputEl s' = People.inputEl s
  ∧ People.selected s' = People.selected s
  ∧ People.containerEl s' = People.containerEl s.
Proof. cbv zeta. rewrite ppl_settled_shape. simpl. auto 10. Qed.

Lemma ppl_step_timers_ok `{Platform} (s : People.State) (ev : Event) :
  timers_ok (People.timeout s) (People.browser s) →
  timers_ok (People.timeout (People.step s ev))
            (People.browser (People.step s ev)).
Proof.
  intros Hok. unfold People.step, People.handle.
  destruct ev as [text|id|k r|target|target| |].
  - unfold People.on_input, People.clearSuggestions. unfold_monad. simpl.
    destruct (timers_ok_clear_if_set (People.timeout s) (People.timeout s)
                (People.browser s) Hok) as [Hok' Hnone].
    destruct (Nat.ltb _ 2); simpl; [exact Hok'|].
    exact (timers_ok_setTimeout_fetch (People.timeout s) _ _ _ Hok' Hnone).
  - unfold People.on_timer, People.run_callback, People.fetchSuggestions,
      People.clearSuggestions. unfold_monad. simpl.
    destruct (find_timer id (People.browser s)) as [t|]; simpl; [|exact Hok].
    destruct (timer_cb t); simpl; now apply timers_ok_clearTimeout.
  - unfold People.on_response. unfold_monad. simpl.
    destruct (in_flight k (People.browser s)); simpl; [|exact Hok].
    match goal with
    | |- context [People.fetchSuggestions_settled r ?s0] =>
        destruct (ppl_settled_frame r s0) as (Hb & Ht & _)
    end.
    rewrite Hb, Ht. simpl. exact Hok.
  - unfold People.on_mousedown, People.renderSelected, People.clearSuggestions.
    unfold_monad.
    destruct target as [index|]; simpl; [|exact Hok].
    destruct (People.results s !! index); simpl; [|exact Hok].
    destruct (People.selected s ++ [_]); simpl; [exact Hok|].
    destruct (_ && _); simpl; exact Hok.
  - unfold People.on_remove_click, People.renderSelected. unfold_monad.
    destruct target as [id|]; simpl; [|exact Hok].
    destruct (List.filter _ (People.selected s)); simpl; [exact Hok|].
    destruct (_ && _); simpl; exact Hok.
  - unfold People.on_blur. unfold_monad. simpl.
    now apply timers_ok_setTimeout_clear.
  - simpl. exact Hok.
Qed.

Lemma ppl_run_app `{Platform} (s : People.State) (evs evs' : list Event) :
  People.run s (evs ++ evs') = People.run (People.run s evs) evs'.
Proof. unfold People.run. apply fold_left_app. Qed.

Lemma ppl_run_timers_ok `{Platform} (s : People.State) (evs : list Event) :
  timers_ok (People.timeout s) (People.browser s) →
  timers_ok (People.timeout (People.run s evs))
            (People.browser (People.run s evs)).
Proof.
  revert s. induction evs as [|ev evs IH]; intros s Hok; [exact Hok|].
  simpl. apply IH. now apply ppl_step_timers_ok.
Qed.

Lemma ppl_reachable_timers_ok `{Platform} (g : Global) (evs : list Event) :
  timers_ok (People.timeout (People.run (People.init g) evs))
            (People.browser (People.run (People.init g) evs)).
Proof. apply ppl_run_timers_ok. apply timers_ok_browser0. Qed.

Lemma ppl_input_effect `{Platform} (s : People.State) (text : string) :
  timers_ok (People.timeout s) (People.browser s) →
  let s' := People.step s (EvInput text) in
  calls (People.browser s') = calls (People.browser s)
  ∧ if Nat.ltb (js_length (trim text)) 2
    then list_cleared (People.suggestionsEl s') (People.results s')
         ∧ fetch_timers (People.browser s') = []
    else pending_queries (People.browser s') = [trim text].
Proof.
  intros Hok. cbv zeta.
  unfold People.step, People.handle, People.on_input,
    People.clearSuggestions. unfold_monad. simpl.
  destruct (timers_ok_clear_if_set (People.timeout s) (People.timeout s)
              (People.browser s) Hok) as [Hok' Hnone].
  assert (Hcalls : calls (clear_if_set (People.timeout s) (People.browser s))
                   = calls (People.browser s)).
  { unfold clear_if_set. destruct (People.timeout s) as [id|]; [|reflexivity].
    destruct (Nat.eqb id 0); reflexivity. }
  destruct (Nat.ltb _ 2); simpl.
  - split; [exact Hcalls|]. split; [|exact Hnone].
    unfold list_cleared. auto.
  - split; [exact Hcalls|].
    pose proof (pending_queries_setTimeout_fetch (trim text) 200
                  (clear_if_set (People.timeout s) (People.browser s))) as Hp.
    rewrite (fetch_timers_nil_pending _ Hnone) in Hp. exact Hp.
Qed.

Lemma ppl_fire_all `{Platform} (ts : list Timer) (s : People.State) :
  timers (People.browser s) = ts →
  NoDup (map timer_id ts) →
  dispatched (People.browser
                (People.run s (map (fun t => EvTimer (timer_id t)) ts)))
  = dispatched (People.browser s) ++ pending_queries (People.browser s).
Proof.
  revert s. induction ts as [|t ts IH]; intros s Hts Hnd.
  - simpl. unfold pending_queries. rewrite Hts. simpl. now rewrite app_nil_r.
  - simpl. apply NoDup_cons in Hnd as [Ht Hnd].
    assert (Hfind : find_timer (timer_id t) (People.browser s) = Some t).
    { unfold find_timer. rewrite Hts. simpl. now rewrite Nat.eqb_refl. }
    assert (Hrest : filter (fun t' => timer_id t' ≠ timer_id t) (t :: ts) = ts).
    { rewrite filter_cons. destruct (decide (timer_id t ≠ timer_id t)) as [Hne|_];
        [contradiction|].
      apply filter_all. apply Forall_forall. intros t' Ht' Heq. apply Ht.
      apply list_elem_of_fmap. exists t'. split; [congruence|exact Ht']. }
    set (s1 := People.step s (EvTimer (timer_id t))).
    assert (Hs1 : timers (People.browser s1) = ts
                  ∧ dispatched (People.browser s1)
                    = dispatched (People.browser s)
                      ++ match timer_cb t with
                         | CbFetch value => [value]
                         | CbClear => []
                         end).
    { unfold s1, People.step, People.handle, People.on_timer,
        People.run_callback, People.fetchSuggestions,
        People.clearSuggestions. unfold_monad. simpl.
      rewrite Hfind. simpl.
      destruct (timer_cb t); simpl; rewrite Hts, Hrest; (split; [reflexivity|]);
        unfold dispatched; simpl.
      - now rewrite map_app.
      - now rewrite app_nil_r. }
    destruct Hs1 as [Hts1 Hd1].
    rewrite (IH s1 Hts1 Hnd), Hd1.
    unfold pending_queries at 2. rewrite Hts. simpl.
    unfold pending_queries. rewrite Hts1. now rewrite app_assoc.
Qed.

(** ** Below the minimum query length *)

Lemma calls_clear_if_set (timeout : option nat) (b : Browser) :
  calls (clear_if_set timeout b) = calls b.
Proof.
  unfold clear_if_set. destruct timeout as [id|]; [|reflexivity].
  destruct (Nat.eqb id 0); reflexivity.
Qed.

(** C5.  Take an 'input' event whose trimmed text has fewer than two
    characters.  In any state of either widget its handler ends normally
    with the suggestion list cleared and the network calls as they were;
    and when the timer table is as the widget keeps it (a pending fetch
    timer is the one the handle [timeout] names), no fetch timer is pending
    afterwards.  Every state a widget can reach has such a timer table. *)
Theorem short_input_clears `{Platform} (text : string) :
  js_length (trim text) < 2 →
  (∀ s : Location.State,
      let out := Location.handle (EvInput text) s in
      out.2 = inr tt
      ∧ list_cleared (Location.suggestionsEl out.1) (Location.results out.1)
      ∧ calls (Location.browser out.1) = calls (Location.browser s)
      ∧ (timers_ok (Location.timeout s) (Location.browser s) →
         fetch_timers (Location.browser out.1) = []))
  ∧
  (∀ s : People.State,
      let out := People.handle (EvInput text) s in
      out.2 = inr tt
      ∧ list_cleared (People.suggestionsEl out.1) (People.results out.1)
      ∧ calls (People.browser out.1) = calls (People.browser s)
      ∧ (timers_ok (People.timeout s) (People.browser s) →
         fetch_timers (People.browser out.1) = []))
  ∧
  (∀ evs : list Event,
      timers_ok (Location.timeout (Location.run Location.init evs))
                (Location.browser (Location.run Location.init evs)))
  ∧
  (∀ (g : Global) (evs : list Event),
      timers_ok (People.timeout (People.run (People.init g) evs))
                (People.browser (People.run (People.init g) evs))).
Proof.
  intros Hlen. apply Nat.ltb_lt in Hlen.
  split; [|split; [|split]].
  - intros s. cbv zeta.
    unfold Location.handle, Location.on_input, Location.clearSuggestions.
    unfold_monad. simpl. rewrite Hlen. simpl.
    split; [reflexivity|]. split; [unfold list_cleared; auto|].
    split; [apply calls_clear_if_set|].
    intros Hok.
    now destruct (timers_ok_clear_if_set (Location.timeout s)
                    (Location.timeout s) (Location.browser s) Hok).
  - intros s. cbv zeta.
    unfold People.handle, People.on_input, People.clearSuggestions.
    unfold_monad. simpl. rewrite Hlen. simpl.
    split; [reflexivity|]. split; [unfold list_cleared; auto|].
    split; [apply calls_clear_if_set|].
    intros Hok.
    now destruct (timers_ok_clear_if_set (People.timeout s)
                    (People.timeout s) (People.browser s) Hok).
  - apply loc_reachable_timers_ok.
  - apply ppl_reachable_timers_ok.
Qed.

(** The places of "pa" are on show and the timer of "par" is pending; the
    field then reads a no-break space, "P" and a space. *)
Lemma short_input_clears_witness :
  js_length (trim (nbsp +:+ "P ")) < 2
  ∧ let s := @Location.run test_platform Location.init
               [ EvInput "pa"; EvTimer 1;
                 EvResponse 0 (ok_json (JArr pa_places)); EvInput "par" ] in
    let out := @Location.handle test_platform (EvInput (nbsp +:+ "P ")) s in
    (length (innerHTML (Location.suggestionsEl s)) = 2
     ∧ length (fetch_timers (Location.browser s)) = 1)
    ∧ list_cleared (Location.suggestionsEl out.1) (Location.results out.1)
    ∧ fetch_timers (Location.browser out.1) = [].
Proof.
  split; [vm_compute; lia|].
  cbv zeta.
  destruct (@short_input_clears test_platform (nbsp +:+ "P ")) as (Hloc & _ & Hok & _);
    [vm_compute; lia|].
  split; [split; reflexivity|].
  destruct (Hloc (@Location.run test_platform Location.init
                    [ EvInput "pa"; EvTimer 1;
                      EvResponse 0 (ok_json (JArr pa_places)); EvInput "par" ]))
    as (_ & Hclear & _ & Htimers).
  split; [exact Hclear|].
  apply Htimers. apply Hok.
Defined.

(** ** Debounce *)

Lemma loc_inputs_calls `{Platform} (texts : list string) (s : Location.State) :
  timers_ok (Location.timeout s) (Location.browser s) →
  calls (Location.browser (Location.run s (map EvInput texts)))
  = calls (Location.browser s).
Proof.
  revert s. induction texts as [|text texts IH]; intros s Hok; [reflexivity|].
  simpl. rewrite IH by now apply loc_step_timers_ok.
  now destruct (loc_input_effect s text Hok) as [Hc _].
Qed.

Lemma ppl_inputs_calls `{Platform} (texts : list string) (s : People.State) :
  timers_ok (People.timeout s) (People.browser s) →
  calls (People.browser (People.run s (map EvInput texts)))
  = calls (People.browser s).
Proof.
  revert s. induction texts as [|text texts IH]; intros s Hok; [reflexivity|].
  simpl. rewrite IH by now apply ppl_step_timers_ok.
  now destruct (ppl_input_effect s text Hok) as [Hc _].
Qed.

Lemma loc_burst `{Platform} (s0 : Location.State) (texts : list string)
    (last : string) :
  timers_ok (Location.timeout s0) (Location.browser s0) →
  let s := Location.run s0 (map EvInput (texts ++ [last])) in
  dispatched (Location.browser s) = dispatched (Location.browser s0)
  ∧ dispatched (Location.browser (Location.run s (fire_all (Location.browser s))))
    = dispatched (Location.browser s0)
      ++ (if Nat.ltb (js_length (trim last)) 2 then [] else [trim last]).
Proof.
  intros Hok. cbv zeta.
  assert (Hok' : timers_ok
            (Location.timeout (Location.run s0 (map EvInput (texts ++ [last]))))
            (Location.browser (Location.run s0 (map EvInput (texts ++ [last])))))
    by now apply loc_run_timers_ok.
  assert (Hd : dispatched (Location.browser
                  (Location.run s0 (map EvInput (texts ++ [last]))))
               = dispatched (Location.browser s0)).
  { unfold dispatched. now rewrite loc_inputs_calls. }
  split; [exact Hd|].
  unfold fire_all. rewrite (loc_fire_all _ _ eq_refl) by apply Hok'.
  rewrite Hd. f_equal.
  rewrite map_app, loc_run_app. simpl.
  pose proof (loc_input_effect (Location.run s0 (map EvInput texts)) last
                (loc_run_timers_ok _ _ Hok)) as [_ Hin].
  destruct (Nat.ltb _ 2); [|exact Hin].
  apply fetch_timers_nil_pending. tauto.
Qed.

Lemma ppl_burst `{Platform} (s0 : People.State) (texts : list string)
    (last : string) :
  timers_ok (People.timeout s0) (People.browser s0) →
  let s := People.run s0 (map EvInput (texts ++ [last])) in
  dispatched (People.browser s) = dispatched (People.browser s0)
  ∧ dispatched (People.browser (People.run s (fire_all (People.browser s))))
    = dispatched (People.browser s0)
      ++ (if Nat.ltb (js_length (trim last)) 2 then [] else [trim last]).
Proof.
  intros Hok. cbv zeta.
  assert (Hok' : timers_ok
            (People.timeout (People.run s0 (map EvInput (texts ++ [last]))))
            (People.browser (People.run s0 (map EvInput (texts ++ [last])))))
    by now apply ppl_run_timers_ok.
  assert (Hd : dispatched (People.browser
                  (People.run s0 (map EvInput (texts ++ [last]))))
               = dispatched (People.browser s0)).
  { unfold dispatched. now rewrite ppl_inputs_calls. }
  split; [exact Hd|].
  unfold fire_all. rewrite (ppl_fire_all _ _ eq_refl) by apply Hok'.
  rewrite Hd. f_equal.
  rewrite map_app, ppl_run_app. simpl.
  pose proof (ppl_input_effect (People.run s0 (map EvInput texts)) last
                (ppl_run_timers_ok _ _ Hok)) as [_ Hin].
  destruct (Nat.ltb _ 2); [|exact Hin].
  apply fetch_timers_nil_pending. tauto.
Qed.

(** C6, as amended.  Take any reachable state and a burst of 'input' events
    with no timer firing in between.  The burst itself dispatches nothing;
    once the pending timers have fired, exactly one query has been
    dispatched, the trimmed text of the final event, when that text has at
    least two characters, and none when it is shorter. *)
Theorem debounce_coalesces `{Platform} (g : Global) (evs : list Event)
    (texts : list string) (last : string) :
  (let s0 := Location.run Location.init evs in
   let s := Location.run s0 (map EvInput (texts ++ [last])) in
   dispatched (Location.browser s) = dispatched (Location.browser s0)
   ∧ dispatched (Location.browser (Location.run s (fire_all (Location.browser s))))
     = dispatched (Location.browser s0)
       ++ (if Nat.ltb (js_length (trim last)) 2 then [] else [trim last]))
  ∧
  (let s0 := People.run (People.init g) evs in
   let s := People.run s0 (map EvInput (texts ++ [last])) in
   dispatched (People.browser s) = dispatched (People.browser s0)
   ∧ dispatched (People.browser (People.run s (fire_all (People.browser s))))
     = dispatched (People.browser s0)
       ++ (if Nat.ltb (js_length (trim last)) 2 then [] else [trim last])).
Proof.
  split.
  - apply loc_burst. apply loc_reachable_timers_ok.
  - apply ppl_burst. apply ppl_reachable_timers_ok.
Qed.

(** C6, as stated, fails: the burst "Par", "P" ends below the minimum
    length, and no query at all is dispatched for it. *)
Lemma debounce_short_final_text :
  let s := @Location.run test_platform Location.init
             (map EvInput [ "Par"; "P" ]) in
  dispatched (Location.browser
                (@Location.run test_platform s (fire_all (Location.browser s))))
  = []
  ∧ ¬ (dispatched (Location.browser
                     (@Location.run test_platform s (fire_all (Location.browser s))))
       = [trim "P"]).
Proof. vm_compute. split; [reflexivity|discriminate]. Qed.

(** ** reset *)

(** C2, as amended.  In any state, [reset()] empties the field, clears the
    suggestion list and forgets the committed value (location) or the
    selections and their chips (people).  It does not touch the browser: a
    pending timer stays pending and a call in flight stays in flight. *)
Theorem reset_spec `{Platform} :
  (∀ s : Location.State,
      let s' := Location.step s EvReset in
      input_value (Location.inputEl s') = ""
      ∧ list_cleared (Location.suggestionsEl s') (Location.results s')
      ∧ Location.selectedValue s' = Some (JStr "")
      ∧ Location.timeout s' = Location.timeout s
      ∧ Location.browser s' = Location.browser s)
  ∧
  (∀ s : People.State,
      let s' := People.step s EvReset in
      input_value (People.inputEl s') = ""
      ∧ list_cleared (People.suggestionsEl s') (People.results s')
      ∧ People.selected s' = []
      ∧ People.containerEl s' = []
      ∧ People.timeout s' = People.timeout s
      ∧ People.browser s' = People.browser s
      ∧ People.global s' = People.global s).
Proof.
  split; intros s; cbv zeta; unfold list_cleared; simpl; auto 10.
Qed.

(** C2, as stated, fails: a reset while the debounce timer of "Paris" is
    pending leaves that timer pending, and when it fires the query goes
    out; the state is not the one the widget was built in. *)
Lemma reset_keeps_pending_timer :
  let s := @Location.step test_platform
             (@Location.run test_platform Location.init [EvInput "Paris"])
             EvReset in
  timers (Location.browser s)
  = [ {| timer_id := 1; timer_delay := 250; timer_cb := CbFetch "Paris" |} ]
  ∧ timers (Location.browser s) ≠ timers (Location.browser Location.init)
  ∧ dispatched (Location.browser
                  (@Location.run test_platform s (fire_all (Location.browser s))))
    = [ "Paris" ].
Proof. vm_compute. repeat split; discriminate. Qed.

(** ** Responses out of order *)

Lemma in_flight_mark_settled_ne (i j : nat) (b : Browser) :
  i ≠ j → in_flight i (mark_settled j b) = in_flight i b.
Proof.
  intros Hne. unfold in_flight, mark_settled. simpl.
  now rewrite list_lookup_alter_ne by congruence.
Qed.

Lemma loc_response_browser `{Platform} (s : Location.State) (k : nat)
    (r : Response) :
  in_flight k (Location.browser s) = true →
  Location.browser (Location.step s (EvResponse k r))
  = mark_settled k (Location.browser s).
Proof.
  intros Hk. unfold Location.step, Location.handle, Location.on_response.
  unfold_monad. simpl. rewrite Hk. simpl.
  match goal with
  | |- context [Location.fetchSuggestions_settled r ?s0] =>
      destruct (loc_settled_frame r s0) as (Hb & _)
  end.
  now rewrite Hb.
Qed.

(** What the answer [r] to a call in flight does to the widget. *)
Lemma loc_response_effect `{Platform} (s : Location.State) (k : nat)
    (r : Response) :
  in_flight k (Location.browser s) = true →
  Location.handle (EvResponse k r) s
  = (Location.set_results (loc_shown r).2
       (Location.set_suggestionsEl (loc_shown r).1
          (Location.set_browser (mark_settled k (Location.browser s)) s)),
     inr tt).
Proof.
  intros Hk. unfold Location.handle, Location.on_response.
  unfold_monad. simpl. rewrite Hk. simpl.
  now rewrite loc_settled_shape.
Qed.

Lemma ppl_response_effect `{Platform} (s : People.State) (k : nat)
    (r : Response) :
  in_flight k (People.browser s) = true →
  People.handle (EvResponse k r) s
  = (let sh := ppl_shown (People.selected s)
                         (currentUser (People.global s)) r in
     People.set_results sh.2
       (People.set_suggestionsEl sh.1
          (People.set_global (fetchWithAuth_settle (People.global s) r).1
             (People.set_browser (mark_settled k (People.browser s)) s))),
     inr tt).
Proof.
  intros Hk. unfold People.handle, People.on_response.
  unfold_monad. simpl. rewrite Hk. simpl.
  now rewrite ppl_settled_shape.
Qed.

Lemma ppl_response_frame `{Platform} (s : People.State) (k : nat)
    (status : nat) (body : option Json) :
  in_flight k (People.browser s) = true →
  res_ok status = true →
  let s' := People.step s (EvResponse k (HttpResponse status body)) in
  People.browser s' = mark_settled k (People.browser s)
  ∧ People.selected s' = People.selected s
  ∧ People.global s' = People.global s.
Proof.
  intros Hk Hok. cbv zeta. unfold People.step.
  rewrite (ppl_response_effect _ _ _ Hk). simpl.
  unfold fetchWithAuth_settle. rewrite (res_ok_not_401 _ Hok).
  simpl. destruct (People.global s); auto.
Qed.

(** What a successful answer with a list of records shows. *)
Lemma shown_rows (items : list Item) :
  forallb row_renders items = true →
  shown items = (mkListEl (render_rows items)
                          match items with [] => true | _ => false end, items).
Proof.
  unfold shown, cleared. destruct items as [|item items]; [reflexivity|].
  now intros ->.
Qed.

(** C1, as amended.  The list shows the answer that arrived last, whatever
    the order of dispatch and whatever the two answers are.  When two calls
    are in flight and the one dispatched later settles first, the list
    afterwards is what the answer to the call dispatched earlier, arriving
    second, shows by itself ([loc_shown], [ppl_shown]): the records of a
    successful answer whose rows can be written (for the people selector,
    without the selections and without the user signed in once the first
    answer has been through [fetchWithAuth]), and nothing for any other
    answer.  No sequence number is kept and no answer is discarded. *)
Theorem last_arrival_wins `{Platform} :
  (∀ (s : Location.State) (i j : nat) (later earlier : Response),
      i < j →
      in_flight i (Location.browser s) = true →
      in_flight j (Location.browser s) = true →
      let s' := Location.run s [ EvResponse j later; EvResponse i earlier ] in
      (Location.suggestionsEl s', Location.results s') = loc_shown earlier
      ∧ ∀ (status : nat) (elems : list Json) (items : list Item),
          earlier = HttpResponse status (Some (JArr elems)) →
          res_ok status = true →
          mapM Location.to_item elems = inr items →
          forallb row_renders items = true →
          Location.results s' = items
          ∧ innerHTML (Location.suggestionsEl s') = render_rows items)
  ∧
  (∀ (s : People.State) (i j : nat) (later earlier : Response),
      i < j →
      in_flight i (People.browser s) = true →
      in_flight j (People.browser s) = true →
      let user := currentUser (fetchWithAuth_settle (People.global s) later).1 in
      let s' := People.run s [ EvResponse j later; EvResponse i earlier ] in
      (People.suggestionsEl s', People.results s')
      = ppl_shown (People.selected s) user earlier
      ∧ People.selected s' = People.selected s
      ∧ ∀ (status : nat) (elems kept : list Json),
          earlier = HttpResponse status (Some (JArr elems)) →
          res_ok status = true →
          filterM (People.keep_person (map item_id (People.selected s)) user)
                  elems = inr kept →
          forallb row_renders (map People.to_item kept) = true →
          People.results s' = map People.to_item kept
          ∧ innerHTML (People.suggestionsEl s')
            = render_rows (map People.to_item kept)).
Proof.
  split.
  - intros s i j later earlier Hij Hi Hj. cbv zeta.
    change (Location.run s [ EvResponse j later; EvResponse i earlier ])
      with (Location.step (Location.step s (EvResponse j later))
                          (EvResponse i earlier)).
    assert (Hs1 : Location.step s (EvResponse j later)
                  = Location.set_results (loc_shown later).2
                      (Location.set_suggestionsEl (loc_shown later).1
                         (Location.set_browser
                            (mark_settled j (Location.browser s)) s))).
    { unfold Location.step. now rewrite (loc_response_effect s j later Hj). }
    assert (Hs2 : Location.step (Location.step s (EvResponse j later))
                                (EvResponse i earlier)
                  = Location.set_results (loc_shown earlier).2
                      (Location.set_suggestionsEl (loc_shown earlier).1
                         (Location.set_browser
                            (mark_settled i (Location.browser
                               (Location.step s (EvResponse j later))))
                            (Location.step s (EvResponse j later))))).
    { unfold Location.step at 1. rewrite loc_response_effect; [reflexivity|].
      rewrite Hs1. cbn [Location.browser Location.set_results
                        Location.set_suggestionsEl Location.set_browser].
      rewrite in_flight_mark_settled_ne by lia. exact Hi. }
    rewrite Hs2.
    cbn [Location.suggestionsEl Location.results Location.set_results
         Location.set_suggestionsEl Location.set_browser].
    split; [symmetry; apply surjective_pairing|].
    intros status elems items -> Hok Hitems Hrows.
    unfold loc_shown. rewrite Hok. simpl. rewrite Hitems.
    rewrite (shown_rows _ Hrows). auto.
  - intros s i j later earlier Hij Hi Hj. cbv zeta.
    change (People.run s [ EvResponse j later; EvResponse i earlier ])
      with (People.step (People.step s (EvResponse j later))
                        (EvResponse i earlier)).
    set (s1 := People.step s (EvResponse j later)).
    assert (Hs1 : People.browser s1 = mark_settled j (People.browser s)
                  ∧ People.selected s1 = People.selected s
                  ∧ People.global s1
                    = (fetchWithAuth_settle (People.global s) later).1).
    { unfold s1, People.step.
      rewrite (ppl_response_effect s j later Hj). simpl. auto. }
    destruct Hs1 as (Hb1 & Hsel1 & Hg1).
    assert (Hs2 : People.step s1 (EvResponse i earlier)
                  = let sh := ppl_shown (People.selected s1)
                                (currentUser (People.global s1)) earlier in
                    People.set_results sh.2
                      (People.set_suggestionsEl sh.1
                         (People.set_global
                            (fetchWithAuth_settle (People.global s1) earlier).1
                            (People.set_browser
                               (mark_settled i (People.browser s1)) s1)))).
    { unfold People.step at 1. rewrite ppl_response_effect; [reflexivity|].
      rewrite Hb1. rewrite in_flight_mark_settled_ne by lia. exact Hi. }
    rewrite Hs2. cbv zeta.
    cbn [People.suggestionsEl People.results People.selected
         People.set_results People.set_suggestionsEl People.set_global
         People.set_browser].
    rewrite Hsel1, Hg1.
    split; [|split; [reflexivity|]].
    + symmetry. apply surjective_pairing.
    + intros status elems kept -> Hok Hkept Hrows.
      unfold ppl_shown. rewrite Hok. simpl. rewrite Hkept.
      rewrite (shown_rows _ Hrows). auto.
Qed.

Lemma last_arrival_wins_witness :
  (let s := @Location.run test_platform Location.init two_in_flight in
   let s' := @Location.run test_platform s
               [ EvResponse 1 (ok_json (JArr par_places));
                 EvResponse 0 (ok_json (JArr pa_places)) ] in
   Location.results s'
   = [ mkItem (Some (JNum 1)) (Some (JStr "Pau, France")) undefined;
       mkItem (Some (JNum 2)) (Some (JStr "Padova")) undefined ])
  ∧
  (let s := @People.run test_platform (People.init sample_global)
              two_in_flight in
   let s' := @People.run test_platform s
               [ EvResponse 1 (HttpResponse 500 None);
                 EvResponse 0 (ok_json (JArr [ person "u1" "Ann";
                                               person "u3" "Cy" ])) ] in
   People.results s' = [ People.to_item (person "u3" "Cy") ])
  ∧
  (let s := @Location.run test_platform Location.init two_in_flight in
   let s' := @Location.run test_platform s
               [ EvResponse 1 (ok_json (JArr par_places));
                 EvResponse 0 (ok_json (JArr
                   [ JObj [ ("place_id", JNum 1);
                            ("display_name", no_text) ] ])) ] in
   (Location.suggestionsEl s', Location.results s') = cleared).
Proof.
  cbv zeta.
  destruct (@last_arrival_wins test_platform) as [Hloc Hppl].
  split; [|split].
  - destruct (Hloc (@Location.run test_platform Location.init two_in_flight)
                   0 1 (ok_json (JArr par_places)) (ok_json (JArr pa_places)))
      as [_ Hrows]; [lia|reflexivity|reflexivity|].
    destruct (Hrows 200 pa_places _ eq_refl eq_refl eq_refl eq_refl) as [Hr _].
    exact Hr.
  - destruct (Hppl (@People.run test_platform (People.init sample_global)
                      two_in_flight)
                   0 1 (HttpResponse 500 None)
                   (ok_json (JArr [ person "u1" "Ann"; person "u3" "Cy" ])))
      as (_ & _ & Hrows); [lia|reflexivity|reflexivity|].
    destruct (Hrows 200 [ person "u1" "Ann"; person "u3" "Cy" ]
                [ person "u3" "Cy" ] eq_refl eq_refl eq_refl eq_refl)
      as [Hr _].
    exact Hr.
  - destruct (Hloc (@Location.run test_platform Location.init two_in_flight)
                   0 1 (ok_json (JArr par_places))
                   (ok_json (JArr [ JObj [ ("place_id", JNum 1);
                                           ("display_name", no_text) ] ])))
      as [Hshown _]; [lia|reflexivity|reflexivity|].
    exact Hshown.
Defined.

(** C1, as stated, fails: "pa" is dispatched before "par", the answer to
    "par" arrives first and the answer to "pa" second; the list then shows
    the places of "pa", the earlier query, not those of "par". *)
Lemma stale_response_overwrites :
  let s := @Location.run test_platform Location.init race_trace in
  dispatched (Location.browser s) = [ "pa"; "par" ]
  ∧ map row_text (innerHTML (Location.suggestionsEl s))
    = [ "Pau, France"; "Padova" ]
  ∧ map row_text (innerHTML (Location.suggestionsEl s)) ≠ [ "Paris, France" ].
Proof. vm_compute. repeat split; discriminate. Qed.

(** ** Failed fetches *)














(** ** Selections of the people selector *)

Lemma js_strict_eq_sym (a b : JsVal) : js_strict_eq a b = js_strict_eq b a.
Proof.
  destruct a as [[]|], b as [[]|]; simpl; try reflexivity.
  - now destruct b, b0.
  - apply Z.eqb_sym.
  - apply String.eqb_sym.
Qed.

Lemma ids_distinct_snoc (l : list Item) (x : Item) :
  ids_distinct l = true →
  Forall (fun q => js_strict_eq (item_id q) (item_id x) = false) l →
  ids_distinct (l ++ [x]) = true.
Proof.
  induction l as [|p l IH]; simpl; [reflexivity|].
  intros Hd Hx. apply andb_prop in Hd as [Hp Hd].
  apply Forall_cons in Hx as [Hpx Hx].
  rewrite IH by assumption. rewrite andb_true_r.
  rewrite forallb_app, Hp. simpl. now rewrite Hpx.
Qed.

Lemma forallb_filter_weaken {A} (f g : A → bool) (l : list A) :
  forallb f l = true → forallb f (List.filter g l) = true.
Proof.
  induction l as [|x l IH]; simpl; [reflexivity|].
  intros H. apply andb_prop in H as [Hx Hl].
  destruct (g x); simpl; [rewrite Hx|]; auto.
Qed.

Lemma ids_distinct_filter (g : Item → bool) (l : list Item) :
  ids_distinct l = true → ids_distinct (List.filter g l) = true.
Proof.
  induction l as [|p l IH]; simpl; [reflexivity|].
  intros Hd. apply andb_prop in Hd as [Hp Hd].
  destruct (g p); simpl; [|auto].
  rewrite IH by assumption. now rewrite forallb_filter_weaken.
Qed.

Lemma no_self_filter (user : option Json) (g : Item → bool) (l : list Item) :
  no_self user l = true → no_self user (List.filter g l) = true.
Proof.
  destruct user as [u|]; simpl; [|reflexivity]. apply forallb_filter_weaken.
Qed.

Lemma no_self_snoc (user : option Json) (l : list Item) (x : Item) :
  no_self user l = true → no_self user [x] = true →
  no_self user (l ++ [x]) = true.
Proof.
  destruct user as [u|]; simpl; [|reflexivity].
  intros Hl Hx. now rewrite forallb_app, Hl.
Qed.

Lemma no_self_lookup (user : option Json) (l : list Item) (i : nat) (x : Item) :
  no_self user l = true → l !! i = Some x → no_self user [x] = true.
Proof.
  destruct user as [u|]; simpl; [|reflexivity].
  intros Hl Hi. rewrite forallb_forall in Hl.
  rewrite Hl; [reflexivity|].
  apply list_elem_of_In. apply list_elem_of_lookup. eauto.
Qed.

Lemma filterM_kept {A} (f : A → Error + bool) (l kept : list A) :
  filterM f l = inr kept → Forall (fun x => f x = inr true) kept.
Proof.
  revert kept. induction l as [|x l IH]; simpl; intros kept Hk.
  - injection Hk as <-. constructor.
  - destruct (f x) as [e|b] eqn:Hx; [discriminate|].
    destruct (filterM f l) as [e|ys]; [discriminate|].
    injection Hk as <-. destruct b; [constructor|]; auto.
Qed.

(** What the filter of [fetchSuggestions] guarantees of an entry it keeps. *)
Lemma keep_person_true (ids : list JsVal) (user : option Json) (p : Json) :
  People.keep_person ids user p = inr true →
  Set_has ids (item_id (People.to_item p)) = false
  ∧ js_strict_eq (item_id (People.to_item p)) (get_prop_opt user "id") = false.
Proof.
  unfold People.keep_person, People.to_item, get_prop_opt.
  destruct p; simpl; try discriminate;
    intros [= Hk]; apply andb_prop in Hk as [H1 H2];
    split; now apply negb_true_iff.
Qed.

Lemma Set_has_false (ids : list JsVal) (x : JsVal) :
  Set_has ids x = false → Forall (fun y => js_strict_eq y x = false) ids.
Proof.
  unfold Set_has. induction ids as [|y ids IH]; simpl; [constructor|].
  intros H. apply orb_false_elim in H as [Hy H].
  constructor; [now rewrite js_strict_eq_sym|auto].
Qed.

Lemma selection_inv_clear (user user' : option Json) (selected results : list Item) :
  user' = user ∨ user' = None →
  selection_inv user selected results →
  selection_inv user' selected [].
Proof.
  intros Hu (Hd & Hs & _ & _). unfold selection_inv.
  repeat split; try assumption; try constructor.
  - destruct Hu as [->| ->]; [assumption|reflexivity].
  - destruct user'; reflexivity.
Qed.

Lemma selection_inv_results (user : option Json) (selected results : list Item)
    (elems kept : list Json) :
  filterM (People.keep_person (map item_id selected) user) elems = inr kept →
  selection_inv user selected results →
  selection_inv user selected (map People.to_item kept).
Proof.
  intros Hk (Hd & Hs & _ & _). apply filterM_kept in Hk.
  unfold selection_inv. repeat split; try assumption.
  - apply Forall_fmap. eapply Forall_impl; [exact Hk|].
    intros p Hp. simpl. apply keep_person_true in Hp as [Hp _].
    apply Set_has_false in Hp. apply Forall_fmap in Hp. exact Hp.
  - destruct user as [u|]; [|reflexivity]. simpl.
    apply forallb_forall. intros x Hx. apply in_map_iff in Hx as (p & <- & Hp).
    rewrite Forall_forall in Hk. apply list_elem_of_In in Hp.
    apply Hk in Hp. apply keep_person_true in Hp as [_ Hp].
    now apply negb_true_iff.
Qed.

Lemma selection_inv_commit (user : option Json) (selected results : list Item)
    (index : nat) (x : Item) :
  results !! index = Some x →
  selection_inv user selected results →
  selection_inv user (selected ++ [x]) [].
Proof.
  intros Hx (Hd & Hs & Hr & Hrs). unfold selection_inv.
  repeat split; try constructor.
  - apply ids_distinct_snoc; [assumption|].
    rewrite Forall_forall in Hr. apply Hr.
    apply list_elem_of_lookup. eauto.
  - apply no_self_snoc; [assumption|]. eapply no_self_lookup; eauto.
  - destruct user; reflexivity.
Qed.

Lemma selection_inv_remove (user : option Json) (selected results : list Item)
    (g : Item → bool) :
  selection_inv user selected results →
  selection_inv user (List.filter g selected) results.
Proof.
  intros (Hd & Hs & Hr & Hrs). unfold selection_inv. repeat split.
  - now apply ids_distinct_filter.
  - now apply no_self_filter.
  - eapply Forall_impl; [exact Hr|]. intros p Hp. simpl in Hp.
    apply Forall_forall. intros q Hq. rewrite Forall_forall in Hp. apply Hp.
    apply list_elem_of_In in Hq. apply List.filter_In in Hq as [Hq _].
    now apply list_elem_of_In.
  - assumption.
Qed.

Lemma shown_sub (items : list Item) : (shown items).2 = items ∨ (shown items).2 = [].
Proof.
  unfold shown, cleared. destruct items as [|item items]; [now left|].
  destruct (forallb _ _); [now left|now right].
Qed.

Lemma ppl_settled_inv (r : Response) (s : People.State) :
  ppl_inv s → ppl_inv (People.fetchSuggestions_settled r s).1.
Proof.
  unfold ppl_inv. intros Hinv. rewrite ppl_settled_shape. cbv zeta.
  cbn [fst People.global People.selected People.results People.set_results
       People.set_suggestionsEl People.set_global].
  assert (Hu : currentUser (fetchWithAuth_settle (People.global s) r).1
               = currentUser (People.global s)
               ∨ currentUser (fetchWithAuth_settle (People.global s) r).1
                 = None).
  { unfold fetchWithAuth_settle. destruct r as [|status body]; [now left|].
    destruct (Nat.eqb status 401); [now right|now left]. }
  assert (Hcl : ∀ results,
            selection_inv (currentUser (fetchWithAuth_settle (People.global s) r).1)
                          (People.selected s) results →
            True) by auto.
  unfold ppl_shown.
  destruct r as [|status body];
    [eapply selection_inv_clear; eauto|].
  destruct body as [data|]; [|eapply selection_inv_clear; eauto].
  destruct (res_ok status) eqn:Hok; [|eapply selection_inv_clear; eauto].
  assert (Hg : currentUser (fetchWithAuth_settle (People.global s)
                              (HttpResponse status (Some data))).1
               = currentUser (People.global s)).
  { unfold fetchWithAuth_settle. now rewrite (res_ok_not_401 _ Hok). }
  rewrite Hg.
  destruct (as_array data) as [e|elems];
    [eapply selection_inv_clear; eauto|].
  destruct (filterM _ elems) as [e|kept] eqn:Hk;
    [eapply selection_inv_clear; eauto|].
  pose proof (selection_inv_results _ _ _ _ _ Hk Hinv) as Hnew.
  destruct (shown_sub (map People.to_item kept)) as [-> | ->];
    [exact Hnew|].
  eapply selection_inv_clear; eauto.
Qed.

(** A handler that ends normally keeps the invariant; a mousedown whose
    chip template throws does not. *)
Lemma ppl_step_inv `{Platform} (s : People.State) (ev : Event) :
  (People.handle ev s).2 = inr tt →
  ppl_inv s → ppl_inv (People.step s ev).
Proof.
  intros Hn Hinv. unfold People.step. revert Hn. unfold People.handle.
  destruct ev as [text|id|k r|target|target| |].
  - intros _. unfold People.on_input, People.clearSuggestions.
    unfold_monad. simpl.
    destruct (Nat.ltb _ 2); simpl; [|exact Hinv].
    eapply selection_inv_clear; eauto.
  - intros _.
    unfold People.on_timer, People.run_callback, People.fetchSuggestions,
      People.clearSuggestions. unfold_monad. simpl.
    destruct (find_timer id (People.browser s)) as [t|]; simpl; [|exact Hinv].
    destruct (timer_cb t); simpl; [exact Hinv|].
    eapply selection_inv_clear; eauto.
  - intros _. unfold People.on_response. unfold_monad. simpl.
    destruct (in_flight k (People.browser s)); simpl; [|exact Hinv].
    apply ppl_settled_inv. exact Hinv.
  - unfold People.on_mousedown, People.renderSelected, People.clearSuggestions.
    unfold_monad.
    destruct target as [index|]; simpl; [|intros _; exact Hinv].
    destruct (People.results s !! index) as [x|] eqn:Hx; simpl;
      [|intros _; exact Hinv].
    pose proof (selection_inv_commit _ _ _ _ _ Hx Hinv) as Hnew.
    destruct (People.selected s ++ [x]) as [|y l]; simpl;
      [intros _; exact Hnew|].
    destruct (chip_renders y && forallb chip_renders l); simpl;
      [intros _; exact Hnew|discriminate].
  - intros _. unfold People.on_remove_click, People.renderSelected.
    unfold_monad.
    destruct target as [id|]; simpl; [|exact Hinv].
    match goal with
    | |- context [List.filter ?g (People.selected s)] =>
        pose proof (selection_inv_remove _ _ _ g Hinv) as Hnew;
        destruct (List.filter g (People.selected s)) as [|y l]; simpl;
        [exact Hnew|]
    end.
    destruct (chip_renders y && forallb chip_renders l); simpl; exact Hnew.
  - intros _. exact Hinv.
  - intros _. unfold ppl_inv. simpl. unfold selection_inv. simpl.
    repeat split; try constructor; destruct (currentUser _); reflexivity.
Qed.

Lemma ppl_init_inv (g : Global) : ppl_inv (People.init g).
Proof.
  unfold ppl_inv, selection_inv. simpl.
  repeat split; try constructor; destruct (currentUser g); reflexivity.
Qed.

(** As long as no handler has ended with an exception, the selections have
    distinct ids, none is [currentUser?.id], and no suggestion on offer has
    the id of a selection. *)
Lemma ppl_run_inv `{Platform} (s : People.State) (evs : list Event) :
  ppl_all_normal s evs → ppl_inv s → ppl_inv (People.run s evs).
Proof.
  revert s. induction evs as [|ev evs IH]; intros s Hn Hs; [exact Hs|].
  destruct Hn as [Hev Hn]. simpl. apply IH; [exact Hn|].
  now apply ppl_step_inv.
Qed.

(** C4 fails on the code, in two ways.  First, the filter of
    [fetchSuggestions] compares with [currentUser?.id] only, while the id
    of a user is [id || _id] everywhere else: a signed-in user whose id is
    carried in [_id] is offered and can select themselves.  Second, a chip
    whose template throws (here on an id with no text, which the rows do
    not print) ends the mousedown handler after [selected.push] and before
    [clearSuggestions()]: the rows stay on offer, every later mousedown
    ends the same way, and a second mousedown on a row selects the same
    person again. *)
Theorem selection_admits_self_and_duplicates :
  (let g := {| localStorage := sample_store;
               currentUser := Some user_underscore_id;
               location_href := "index.html" |} in
   let s := @People.run test_platform (People.init g)
              [ EvInput "an"; EvTimer 1;
                EvResponse 0 (ok_json (JArr [ person "u1" "Ann" ]));
                EvMousedown (Some 0) ] in
   People.getSelectedIds s = [ Some (JStr "u1") ]
   ∧ user_id_of (currentUser (People.global s)) = Some (JStr "u1"))
  ∧
  (let s := @People.run test_platform (People.init sample_global)
              [ EvInput "bo"; EvTimer 1;
                EvResponse 0 (ok_json (JArr [ person_id_no_text "Eve";
                                              person "u3" "Cy" ])) ] in
   (@People.handle test_platform (EvMousedown (Some 0)) s).2 = inl TypeError
   ∧ let s' := @People.run test_platform s
                 [ EvMousedown (Some 0); EvMousedown (Some 1);
                   EvMousedown (Some 1) ] in
     People.getSelectedIds s'
     = [ Some no_text; Some (JStr "u3"); Some (JStr "u3") ]
     ∧ ids_distinct (People.selected s') = false
     ∧ People.containerEl s' = []
     ∧ length (People.results s') = 2).
Proof. vm_compute. repeat split; reflexivity. Qed.

(** ** The definitions at work *)

Example escapeHtml_markup :
  escapeHtml (Some (JStr "<a href='x'>Tom & Jerry</a>"))
  = Some (JStr "&lt;a href=&#39;x&#39;&gt;Tom &amp; Jerry&lt;/a&gt;").
Proof. reflexivity. Qed.

Example escapeHtml_number : escapeHtml (Some (JNum 7)) = Some (JNum 7).
Proof. reflexivity. Qed.

Example trim_both_ends : trim "  New  York " = "New  York".
Proof. reflexivity. Qed.

(** A no-break space and a byte order mark (U+FEFF) are white space; the
    two bytes of "é" are not, and count as one character. *)
Example trim_unicode :
  trim (nbsp +:+ String "239" (String "187" (String "191" " a "))
             +:+ nbsp) = "a"
  ∧ trim (String "195" (String "169" " ")) = String "195" (String "169" "")
  ∧ js_length (String "195" (String "169" "")) = 1
  ∧ js_length (String "240" (String "159" (String "152" (String "128" ""))))
    = 2.
Proof. repeat split; reflexivity. Qed.

(** The field reads a no-break space and "a": the trimmed text is "a",
    below the minimum length, and no query goes out. *)
Example nbsp_scenario :
  let s := @Location.run test_platform Location.init
             [ EvInput "pa"; EvInput (nbsp +:+ "a") ] in
  timers (Location.browser s) = []
  ∧ dispatched (Location.browser
                  (@Location.run test_platform s (fire_all (Location.browser s))))
    = []
  ∧ Location.getValue s = Some (JStr "a").
Proof. vm_compute. repeat split; reflexivity. Qed.

(** A mousedown on a suggestion whose name has no text, which the row
    template cannot render either: such a suggestion is never on offer. *)
Example no_text_name_is_not_offered :
  let s := @Location.run test_platform Location.init
             [ EvInput "pa"; EvTimer 1;
               EvResponse 0 (ok_json (JArr
                 [ place 1 "Pau";
                   JObj [ ("place_id", JNum 2); ("display_name", no_text) ] ])) ] in
  Location.results s = [] ∧ hidden (Location.suggestionsEl s) = true.
Proof. vm_compute. split; reflexivity. Qed.

Example getToken_empty_string :
  getToken (<["photoshare_token" := ""]> ∅) = None.
Proof. reflexivity. Qed.

(** "Par", then "Paris" before the timer fires: one query, for "Paris",
    and its answer is shown as one row. *)
Example paris_scenario :
  let s := @Location.run test_platform Location.init
             [ EvInput "Par"; EvInput "Paris"; EvTimer 1; EvTimer 2;
               EvResponse 0 (ok_json (JArr par_places)) ] in
  dispatched (Location.browser s) = [ "Paris" ]
  ∧ Location.suggestionsEl s
    = {| innerHTML := [ {| row_index := 0;
                           row_src := DEFAULT_AVATAR;
                           row_alt := "Paris, France";
                           row_text := "Paris, France" |} ];
         hidden := false |}.
Proof. vm_compute. split; reflexivity. Qed.

(** A 500 answer hides the list. *)
Example status_500_scenario :
  let s := @Location.run test_platform Location.init
             [ EvInput "Paris"; EvTimer 1;
               EvResponse 0 (HttpResponse 500 None) ] in
  Location.suggestionsEl s = {| innerHTML := []; hidden := true |}.
Proof. reflexivity. Qed.

(** Bob is selected; a later search that returns Bob again, and the
    signed-in user, offers neither. *)
Example already_selected_scenario :
  let s := @People.run test_platform (People.init sample_global)
             [ EvInput "bo"; EvTimer 1;
               EvResponse 0 (ok_json (JArr [ person "u2" "Bob" ]));
               EvMousedown (Some 0);
               EvInput "b "; EvInput "bob"; EvTimer 2;
               EvResponse 1 (ok_json (JArr [ person "u2" "Bob";
                                             person "u1" "Ann";
                                             person "u4" "Bobby" ])) ] in
  People.getSelectedIds s = [ Some (JStr "u2") ]
  ∧ map chip_text (People.containerEl s) = [ "Bob" ]
  ∧ map row_text (innerHTML (People.suggestionsEl s)) = [ "Bobby" ]
  ∧ dispatched (People.browser s) = [ "bo"; "bob" ].
Proof. vm_compute. repeat split; reflexivity. Qed.

(** The request of the people search carries the token. *)
Example people_request :
  let s := @People.run test_platform (People.init sample_global)
             [ EvInput "bo"; EvTimer 1 ] in
  map (fun c => (req_url (call_request c),
                 headers_get "authorization" (req_headers (call_request c))))
      (calls (People.browser s))
  = [ (DEFAULT_API_BASE +:+ "/users/search?q=bo", Some "Bearer tok") ].
Proof. reflexivity. Qed.

(** * Further properties of the code *)

(** ** Base address *)

Lemma strip_trailing_slashes_split (s : string) :
  ∃ k, s = strip_trailing_slashes s +:+ slashes k
       ∧ (strip_trailing_slashes s = "" → s = slashes k).
Proof.
  induction s as [|c s (k & Hs & Hk)]; [exists 0; split; reflexivity|].
  simpl. destruct (strip_trailing_slashes s) as [|d t] eqn:E.
  - destruct (Ascii.eqb c "/") eqn:Ec.
    + apply Ascii.eqb_eq in Ec. subst c. exists (S k). simpl.
      rewrite (Hk eq_refl). split; [reflexivity|]. intros _.
      now rewrite <- (Hk eq_refl).
    + exists k. simpl. rewrite <- (Hk eq_refl) at 1. rewrite (Hk eq_refl).
      split; [reflexivity|discriminate].
  - exists k. simpl. split; [now rewrite Hs at 1|discriminate].
Qed.

Lemma strip_trailing_slashes_last (s : string) :
  last_char (strip_trailing_slashes s) ≠ Some "/"%char.
Proof.
  induction s as [|c s IH]; simpl; [discriminate|].
  destruct (strip_trailing_slashes s) as [|d t] eqn:E.
  - destruct (Ascii.eqb c "/") eqn:Ec; simpl; [discriminate|].
    apply Ascii.eqb_neq in Ec. congruence.
  - exact IH.
Qed.

Lemma strip_trailing_slashes_fixed (s : string) :
  last_char s ≠ Some "/"%char → strip_trailing_slashes s = s.
Proof.
  induction s as [|c s IH]; [reflexivity|].
  intros Hl. simpl. destruct s as [|d t].
  - simpl in *. destruct (Ascii.eqb c "/") eqn:Ec; [|reflexivity].
    apply Ascii.eqb_eq in Ec. congruence.
  - rewrite IH by exact Hl. reflexivity.
Qed.

Lemma normalizeBase_last (url : option string) :
  last_char (normalizeBase url) ≠ Some "/"%char.
Proof.
  destruct url as [u|]; simpl; [|discriminate].
  destruct (String.eqb u ""); [discriminate|].
  apply strip_trailing_slashes_last.
Qed.

Lemma last_char_app (s t : string) :
  t ≠ "" → last_char (s +:+ t) = last_char t.
Proof.
  intros Ht. induction s as [|c s IH]; [reflexivity|].
  simpl. rewrite IH. destruct (s +:+ t) eqn:E; [|reflexivity].
  destruct s; simpl in E; [contradiction|discriminate].
Qed.

Lemma normalizeBase_origin_api (origin : string) :
  normalizeBase (Some (origin +:+ "/api")) = origin +:+ "/api".
Proof.
  unfold normalizeBase.
  destruct (String.eqb (origin +:+ "/api") "") eqn:E.
  - apply String.eqb_eq in E. destruct origin; discriminate.
  - apply strip_trailing_slashes_fixed.
    rewrite last_char_app by discriminate. discriminate.
Qed.

(** X1.  [normalizeBase] removes the slashes at the end of the address and
    nothing else: the address is the result followed by slashes, the result
    does not end in a slash, and normalising twice changes nothing.  A
    missing address gives the empty string. *)
Theorem normalizeBase_spec (u : string) :
  (∃ k, u = normalizeBase (Some u) +:+ slashes k)
  ∧ last_char (normalizeBase (Some u)) ≠ Some "/"%char
  ∧ normalizeBase (Some (normalizeBase (Some u))) = normalizeBase (Some u)
  ∧ normalizeBase None = "".
Proof.
  split; [|split; [apply normalizeBase_last|split; [|reflexivity]]].
  - unfold normalizeBase. destruct (String.eqb u "") eqn:E.
    + apply String.eqb_eq in E. subst u. exists 0. reflexivity.
    + destruct (strip_trailing_slashes_split u) as (k & Hk & _). eauto.
  - unfold normalizeBase. destruct (String.eqb u "") eqn:E; [reflexivity|].
    destruct (String.eqb (strip_trailing_slashes u) "") eqn:E'.
    + apply String.eqb_eq in E'. now rewrite E'.
    + apply strip_trailing_slashes_fixed. apply strip_trailing_slashes_last.
Qed.

(** X2.  Whatever the page, the window override and the meta tag say, the
    base address [resolveApiBase] returns does not end in a slash, so that
    a path starting with a slash can be appended to it. *)
Theorem resolveApiBase_no_trailing_slash (window : option Window)
    (document : option Document) :
  last_char (resolveApiBase window document) ≠ Some "/"%char.
Proof.
  unfold resolveApiBase.
  destruct window as [w|]; [|vm_compute; discriminate].
  destruct (str_truthy (PHOTOSHARE_API_BASE w)); [apply normalizeBase_last|].
  cbv zeta.
  destruct (str_truthy _); [apply normalizeBase_last|].
  destruct (String.eqb (loc_protocol _) "file:"); [vm_compute; discriminate|].
  destruct (String.eqb (loc_port _) "5000"); [apply normalizeBase_last|].
  destruct (_ || _); [vm_compute; discriminate|apply normalizeBase_last].
Qed.

(** X3.  With no window override and no meta tag, a page opened from a file
    uses the default base; otherwise a page served on port 5000 uses its own
    origin followed by [/api], even on localhost; otherwise localhost and
    127.0.0.1 use the default base and any other host its own origin
    followed by [/api]. *)
Theorem resolveApiBase_by_location (l : WindowLocation)
    (document : option Document) :
  (∀ d, document = Some d → str_truthy (meta_api_base d) = false) →
  resolveApiBase (Some (mkWindow None l)) document
  = if String.eqb (loc_protocol l) "file:" then DEFAULT_API_BASE
    else if String.eqb (loc_port l) "5000" then loc_origin l +:+ "/api"
    else if String.eqb (loc_hostname l) "localhost"
            || String.eqb (loc_hostname l) "127.0.0.1"
         then DEFAULT_API_BASE
         else loc_origin l +:+ "/api".
Proof.
  intros Hmeta. unfold resolveApiBase.
  cbn [PHOTOSHARE_API_BASE window_location str_truthy].
  assert (Hm : str_truthy match document with
                          | Some d => meta_api_base d
                          | None => None
                          end = false).
  { destruct document as [d|]; [now apply Hmeta|reflexivity]. }
  rewrite Hm. rewrite !normalizeBase_origin_api. reflexivity.
Qed.

Lemma resolveApiBase_by_location_witness :
  resolveApiBase
    (Some (mkWindow None
             (mkWindowLocation "http:" "5000" "localhost"
                               "http://localhost:5000")))
    (Some (mkDocument None))
  = "http://localhost:5000/api".
Proof.
  apply (resolveApiBase_by_location
           (mkWindowLocation "http:" "5000" "localhost" "http://localhost:5000")
           (Some (mkDocument None))).
  intros d [= <-]. reflexivity.
Defined.

(** ** Session store *)

Lemma getItem_or_null_nonempty (k : string) (ls : Storage) :
  getItem_or_null k ls ≠ Some "".
Proof.
  unfold getItem_or_null. destruct (ls !! k) as [v|]; [|discriminate].
  destruct (String.eqb v "") eqn:E; [discriminate|].
  apply String.eqb_neq in E. congruence.
Qed.

Lemma getItem_set_or_remove_eq (k : string) (x : option string) (ls : Storage) :
  getItem_or_null k (set_or_remove k x ls) = if str_truthy x then x else None.
Proof.
  unfold getItem_or_null, set_or_remove, str_truthy.
  destruct x as [v|]; [|now rewrite lookup_delete_eq].
  destruct (String.eqb v "") eqn:E; simpl.
  - now rewrite lookup_delete_eq.
  - now rewrite lookup_insert_eq, E.
Qed.

Lemma getItem_set_or_remove_ne (k k' : string) (x : option string)
    (ls : Storage) :
  k ≠ k' → getItem_or_null k' (set_or_remove k x ls) = getItem_or_null k' ls.
Proof.
  intros Hne. unfold getItem_or_null, set_or_remove.
  destruct x as [v|]; [destruct (String.eqb v "")|];
    now rewrite ?lookup_delete_ne, ?lookup_insert_ne by exact Hne.
Qed.

(** X4.  The token, the role and the name are three independent fields:
    each setter decides what its own getter returns (the value written, or
    [null] when the value is empty or missing) and leaves the other two
    getters as they were; no getter ever returns the empty string. *)
Theorem session_fields_independent (ls : Storage) (x : option string) :
  (getToken (setToken x ls) = (if str_truthy x then x else None)
   ∧ getUserRole (setToken x ls) = getUserRole ls
   ∧ getUserName (setToken x ls) = getUserName ls)
  ∧ (getUserRole (setUserRole x ls) = (if str_truthy x then x else None)
     ∧ getToken (setUserRole x ls) = getToken ls
     ∧ getUserName (setUserRole x ls) = getUserName ls)
  ∧ (getUserName (setUserName x ls) = (if str_truthy x then x else None)
     ∧ getToken (setUserName x ls) = getToken ls
     ∧ getUserRole (setUserName x ls) = getUserRole ls)
  ∧ getToken ls ≠ Some ""
  ∧ getUserRole ls ≠ Some ""
  ∧ getUserName ls ≠ Some "".
Proof.
  unfold getToken, setToken, getUserRole, setUserRole, getUserName, setUserName.
  repeat split;
    first [ apply getItem_set_or_remove_eq
          | apply getItem_set_or_remove_ne; discriminate
          | apply getItem_or_null_nonempty ].
Qed.

Lemma logout_storage (g : Global) (k : string) :
  localStorage (logout g) !! k
  = if decide (k = "photoshare_token" ∨ k = "photoshare_role"
               ∨ k = "photoshare_name")
    then None else localStorage g !! k.
Proof.
  unfold logout, setToken, setUserRole, setUserName, set_or_remove. simpl.
  rewrite !lookup_delete.
  repeat (destruct (decide (_ = k)) as [?|?]);
    destruct (decide _) as [?|?]; try reflexivity; exfalso;
    intuition congruence.
Qed.

(** X5.  [logout] removes the token, the role and the name and no other key
    of the store, whatever was stored; signing out twice is the same as
    signing out once. *)
Theorem logout_removes_three_keys (g : Global) (k : string) :
  k ≠ "photoshare_token" → k ≠ "photoshare_role" → k ≠ "photoshare_name" →
  localStorage (logout g) !! k = localStorage g !! k
  ∧ getToken (localStorage (logout g)) = None
  ∧ getUserRole (localStorage (logout g)) = None
  ∧ getUserName (localStorage (logout g)) = None
  ∧ logout (logout g) = logout g.
Proof.
  intros H1 H2 H3. split; [|split; [|split; [|split]]].
  - rewrite logout_storage. case_decide; [tauto|reflexivity].
  - unfold getToken, getItem_or_null. now rewrite logout_storage.
  - unfold getUserRole, getItem_or_null. now rewrite logout_storage.
  - unfold getUserName, getItem_or_null. now rewrite logout_storage.
  - assert (Hls : localStorage (logout (logout g)) = localStorage (logout g)).
    { apply map_eq. intros i. rewrite (logout_storage (logout g)).
      case_decide as Hi; [|reflexivity].
      rewrite logout_storage. now rewrite decide_True by exact Hi. }
    unfold logout at 1. unfold logout at 2. f_equal. exact Hls.
Qed.

Lemma logout_removes_three_keys_witness :
  localStorage (logout sample_global) !! "photoshare_user_id" = Some "u1"
  ∧ getToken (localStorage (logout sample_global)) = None
  ∧ getUserRole (localStorage (logout sample_global)) = None
  ∧ getUserName (localStorage (logout sample_global)) = None
  ∧ logout (logout sample_global) = logout sample_global.
Proof.
  destruct (logout_removes_three_keys sample_global "photoshare_user_id")
    as (Hk & Hrest); [discriminate|discriminate|discriminate|].
  split; [|exact Hrest]. rewrite Hk. reflexivity.
Defined.

(** ** fetchWithAuth: what is passed through *)

Lemma lower_content_type : lower "Content-Type" = "content-type".
Proof. reflexivity. Qed.

Lemma lower_authorization : lower "Authorization" = "authorization".
Proof. reflexivity. Qed.

(** The headers of the request, name by name. *)
Lemma fetchWithAuth_request_header `{Platform} (ls : Storage) (path : string)
    (o : Options) (name : string) :
  headers_get name (req_headers (fetchWithAuth_request ls path o))
  = if decide (lower name = "authorization" ∧ is_Some (getToken ls))
    then option_map (fun t => "Bearer " +:+ t) (getToken ls)
    else if decide (lower name = "content-type"
                    ∧ is_FormData (opt_body o) = false)
         then Some "application/json"
         else headers_get name (new_Headers (default [] (opt_headers o))).
Proof.
  unfold fetchWithAuth_request, headers_get, headers_set.
  rewrite lower_content_type, lower_authorization.
  destruct (is_FormData (opt_body o)) eqn:Hfd; simpl;
    destruct (getToken ls) as [t|]; simpl;
    rewrite ?lookup_insert;
    repeat (destruct (decide _) as [?|?]); try reflexivity;
    try (exfalso; intuition (try congruence; eauto; fail));
    try (exfalso; destruct_and?; match goal with
                                 | Hs : is_Some None |- _ => destruct Hs; discriminate
                                 end).
Qed.

(** X6.  A multipart body reaches [fetch] as it is and the wrapper does not
    set a content type for it; a string body reaches [fetch] as it is, not
    serialised a second time; a request without a body stays without one.
    In the last two cases the request still declares JSON. *)
Theorem fetchWithAuth_body_passed_through `{Platform} (ls : Storage)
    (path : string) (o : Options) :
  let req := fetchWithAuth_request ls path o in
  (∀ parts, opt_body o = BodyFormData parts →
     req_body req = BodyFormData parts
     ∧ headers_get "Content-Type" (req_headers req)
       = headers_get "Content-Type" (new_Headers (default [] (opt_headers o))))
  ∧ (∀ s, opt_body o = BodyValue (JStr s) →
       req_body req = BodyValue (JStr s)
       ∧ headers_get "Content-Type" (req_headers req) = Some "application/json")
  ∧ (opt_body o = BodyAbsent →
       req_body req = BodyAbsent
       ∧ headers_get "Content-Type" (req_headers req) = Some "application/json").
Proof.
  cbv zeta.
  assert (Hna : lower "Content-Type" ≠ "authorization") by discriminate.
  split; [|split].
  - intros parts Hb. split.
    + unfold fetchWithAuth_request. now rewrite Hb.
    + rewrite fetchWithAuth_request_header, Hb.
      destruct (decide _) as [[Hl _]|_]; [contradiction|].
      destruct (decide _) as [[_ Hf]|_]; [discriminate Hf|reflexivity].
  - intros s Hb. split.
    + unfold fetchWithAuth_request. now rewrite Hb.
    + rewrite fetchWithAuth_request_header, Hb.
      destruct (decide _) as [[Hl _]|_]; [contradiction|].
      destruct (decide _) as [_|Hn]; [reflexivity|].
      exfalso. apply Hn. split; reflexivity.
  - intros Hb. split.
    + unfold fetchWithAuth_request. now rewrite Hb.
    + rewrite fetchWithAuth_request_header, Hb.
      destruct (decide _) as [[Hl _]|_]; [contradiction|].
      destruct (decide _) as [_|Hn]; [reflexivity|].
      exfalso. apply Hn. split; reflexivity.
Qed.

Lemma fetchWithAuth_body_passed_through_witness :
  let req := @fetchWithAuth_request test_platform sample_store
               "/photos/upload-image" (upload_options "dawn.jpg") in
  req_body req = BodyFormData [ ("image", "dawn.jpg") ]
  ∧ headers_get "Content-Type" (req_headers req) = None.
Proof.
  cbv zeta.
  destruct (@fetchWithAuth_body_passed_through test_platform sample_store
              "/photos/upload-image" (upload_options "dawn.jpg"))
    as (Hfd & _ & _).
  apply (Hfd [ ("image", "dawn.jpg") ]). reflexivity.
Defined.

(** X7.  The wrapper writes two headers and no other: under every other
    name the request carries what the [Headers] object built from the
    caller's headers holds, and without a stored token so it does under
    [Authorization].  What that object holds for a header given once is
    the caller's value without the white space around it. *)
Theorem fetchWithAuth_headers_frame `{Platform} (ls : Storage) (path : string)
    (o : Options) (name : string) :
  let req := fetchWithAuth_request ls path o in
  let given := new_Headers (default [] (opt_headers o)) in
  (lower name ≠ "content-type" → lower name ≠ "authorization" →
     headers_get name (req_headers req) = headers_get name given)
  ∧ (getToken ls = None →
       headers_get "Authorization" (req_headers req)
       = headers_get "Authorization" given)
  ∧ (∀ value, opt_headers o = Some [ (name, value) ] →
       lower name ≠ "content-type" → lower name ≠ "authorization" →
       headers_get name (req_headers req) = Some (normalize_value value)).
Proof.
  cbv zeta.
  assert (Hframe : lower name ≠ "content-type" →
                   lower name ≠ "authorization" →
                   headers_get name
                     (req_headers (fetchWithAuth_request ls path o))
                   = headers_get name
                       (new_Headers (default [] (opt_headers o)))).
  { intros H1 H2. rewrite fetchWithAuth_request_header.
    destruct (decide _) as [[Hl _]|_]; [contradiction|].
    destruct (decide _) as [[Hl _]|_]; [contradiction|reflexivity]. }
  split; [exact Hframe|split].
  - intros Ht. rewrite fetchWithAuth_request_header, Ht.
    destruct (decide _) as [[_ [x Hx]]|_]; [discriminate Hx|].
    destruct (decide _) as [[Hl _]|_]; [discriminate Hl|reflexivity].
  - intros value Ho H1 H2. rewrite (Hframe H1 H2), Ho.
    unfold new_Headers, headers_append, headers_get. simpl.
    rewrite lookup_empty. apply lookup_insert_eq.
Qed.

Lemma fetchWithAuth_headers_frame_witness :
  (let o := {| opt_method := Some "GET"; opt_cache := None;
               opt_headers := Some [ ("X-Trace", "7");
                                     ("authorization", "Basic x") ];
               opt_body := BodyAbsent |} in
   let req := @fetchWithAuth_request test_platform ∅ "/photos" o in
   headers_get "x-trace" (req_headers req) = Some "7"
   ∧ headers_get "Authorization" (req_headers req) = Some "Basic x")
  ∧
  (let o := {| opt_method := Some "GET"; opt_cache := None;
               opt_headers := Some [ ("X-Trace", " 7 ") ];
               opt_body := BodyAbsent |} in
   let req := @fetchWithAuth_request test_platform sample_store "/photos" o in
   headers_get "X-Trace" (req_headers req) = Some "7").
Proof.
  cbv zeta. split; [split|].
  - destruct (@fetchWithAuth_headers_frame test_platform ∅ "/photos"
                {| opt_method := Some "GET"; opt_cache := None;
                   opt_headers := Some [ ("X-Trace", "7");
                                         ("authorization", "Basic x") ];
                   opt_body := BodyAbsent |} "x-trace") as (Hother & _ & _).
    rewrite Hother; [reflexivity|discriminate|discriminate].
  - destruct (@fetchWithAuth_headers_frame test_platform ∅ "/photos"
                {| opt_method := Some "GET"; opt_cache := None;
                   opt_headers := Some [ ("X-Trace", "7");
                                         ("authorization", "Basic x") ];
                   opt_body := BodyAbsent |} "x-trace") as (_ & Hauth & _).
    rewrite Hauth; reflexivity.
  - destruct (@fetchWithAuth_headers_frame test_platform sample_store "/photos"
                {| opt_method := Some "GET"; opt_cache := None;
                   opt_headers := Some [ ("X-Trace", " 7 ") ];
                   opt_body := BodyAbsent |} "X-Trace") as (_ & _ & Hvalue).
    apply (Hvalue " 7 "); [reflexivity|discriminate|discriminate].
Defined.

(** ** Page functions built on fetchWithAuth *)

(** The three ways a call through the wrapper settles. *)
Lemma fetchWithAuth_settle_cases (g : Global) (r : Response) :
  (r = FetchRejected ∧ fetchWithAuth_settle g r = (g, inl NetworkFailure))
  ∨ (∃ body, r = HttpResponse 401 body
             ∧ (fetchWithAuth_settle g r).2 = inl Unauthorized
             ∧ (fetchWithAuth_settle g r).1 = logout g)
  ∨ (∃ status body, r = HttpResponse status body
                    ∧ Nat.eqb status 401 = false
                    ∧ fetchWithAuth_settle g r = (g, inr (status, body))).
Proof.
  destruct r as [|status body]; [left; auto|right].
  simpl. destruct (Nat.eqb status 401) eqn:E.
  - left. apply Nat.eqb_eq in E. subst status. exists body. auto.
  - right. exists status, body. auto.
Qed.

(** X8.  [uploadImageFile] resolves only with a truthy image address taken
    from a successful answer, and then the session is as it was; a missing
    file is rejected before any request is made. *)
Theorem uploadImageFile_resolves `{Platform} (g : Global) (r : Response)
    (v : JsVal) :
  (uploadImageFile_settle g r).2 = inr v →
  truthy v = true
  ∧ (uploadImageFile_settle g r).1 = g
  ∧ (∃ status data, r = HttpResponse status (Some data)
                    ∧ res_ok status = true
                    ∧ get_prop_opt (Some data) "imageUrl" = v)
  ∧ uploadImageFile_start (localStorage g) None
    = inl (ErrorMessage "Please select a photo to upload.").
Proof.
  unfold uploadImageFile_settle.
  destruct (fetchWithAuth_settle_cases g r)
    as [[-> Hs]|[(body & -> & Hs & _)|(status & body & -> & Hne & Hs)]].
  - rewrite Hs. simpl. discriminate.
  - destruct (fetchWithAuth_settle g (HttpResponse 401 body)) as [g' [e|res]];
      simpl in Hs; [|discriminate]. simpl. discriminate.
  - rewrite Hs. destruct (res_ok status) eqn:Hok; simpl; [|discriminate].
    destruct body as [data|]; simpl; [|discriminate].
    destruct (truthy (get_prop_opt (Some data) "imageUrl")) eqn:Ht; simpl;
      [|discriminate].
    intros [= <-]. repeat split; eauto.
Qed.

Lemma uploadImageFile_resolves_witness :
  truthy (Some (JStr "https://cdn/p.jpg")) = true
  ∧ (uploadImageFile_settle sample_global
       (ok_json (JObj [ ("imageUrl", JStr "https://cdn/p.jpg") ]))).1
    = sample_global.
Proof.
  destruct (@uploadImageFile_resolves test_platform sample_global
              (ok_json (JObj [ ("imageUrl", JStr "https://cdn/p.jpg") ]))
              (Some (JStr "https://cdn/p.jpg")) eq_refl) as (H1 & H2 & _).
  split; assumption.
Defined.

(** X9.  [createPhotoRecord] resolves exactly on a successful answer whose
    body parses, and with that body; a body that does not parse is reported
    as an unexpected response whatever the status (401 apart, which the
    wrapper takes first); the request it makes is a POST of the JSON text
    of the record. *)
Theorem createPhotoRecord_outcome `{Platform} (g : Global) (r : Response)
    (title caption location : JsVal) (people : list JsVal) (imageUrl : JsVal) :
  (∀ payload,
      (createPhotoRecord_settle g r).2 = inr payload
      ↔ ∃ status, r = HttpResponse status (Some payload) ∧ res_ok status = true)
  ∧ (∀ status, status ≠ 401 →
       createPhotoRecord_settle g (HttpResponse status None)
       = (g, inl (ErrorMessage "Unexpected response from server")))
  ∧ (let req := createPhotoRecord_start (localStorage g) title caption
                  location people imageUrl in
     req_url req = API_BASE +:+ "/photos"
     ∧ req_method req = Some "POST"
     ∧ req_body req
       = BodyValue (JStr (JSON_stringify
                            (photo_record title caption location people
                                          imageUrl)))).
Proof.
  split; [|split].
  - intros payload. unfold createPhotoRecord_settle.
    destruct (fetchWithAuth_settle_cases g r)
      as [[-> Hs]|[(body & -> & Hs & _)|(status & body & -> & Hne & Hs)]].
    + rewrite Hs. split; [discriminate|intros (? & ? & _); discriminate].
    + destruct (fetchWithAuth_settle g (HttpResponse 401 body)) as [g' [e|res]];
        simpl in Hs; [|discriminate].
      split; [discriminate|]. intros (st & [= <- _] & Hok). discriminate.
    + rewrite Hs. destruct body as [data|]; simpl.
      * destruct (res_ok status) eqn:Hok; simpl.
        -- split; [intros [= <-]; eauto|intros (st & [= _ <-] & _); reflexivity].
        -- split; [discriminate|].
           intros (st & [= <- _] & Hok'). congruence.
      * split; [discriminate|intros (? & ? & _); discriminate].
  - intros status Hne. unfold createPhotoRecord_settle. simpl.
    now rewrite (proj2 (Nat.eqb_neq status 401) Hne).
  - cbv zeta. unfold createPhotoRecord_start, fetchWithAuth_request. simpl.
    repeat split; reflexivity.
Qed.

Lemma createPhotoRecord_outcome_witness :
  createPhotoRecord_settle sample_global (HttpResponse 502 None)
  = (sample_global, inl (ErrorMessage "Unexpected response from server")).
Proof.
  destruct (@createPhotoRecord_outcome test_platform sample_global
              FetchRejected None None None [] None) as (_ & H502 & _).
  apply (H502 502). discriminate.
Defined.

(** ** Restoring the session and dispatching the page *)

Lemma hydrateSession_catch_spec (g : Global) :
  let g' := hydrateSession_catch g in
  getToken (localStorage g') = None
  ∧ getUserRole (localStorage g') = None
  ∧ getUserName (localStorage g') = None
  ∧ currentUser g' = None
  ∧ location_href g' = "login.html".
Proof.
  cbv zeta. unfold hydrateSession_catch.
  cbn [localStorage currentUser location_href].
  unfold getToken, getUserRole, getUserName, getItem_or_null.
  rewrite !logout_storage. repeat split.
Qed.

Lemma hydrateSession_catch_logout (g : Global) :
  hydrateSession_catch (logout g) = hydrateSession_catch g.
Proof.
  unfold hydrateSession_catch.
  assert (Hl : logout (logout g) = logout g).
  { assert (Hls : localStorage (logout (logout g)) = localStorage (logout g)).
    { apply map_eq. intros i. rewrite (logout_storage (logout g)).
      destruct (decide _) as [Hi|Hi]; [|reflexivity].
      rewrite logout_storage. now rewrite decide_True by exact Hi. }
    unfold logout at 1. unfold logout at 2. f_equal. exact Hls. }
  now rewrite Hl.
Qed.

Lemma hydrateSession_failed_catch (g : Global) (r : Response) :
  hydrate_failed r = true →
  hydrateSession_settle g r = (hydrateSession_catch g, None).
Proof.
  intros Hf. unfold hydrateSession_settle.
  destruct (fetchWithAuth_settle_cases g r)
    as [[-> Hs]|[(body & -> & Hs & Hg)|(status & body & -> & Hne & Hs)]].
  - now rewrite Hs.
  - destruct (fetchWithAuth_settle g (HttpResponse 401 body)) as [g' [e|res]];
      simpl in Hs, Hg; [|discriminate].
    subst g'. now rewrite hydrateSession_catch_logout.
  - rewrite Hs. simpl in Hf. destruct (res_ok status); simpl in *; [|reflexivity].
    destruct body as [[]|]; simpl in *; try discriminate; reflexivity.
Qed.

Lemma page_is_inj (page : option string) (a b : string) :
  page_is page a = true → a ≠ b → page_is page b = false.
Proof.
  destruct page as [p|]; simpl; [|discriminate].
  intros Ha Hab. apply String.eqb_eq in Ha. subst p.
  now apply String.eqb_neq.
Qed.

(** What [init] calls without a token, and with one. *)
Lemma init_after_hydrate_calls (g : Global) (page : option string) :
  let calls := (init_after_hydrate g page).2 in
  (getToken (localStorage g) = None → forallb is_auth_form calls = true)
  ∧ (is_Some (getToken (localStorage g)) →
       forallb (fun c => negb (is_auth_form c)) calls = true).
Proof.
  cbv zeta. unfold init_after_hydrate, init_switch.
  destruct (getToken (localStorage g)) as [t|] eqn:Ht.
  - split; [discriminate|intros _].
    rewrite bool_decide_true by eauto. simpl.
    destruct (page_is page "login") eqn:Hl; [reflexivity|].
    destruct (page_is page "signup") eqn:Hs; [reflexivity|]. simpl.
    destruct (page_is page "feed"); [reflexivity|].
    destruct (page_is page "photo-detail"); [reflexivity|].
    destruct (page_is page "creator-dashboard"); [reflexivity|].
    destruct (page_is page "profile"); reflexivity.
  - split; [intros _|intros [x Hx]; discriminate].
    rewrite bool_decide_false by (intros [x Hx]; discriminate). simpl.
    destruct (page_is page "login") eqn:Hl; simpl.
    + rewrite (page_is_inj page "login" "feed" Hl) by discriminate.
      rewrite (page_is_inj page "login" "photo-detail" Hl) by discriminate.
      reflexivity.
    + destruct (page_is page "signup") eqn:Hs; simpl; [|reflexivity].
      rewrite (page_is_inj page "signup" "feed" Hs) by discriminate.
      rewrite (page_is_inj page "signup" "photo-detail" Hs) by discriminate.
      reflexivity.
Qed.

(** X10.  When restoring the session fails in any way (the transport
    fails, the status is not a success, the body does not parse or is
    [null]), [hydrateSession] returns [null] and signs out: token, role and
    name are gone, nobody is signed in and the browser is sent to the login
    page; [init] then calls nothing but the login or the signup form. *)
Theorem hydrateSession_failure_signs_out (g : Global) (r : Response)
    (page : option string) :
  hydrate_failed r = true →
  let '(g', me) := hydrateSession_settle g r in
  me = None
  ∧ getToken (localStorage g') = None
  ∧ getUserRole (localStorage g') = None
  ∧ getUserName (localStorage g') = None
  ∧ currentUser g' = None
  ∧ location_href g' = "login.html"
  ∧ forallb is_auth_form (init_after_hydrate g' page).2 = true
  ∧ location_href (init_after_hydrate g' page).1 = "login.html".
Proof.
  intros Hf. rewrite (hydrateSession_failed_catch g r Hf).
  destruct (hydrateSession_catch_spec g) as (Ht & Hr & Hn & Hc & Hh).
  repeat split; try assumption.
  - now apply init_after_hydrate_calls.
  - unfold init_after_hydrate. rewrite Ht.
    rewrite bool_decide_false by (intros [x Hx]; discriminate). simpl.
    destruct (negb (page_is page "login") && negb (page_is page "signup"));
      [reflexivity|exact Hh].
Qed.

Lemma hydrateSession_failure_signs_out_witness :
  let '(g', me) := hydrateSession_settle sample_global (HttpResponse 500 None) in
  me = None
  ∧ getToken (localStorage g') = None
  ∧ getUserRole (localStorage g') = None
  ∧ getUserName (localStorage g') = None
  ∧ currentUser g' = None
  ∧ location_href g' = "login.html"
  ∧ forallb is_auth_form (init_after_hydrate g' (Some "feed")).2 = true
  ∧ location_href (init_after_hydrate g' (Some "feed")).1 = "login.html".
Proof.
  apply (hydrateSession_failure_signs_out sample_global (HttpResponse 500 None)
           (Some "feed")).
  reflexivity.
Defined.

Lemma get_prop_not_null (data : Json) (k : string) :
  data ≠ JNull → get_prop (Some data) k = inr (get_prop_opt (Some data) k).
Proof.
  intros Hnn. unfold get_prop_opt.
  destruct data; simpl; try reflexivity. contradiction.
Qed.

(** The three writes of a sign-in go through exactly when role and name
    are storable and the user id has a text; they never touch the token. *)
Lemma store_user_spec (ls : Storage) (role name user : JsVal) :
  ∃ ls', ls' !! "photoshare_token" = ls !! "photoshare_token"
    ∧ if storable role && storable name && printable (user_id_of user)
      then store_user ls role name user = (ls', None)
           ∧ ls' !! "photoshare_user_id" = Some (template (user_id_of user))
      else store_user ls role name user = (ls', Some TypeError).
Proof.
  unfold store_user, setUserRole_js, setUserName_js, store_user_id,
    set_or_remove_js, setItem_js, to_text, storable.
  destruct (truthy role), (printable role); simpl;
    destruct (truthy name), (printable name); simpl;
    destruct (printable (user_id_of user)); simpl;
    eexists; (split; [|first [ split; [reflexivity|] | reflexivity ]]);
    repeat first [ rewrite lookup_insert_ne by discriminate
                 | rewrite lookup_delete_ne by discriminate
                 | rewrite lookup_insert_eq ];
    reflexivity.
Qed.



(** X12.  [init] never calls a page function other than the login and
    signup forms without a stored token, and never calls those two forms
    with one; when it redirects it calls nothing, and it never touches the
    store or the current user. *)
Theorem init_guards_pages (g : Global) (page : option string) :
  let '(g', calls) := init_after_hydrate g page in
  match getToken (localStorage g) with
  | Some _ => forallb (fun c => negb (is_auth_form c)) calls = true
  | None => forallb is_auth_form calls = true
  end
  ∧ (location_href g' = location_href g ∨ calls = [])
  ∧ localStorage g' = localStorage g
  ∧ currentUser g' = currentUser g.
Proof.
  pose proof (init_after_hydrate_calls g page) as [Hnone Hsome].
  cbv zeta in Hnone, Hsome.
  destruct (init_after_hydrate g page) as [g' calls] eqn:E. simpl in *.
  split; [|split].
  - destruct (getToken (localStorage g)) as [t|]; [apply Hsome; eauto|auto].
  - unfold init_after_hydrate in E.
    destruct (_ && _ && _) in E; [injection E as <- <-; auto|].
    destruct (_ && _) in E; injection E as <- <-; auto.
  - unfold init_after_hydrate in E.
    destruct (_ && _ && _) in E; [injection E as <- <-; auto|].
    destruct (_ && _) in E; injection E as <- <-; auto.
Qed.

(** ** Signing in *)

Lemma setToken_js_string (t : string) (ls : Storage) :
  t ≠ "" →
  setToken_js (Some (JStr t)) ls = inr (<["photoshare_token" := t]> ls).
Proof.
  intros Ht. unfold setToken_js, set_or_remove_js, setItem_js, to_text.
  simpl. apply String.eqb_neq in Ht. now rewrite Ht.
Qed.

Lemma getToken_stored (t : string) (ls : Storage) :
  t ≠ "" → ls !! "photoshare_token" = Some t → getToken ls = Some t.
Proof.
  intros Ht Hls. unfold getToken, getItem_or_null. rewrite Hls.
  apply String.eqb_neq in Ht. now rewrite Ht.
Qed.

(** X13.  The login form changes the session only on a successful answer:
    when [fetch] rejects, when the status is not a success (401 included:
    no sign-out, no redirect) and when a successful body does not parse,
    the store, the current user and the page address are exactly as
    before and an error is shown. *)
Theorem login_failure_keeps_session (g : Global) (r : Response) :
  match r with
  | HttpResponse status (Some _) => res_ok status = false
  | _ => True
  end →
  (login_settle g r).1 = g ∧ is_Some (login_settle g r).2.
Proof.
  destruct r as [|status [payload|]]; simpl.
  - intros _. eauto.
  - intros ->. simpl. eauto.
  - intros _. destruct (res_ok status); simpl; eauto.
Qed.

Lemma login_failure_keeps_session_witness :
  (login_settle sample_global
     (HttpResponse 401 (Some (JObj [ ("message", JStr "Wrong password") ])))).1
  = sample_global
  ∧ (login_settle sample_global
       (HttpResponse 401 (Some (JObj [ ("message", JStr "Wrong password") ])))).2
    = Some (ErrorMessage "Wrong password").
Proof.
  destruct (login_failure_keeps_session sample_global
              (HttpResponse 401
                 (Some (JObj [ ("message", JStr "Wrong password") ])))
              eq_refl) as [Hg _].
  split; [exact Hg|reflexivity].
Defined.

(** X14.  A successful login answer carries a non-empty token string and
    a user that is not [null].  The token is stored first; then the role,
    the name and the user id are written.  When the three writes go through
    the user is the current user, the browser goes to [index.html], no
    error is shown and the user id is stored (the string [id || _id] when
    it is a string).  When a write throws, the form shows the TypeError,
    nobody is made the current user and there is no redirect, while the
    token stays stored. *)
Theorem login_success_stores_session (g : Global) (status : nat) (data : Json)
    (t : string) (user : Json) :
  res_ok status = true →
  get_prop_opt (Some data) "token" = Some (JStr t) →
  t ≠ "" →
  get_prop_opt (Some data) "user" = Some user →
  user ≠ JNull →
  let '(g', err) := login_settle g (HttpResponse status (Some data)) in
  getToken (localStorage g') = Some t
  ∧ if storable (get_prop_opt (Some user) "role")
       && storable (get_prop_opt (Some user) "name")
       && printable (user_id_of (Some user))
    then
      err = None
      ∧ currentUser g' = Some user
      ∧ location_href g' = "index.html"
      ∧ (∀ s, user_id_of (Some user) = Some (JStr s) →
           localStorage g' !! "photoshare_user_id" = Some s)
    else
      err = Some (PlatformError TypeError)
      ∧ currentUser g' = currentUser g
      ∧ location_href g' = location_href g.
Proof.
  intros Hok Htok Ht Huser Hnn. unfold login_settle. rewrite Hok. cbn [negb].
  assert (Hgt : get_prop (Some data) "token" = inr (Some (JStr t))).
  { unfold get_prop_opt in Htok.
    destruct (get_prop (Some data) "token"); [discriminate|now subst]. }
  rewrite Hgt, (setToken_js_string t _ Ht), Huser.
  rewrite (get_prop_not_null user "role" Hnn).
  destruct (store_user_spec (<["photoshare_token" := t]> (localStorage g))
              (get_prop_opt (Some user) "role")
              (get_prop_opt (Some user) "name") (Some user))
    as (ls' & Htok' & Hst).
  rewrite lookup_insert_eq in Htok'.
  destruct (_ && _ && _).
  - destruct Hst as [-> Hid]. cbn [localStorage currentUser location_href].
    split; [now apply getToken_stored|]. repeat split.
    intros s Hs. rewrite Hid, Hs. reflexivity.
  - rewrite Hst. cbn [localStorage currentUser location_href].
    split; [now apply getToken_stored|]. repeat split.
Qed.

Lemma login_success_stores_session_witness :
  (let '(g', err) :=
     login_settle (mkGlobal ∅ None "login.html")
       (ok_json (JObj [ ("token", JStr "tok"); ("user", sample_user) ])) in
   err = None
   ∧ getToken (localStorage g') = Some "tok"
   ∧ currentUser g' = Some sample_user
   ∧ location_href g' = "index.html"
   ∧ localStorage g' !! "photoshare_user_id" = Some "u1")
  ∧
  (let '(g', err) :=
     login_settle (mkGlobal ∅ None "login.html")
       (ok_json (JObj [ ("token", JStr "tok");
                        ("user", JObj [ ("id", no_text) ]) ])) in
   err = Some (PlatformError TypeError)
   ∧ getToken (localStorage g') = Some "tok"
   ∧ currentUser g' = None
   ∧ location_href g' = "login.html").
Proof.
  unfold ok_json. split.
  - pose proof (login_success_stores_session (mkGlobal ∅ None "login.html") 200
                  (JObj [ ("token", JStr "tok"); ("user", sample_user) ])
                  "tok" sample_user eq_refl eq_refl) as H.
    destruct (login_settle (mkGlobal ∅ None "login.html")
                (HttpResponse 200
                   (Some (JObj [ ("token", JStr "tok");
                                 ("user", sample_user) ])))) as [g' err].
    destruct H as (Ht & He & Hc & Hh & Hid);
      [discriminate|reflexivity|discriminate|].
    repeat split; try assumption. apply Hid. reflexivity.
  - pose proof (login_success_stores_session (mkGlobal ∅ None "login.html") 200
                  (JObj [ ("token", JStr "tok");
                          ("user", JObj [ ("id", no_text) ]) ])
                  "tok" (JObj [ ("id", no_text) ]) eq_refl eq_refl) as H.
    destruct (login_settle (mkGlobal ∅ None "login.html")
                (HttpResponse 200
                   (Some (JObj [ ("token", JStr "tok");
                                 ("user", JObj [ ("id", no_text) ]) ]))))
      as [g' err].
    destruct H as (Ht & He & Hc & Hh);
      [discriminate|reflexivity|discriminate|].
    repeat split; assumption.
Defined.

(** X15.  A successful answer that carries a token but no user object
    leaves the token in the store although the form shows an error and
    does not redirect: the token is written before the user is read. *)
Theorem login_without_user_keeps_token (g : Global) (status : nat)
    (data : Json) (t : string) :
  res_ok status = true →
  get_prop_opt (Some data) "token" = Some (JStr t) →
  t ≠ "" →
  get_prop_opt (Some data) "user" = undefined →
  let '(g', err) := login_settle g (HttpResponse status (Some data)) in
  err = Some (PlatformError TypeError)
  ∧ getToken (localStorage g') = Some t
  ∧ currentUser g' = currentUser g
  ∧ location_href g' = location_href g.
Proof.
  intros Hok Htok Ht Huser. unfold login_settle. rewrite Hok. cbn [negb].
  assert (Hgt : get_prop (Some data) "token" = inr (Some (JStr t))).
  { unfold get_prop_opt in Htok.
    destruct (get_prop (Some data) "token"); [discriminate|now subst]. }
  rewrite Hgt, (setToken_js_string t _ Ht), Huser. simpl. repeat split.
  apply getToken_stored; [exact Ht|]. apply lookup_insert_eq.
Qed.

Lemma login_without_user_keeps_token_witness :
  let '(g', err) :=
    login_settle (mkGlobal ∅ None "login.html")
      (ok_json (JObj [ ("token", JStr "tok") ])) in
  err = Some (PlatformError TypeError)
  ∧ getToken (localStorage g') = Some "tok"
  ∧ currentUser g' = None
  ∧ location_href g' = "login.html".
Proof.
  apply (login_without_user_keeps_token (mkGlobal ∅ None "login.html") 200
           (JObj [ ("token", JStr "tok") ]) "tok");
    first [reflexivity|discriminate].
Defined.

(** ** The widgets: what the page shows *)

Ltac loc_event_cases s ev :=
  unfold Location.step, Location.handle;
  destruct ev as [text|id|k r|target|target| |];
  [ unfold Location.on_input, Location.clearSuggestions; unfold_monad; simpl
  | unfold Location.on_timer, Location.run_callback, Location.fetchSuggestions,
      Location.clearSuggestions; unfold_monad; simpl;
    destruct (find_timer id (Location.browser s)) as [t|] eqn:Hfind; simpl;
    [destruct (timer_cb t) eqn:Hcb; simpl|]
  | unfold Location.on_response; unfold_monad; simpl;
    destruct (in_flight k (Location.browser s)) eqn:Hk; simpl
  | unfold Location.on_mousedown, Location.clearSuggestions; unfold_monad;
    destruct target as [index|]; simpl;
    [destruct (Location.results s !! index) as [x|] eqn:Hx; simpl;
     [destruct (printable (item_name x)) eqn:Hprint; simpl|]|]
  | simpl
  | unfold Location.on_blur; unfold_monad; simpl
  | simpl ].

Ltac ppl_event_cases s ev :=
  unfold People.step, People.handle;
  destruct ev as [text|id|k r|target|target| |];
  [ unfold People.on_input, People.clearSuggestions; unfold_monad; simpl
  | unfold People.on_timer, People.run_callback, People.fetchSuggestions,
      People.clearSuggestions; unfold_monad; simpl;
    destruct (find_timer id (People.browser s)) as [t|] eqn:Hfind; simpl;
    [destruct (timer_cb t) eqn:Hcb; simpl|]
  | unfold People.on_response; unfold_monad; simpl;
    destruct (in_flight k (People.browser s)) eqn:Hk; simpl
  | unfold People.on_mousedown, People.renderSelected, People.clearSuggestions;
    unfold_monad;
    destruct target as [index|]; simpl;
    [destruct (People.results s !! index) as [x|] eqn:Hx; simpl;
     [destruct (People.selected s ++ [x]) as [|y l] eqn:Hsel; simpl;
      [|destruct (chip_renders y && forallb chip_renders l) eqn:Hchips;
        simpl]|]|]
  | unfold People.on_remove_click, People.renderSelected; unfold_monad;
    destruct target as [id|]; simpl;
    [match goal with
     | |- context [List.filter ?f (People.selected s)] =>
         destruct (List.filter f (People.selected s)) as [|y l] eqn:Hsel;
         simpl;
         [|destruct (chip_renders y && forallb chip_renders l) eqn:Hchips;
           simpl]
     end|]
  | unfold People.on_blur; unfold_monad; simpl
  | simpl ].

Lemma list_in_sync_cleared : list_in_sync (mkListEl [] true) [].
Proof. split; reflexivity. Qed.

Lemma shown_in_sync (items : list Item) :
  list_in_sync (shown items).1 (shown items).2.
Proof.
  unfold shown, cleared. destruct items as [|item items];
    [apply list_in_sync_cleared|].
  destruct (forallb _ _); [split; reflexivity|apply list_in_sync_cleared].
Qed.

Lemma loc_shown_in_sync (r : Response) :
  list_in_sync (loc_shown r).1 (loc_shown r).2.
Proof.
  unfold loc_shown. destruct r as [|status [data|]];
    try apply list_in_sync_cleared.
  destruct (res_ok status); [|apply list_in_sync_cleared].
  destruct (as_array data) as [e|elems]; [apply list_in_sync_cleared|].
  destruct (mapM _ elems) as [e|items]; [apply list_in_sync_cleared|].
  apply shown_in_sync.
Qed.

Lemma ppl_shown_in_sync (selected : list Item) (user : option Json)
    (r : Response) :
  list_in_sync (ppl_shown selected user r).1 (ppl_shown selected user r).2.
Proof.
  unfold ppl_shown. destruct r as [|status [data|]];
    try apply list_in_sync_cleared.
  destruct (res_ok status); [|apply list_in_sync_cleared].
  destruct (as_array data) as [e|elems]; [apply list_in_sync_cleared|].
  destruct (filterM _ elems) as [e|kept]; [apply list_in_sync_cleared|].
  apply shown_in_sync.
Qed.

Lemma loc_settled_sync (r : Response) (s : Location.State) :
  let s' := (Location.fetchSuggestions_settled r s).1 in
  list_in_sync (Location.suggestionsEl s') (Location.results s').
Proof. cbv zeta. rewrite loc_settled_shape. apply loc_shown_in_sync. Qed.

Lemma ppl_settled_sync (r : Response) (s : People.State) :
  let s' := (People.fetchSuggestions_settled r s).1 in
  list_in_sync (People.suggestionsEl s') (People.results s').
Proof. cbv zeta. rewrite ppl_settled_shape. apply ppl_shown_in_sync. Qed.

(** The list stays in sync with [results] through every event, also when
    a mousedown ends with an exception. *)
Lemma loc_step_sync `{Platform} (s : Location.State) (ev : Event) :
  list_in_sync (Location.suggestionsEl s) (Location.results s) →
  list_in_sync (Location.suggestionsEl (Location.step s ev))
               (Location.results (Location.step s ev)).
Proof.
  intros Hs. loc_event_cases s ev;
    try exact Hs; try apply list_in_sync_cleared.
  - destruct (Nat.ltb _ 2); simpl; [apply list_in_sync_cleared|exact Hs].
  - apply loc_settled_sync.
Qed.

Lemma ppl_step_view `{Platform} (s : People.State) (ev : Event) :
  ppl_view_ok s → ppl_view_ok (People.step s ev).
Proof.
  intros [Hs Hc]. unfold ppl_view_ok. ppl_event_cases s ev;
    try (split; [first [exact Hs|apply list_in_sync_cleared]|exact Hc]);
    try (split; [first [exact Hs|apply list_in_sync_cleared]|reflexivity]);
    try (split; [first [exact Hs|apply list_in_sync_cleared]|
                 intros Hall; simpl in Hall; congruence]).
  - destruct (Nat.ltb _ 2); simpl;
      (split; [first [exact Hs|apply list_in_sync_cleared]|exact Hc]).
  - destruct (ppl_settled_frame r (People.set_browser
                 (mark_settled k (People.browser s)) s))
      as (_ & _ & _ & Hsel & Hcon).
    split; [apply ppl_settled_sync|].
    cbv zeta in Hsel, Hcon. rewrite Hsel, Hcon. exact Hc.
Qed.

Lemma render_rows_lookup (items : list Item) (i : nat) (row : Row) :
  render_rows items !! i = Some row →
  ∃ item, items !! i = Some item ∧ row = render_row i item.
Proof.
  unfold render_rows. rewrite list_lookup_imap.
  destruct (items !! i) as [item|]; simpl; [|discriminate].
  intros [= <-]. eauto.
Qed.

(** X16.  In every state the widgets can reach, the list element shows
    exactly the suggestions on offer and is hidden exactly when there are
    none; the row with [data-index] [i] shows the name of the suggestion a
    mousedown on it commits; and the chips of the people selector are the
    chip template applied to the selections, whenever that template has a
    text for each of them (when it has none for one, [renderSelected] throws
    and the chips stay as they were). *)
Theorem widgets_show_their_state `{Platform} (g : Global) (evs : list Event) :
  (let s := Location.run Location.init evs in
   list_in_sync (Location.suggestionsEl s) (Location.results s)
   ∧ ∀ i row, innerHTML (Location.suggestionsEl s) !! i = Some row →
       ∃ item, Location.results s !! i = Some item
               ∧ row_index row = i
               ∧ row_text row = template (escapeHtml (item_name item)))
  ∧
  (let s := People.run (People.init g) evs in
   list_in_sync (People.suggestionsEl s) (People.results s)
   ∧ (forallb chip_renders (People.selected s) = true →
      People.containerEl s = map render_chip (People.selected s))
   ∧ ∀ i row, innerHTML (People.suggestionsEl s) !! i = Some row →
       ∃ item, People.results s !! i = Some item
               ∧ row_index row = i
               ∧ row_text row = template (escapeHtml (item_name item))).
Proof.
  cbv zeta. split.
  - assert (Hs : list_in_sync
                   (Location.suggestionsEl (Location.run Location.init evs))
                   (Location.results (Location.run Location.init evs))).
    { assert (H0 : list_in_sync (Location.suggestionsEl Location.init)
                                (Location.results Location.init))
        by apply list_in_sync_cleared.
      revert H0. generalize Location.init.
      induction evs as [|ev evs IH]; intros s Hs; [exact Hs|].
      simpl. apply IH. now apply loc_step_sync. }
    split; [exact Hs|].
    intros i row Hrow. destruct Hs as [Hhtml _]. rewrite Hhtml in Hrow.
    apply render_rows_lookup in Hrow as (item & Hitem & ->). eauto.
  - assert (Hv : ppl_view_ok (People.run (People.init g) evs)).
    { assert (H0 : ppl_view_ok (People.init g))
        by (split; [apply list_in_sync_cleared|reflexivity]).
      revert H0. generalize (People.init g).
      induction evs as [|ev evs IH]; intros s Hs; [exact Hs|].
      simpl. apply IH. now apply ppl_step_view. }
    destruct Hv as [Hs Hc]. split; [exact Hs|]. split; [exact Hc|].
    intros i row Hrow. destruct Hs as [Hhtml _]. rewrite Hhtml in Hrow.
    apply render_rows_lookup in Hrow as (item & Hitem & ->). eauto.
Qed.

(** ** The widgets: timers and queries *)

Lemma at_most_one_fetch_timer (timeout : option nat) (b : Browser) :
  timers_ok timeout b → (length (fetch_timers b) ≤ 1)%nat.
Proof.
  intros (_ & _ & Hnd & Hf). unfold fetch_timers.
  induction (timers b) as [|t ts IH]; simpl; [lia|].
  simpl in Hnd. apply NoDup_cons in Hnd as [Ht Hnd].
  apply Forall_cons in Hf as [Hft Hf].
  destruct (is_fetch_timer t) eqn:E; [|auto].
  rewrite filter_none; [simpl; lia|].
  intros t' Ht'. destruct (is_fetch_timer t') eqn:E'; [|reflexivity].
  exfalso. apply Ht. rewrite Forall_forall in Hf.
  pose proof (Hf t' Ht' E') as H1. pose proof (Hft eq_refl) as H2.
  apply list_elem_of_fmap. exists t'. split; [congruence|exact Ht'].
Qed.

(** X17.  In every state a widget can reach, at most one fetch timer is
    pending. *)
Theorem one_pending_fetch_timer `{Platform} (g : Global) (evs : list Event) :
  (length (fetch_timers (Location.browser (Location.run Location.init evs)))
   ≤ 1)%nat
  ∧ (length (fetch_timers (People.browser (People.run (People.init g) evs)))
     ≤ 1)%nat.
Proof.
  split.
  - eapply at_most_one_fetch_timer. apply loc_reachable_timers_ok.
  - eapply at_most_one_fetch_timer. apply ppl_reachable_timers_ok.
Qed.













(** ** Location autocomplete: the value handed to the form *)

(** X19.  [getValue()] returns the trimmed text right after the user has
    typed, the name of the suggestion right after a suggestion with a
    string name has been committed (the field then shows that name and the
    list is cleared), and the empty string right after a reset. *)
Theorem getValue_follows_the_field `{Platform} (s : Location.State) :
  (∀ text, Location.getValue (Location.step s (EvInput text))
           = Some (JStr (trim text)))
  ∧ (∀ index x name,
       Location.results s !! index = Some x →
       item_name x = Some (JStr name) →
       let s' := Location.step s (EvMousedown (Some index)) in
       Location.getValue s' = Some (JStr name)
       ∧ input_value (Location.inputEl s') = name
       ∧ list_cleared (Location.suggestionsEl s') (Location.results s'))
  ∧ Location.getValue (Location.step s EvReset) = Some (JStr "").
Proof.
  split; [|split].
  - intros text. unfold Location.getValue.
    assert (Hs : Location.selectedValue (Location.step s (EvInput text))
                 = Some (JStr (trim text))
                 ∧ input_value (Location.inputEl (Location.step s (EvInput text)))
                   = text).
    { unfold Location.step, Location.handle, Location.on_input,
        Location.clearSuggestions. unfold_monad. simpl.
      destruct (Nat.ltb _ 2); simpl; auto. }
    destruct Hs as [-> ->]. unfold js_or. now destruct (truthy _).
  - intros index x name Hx Hname. cbv zeta.
    unfold Location.getValue, Location.step, Location.handle,
      Location.on_mousedown, Location.clearSuggestions. unfold_monad.
    simpl. rewrite Hx. simpl. rewrite Hname. simpl.
    split; [|split; [reflexivity|unfold list_cleared; auto]].
    unfold js_or. simpl. destruct (String.eqb name "") eqn:E; simpl;
      [|reflexivity].
    apply String.eqb_eq in E. now subst name.
  - reflexivity.
Qed.

Lemma getValue_follows_the_field_witness :
  let s := @Location.run test_platform Location.init
             [ EvInput "pa"; EvTimer 1;
               EvResponse 0 (ok_json (JArr pa_places)) ] in
  let s' := @Location.step test_platform s (EvMousedown (Some 1)) in
  (Location.getValue s' = Some (JStr "Padova")
   ∧ input_value (Location.inputEl s') = "Padova"
   ∧ list_cleared (Location.suggestionsEl s') (Location.results s'))
  ∧ Location.getValue
      (@Location.step test_platform s (EvInput (nbsp +:+ "a " +:+ nbsp)))
    = Some (JStr "a").
Proof.
  cbv zeta.
  destruct (@getValue_follows_the_field test_platform
              (@Location.run test_platform Location.init
                 [ EvInput "pa"; EvTimer 1;
                   EvResponse 0 (ok_json (JArr pa_places)) ]))
    as (Hinput & Hcommit & _).
  split.
  - apply (Hcommit 1 (mkItem (Some (JNum 2)) (Some (JStr "Padova")) undefined)
                   "Padova"); reflexivity.
  - apply (Hinput (nbsp +:+ "a " +:+ nbsp)).
Defined.

(** ** Suggestion rows *)

Lemma template_escapeHtml_clean (v : JsVal) (c : ascii) :
  markup_char c = true → escapable v = true →
  occurs c (template (escapeHtml v)) = false.
Proof.
  intros Hc Hv. destruct v as [[]|]; simpl in Hv; try discriminate.
  - reflexivity.
  - simpl. rewrite replace_class_spec. now apply spec_escape_clean.
  - reflexivity.
Qed.

(** X20.  A suggestion row never carries markup taken from a name: when
    the name of a suggestion is a string (or is missing), none of [<], [>]
    and the two quotes occurs in the text and the [alt] of its row, and
    the same holds for the [src] when the avatar address is a string (or
    is missing). *)
Theorem rows_escape_names (index : nat) (item : Item) (c : ascii) :
  markup_char c = true →
  (escapable (item_name item) = true →
     occurs c (row_text (render_row index item)) = false
     ∧ occurs c (row_alt (render_row index item)) = false)
  ∧ (escapable (item_avatarUrl item) = true →
       occurs c (row_src (render_row index item)) = false).
Proof.
  intros Hc. split.
  - intros Hn. simpl. split; now apply template_escapeHtml_clean.
  - intros Ha. simpl. apply template_escapeHtml_clean; [exact Hc|].
    unfold js_or. destruct (truthy (item_avatarUrl item)); [exact Ha|reflexivity].
Qed.

Lemma rows_escape_names_witness :
  occurs "<" (row_text (render_row 0
                 (mkItem (Some (JNum 1)) (Some (JStr "<img onerror=x>"))
                         undefined))) = false.
Proof.
  destruct (rows_escape_names 0
              (mkItem (Some (JNum 1)) (Some (JStr "<img onerror=x>")) undefined)
              "<" eq_refl) as [Hname _].
  apply Hname. reflexivity.
Defined.

(** ** People selector: removing a chip *)

Lemma js_strict_eq_string (v : JsVal) (id : string) :
  js_strict_eq v (Some (JStr id)) = true → v = Some (JStr id).
Proof.
  destruct v as [[]|]; simpl; try discriminate.
  intros Hs. apply String.eqb_eq in Hs. now subst.
Qed.

Lemma ids_distinct_matches (l : list Item) (id : string) :
  ids_distinct l = true →
  (length (List.filter (fun p => js_strict_eq (item_id p) (Some (JStr id))) l)
   ≤ 1)%nat.
Proof.
  induction l as [|p l IH]; simpl; [lia|].
  intros Hd. apply andb_prop in Hd as [Hp Hd].
  destruct (js_strict_eq (item_id p) (Some (JStr id))) eqn:E; [|auto].
  rewrite filter_none; [simpl; lia|].
  intros q Hq. destruct (js_strict_eq (item_id q) (Some (JStr id))) eqn:E';
    [|reflexivity].
  apply js_strict_eq_string in E, E'.
  rewrite forallb_forall in Hp. apply list_elem_of_In in Hq.
  specialize (Hp q Hq). rewrite E, E' in Hp. simpl in Hp.
  now rewrite String.eqb_refl in Hp.
Qed.

Lemma ppl_remove_selected `{Platform} (s : People.State) (id : string) :
  People.selected (People.step s (EvRemoveClick (Some id)))
  = List.filter (fun p => negb (js_strict_eq (item_id p) (Some (JStr id))))
                (People.selected s).
Proof.
  unfold People.step, People.handle, People.on_remove_click,
    People.renderSelected. unfold_monad. simpl.
  destruct (List.filter _ (People.selected s)) as [|y l] eqn:E; simpl;
    [now rewrite ?E|].
  destruct (chip_renders y && forallb chip_renders l); simpl; now rewrite ?E.
Qed.

(** X21.  In any state of the people selector, a click on the remove
    button of a chip removes the selections whose id is the string on the
    button and no other: afterwards no selection has that id and every
    selection with another id is still there.  When the selections have
    distinct ids at most one selection has gone; and they have distinct
    ids in every state reached by a run in which no handler has ended with
    an exception. *)
Theorem remove_chip_removes_one `{Platform} (s : People.State) (id : string) :
  let s' := People.step s (EvRemoveClick (Some id)) in
  Forall (fun p => item_id p ≠ Some (JStr id)) (People.selected s')
  ∧ (∀ p, p ∈ People.selected s → item_id p ≠ Some (JStr id) →
          p ∈ People.selected s')
  ∧ (ids_distinct (People.selected s) = true →
     (length (People.selected s) ≤ S (length (People.selected s')))%nat)
  ∧ (∀ (g : Global) (evs : list Event),
       s = People.run (People.init g) evs →
       ppl_all_normal (People.init g) evs →
       ids_distinct (People.selected s) = true).
Proof.
  cbv zeta. rewrite ppl_remove_selected.
  split; [|split; [|split]].
  - apply Forall_forall. intros p Hp. apply list_elem_of_In in Hp.
    apply List.filter_In in Hp as [_ Hp]. apply negb_true_iff in Hp.
    intros Hid. rewrite Hid in Hp. simpl in Hp.
    now rewrite String.eqb_refl in Hp.
  - intros p Hp Hid. apply list_elem_of_In. apply List.filter_In.
    split; [now apply list_elem_of_In|].
    apply negb_true_iff.
    destruct (js_strict_eq (item_id p) (Some (JStr id))) eqn:E; [|reflexivity].
    apply js_strict_eq_string in E. contradiction.
  - intros Hd.
    pose proof (ids_distinct_matches _ id Hd) as Hm.
    pose proof (List.filter_length
                  (fun p => js_strict_eq (item_id p) (Some (JStr id)))
                  (People.selected s)) as Hlen.
    lia.
  - intros g evs -> Hn.
    now destruct (ppl_run_inv _ evs Hn (ppl_init_inv g)) as (Hd & _).
Qed.

(** X22.  A selection whose id is not a string cannot be removed: the
    remove button carries the text of the id, and the comparison with the
    id itself is strict, so the click leaves such a selection in place
    whatever button is clicked. *)
Theorem chip_with_non_string_id_stays `{Platform} (s : People.State)
    (target : option string) (p : Item) :
  p ∈ People.selected s →
  not_a_string (item_id p) = true →
  p ∈ People.selected (People.step s (EvRemoveClick target)).
Proof.
  intros Hp Hid. destruct target as [id|]; [|exact Hp].
  rewrite ppl_remove_selected. apply list_elem_of_In. apply List.filter_In.
  split; [now apply list_elem_of_In|].
  apply negb_true_iff.
  destruct (js_strict_eq (item_id p) (Some (JStr id))) eqn:E; [|reflexivity].
  apply js_strict_eq_string in E. rewrite E in Hid. discriminate.
Qed.

Lemma chip_with_non_string_id_stays_witness :
  let s := @People.run test_platform (People.init sample_global)
             [ EvInput "se"; EvTimer 1;
               EvResponse 0 (ok_json (JArr [ person_numbered ]));
               EvMousedown (Some 0) ] in
  map chip_id (People.containerEl s) = [ "7" ]
  ∧ People.to_item person_numbered
    ∈ People.selected (@People.step test_platform s (EvRemoveClick (Some "7"))).
Proof.
  cbv zeta. split; [reflexivity|].
  apply (@chip_with_non_string_id_stays test_platform).
  - vm_compute. apply list_elem_of_here.
  - reflexivity.
Defined.

(** ** People selector: the session *)

Lemma ppl_global_frame `{Platform} (s : People.State) (ev : Event) :
  (∀ k status body, ev = EvResponse k (HttpResponse status body) →
                    in_flight k (People.browser s) = true → status ≠ 401) →
  People.global (People.step s ev) = People.global s.
Proof.
  intros Hev. ppl_event_cases s ev; try reflexivity.
  - destruct (Nat.ltb _ 2); reflexivity.
  - rewrite ppl_settled_shape. cbv zeta.
    cbn [fst People.global People.set_results People.set_suggestionsEl
         People.set_global People.set_browser].
    unfold fetchWithAuth_settle.
    destruct r as [|status body]; [reflexivity|].
    pose proof (Hev k status body eq_refl Hk) as Hne.
    apply Nat.eqb_neq in Hne. now rewrite Hne.
Qed.

(** X23.  The people selector changes the session in one case only: a 401
    answer to a search in flight signs the user out (exactly as [logout]
    does) and clears the list; every other event, every other answer
    included, leaves the store, the current user and the page address as
    they are. *)
Theorem search_signs_out_only_on_401 `{Platform} (s : People.State)
    (ev : Event) :
  ((∀ k status body, ev = EvResponse k (HttpResponse status body) →
                     in_flight k (People.browser s) = true → status ≠ 401) →
   People.global (People.step s ev) = People.global s)
  ∧ (∀ k body, ev = EvResponse k (HttpResponse 401 body) →
               in_flight k (People.browser s) = true →
               People.global (People.step s ev) = logout (People.global s)
               ∧ list_cleared (People.suggestionsEl (People.step s ev))
                              (People.results (People.step s ev))).
Proof.
  split; [apply ppl_global_frame|].
  intros k body -> Hk.
  unfold People.step, People.handle, People.on_response,
    People.fetchSuggestions_settled, People.fetchSuggestions_try,
    People.await_fetchWithAuth, People.clearSuggestions. unfold_monad.
  simpl. rewrite Hk. simpl. unfold list_cleared. auto.
Qed.

Lemma search_signs_out_only_on_401_witness :
  let s := @People.run test_platform (People.init sample_global)
             [ EvInput "bo"; EvTimer 1 ] in
  People.global (@People.step test_platform s EvBlur) = People.global s
  ∧ getToken (localStorage
                (People.global
                   (@People.step test_platform s
                      (EvResponse 0 (HttpResponse 401 None))))) = None.
Proof.
  cbv zeta. split.
  - apply (@search_signs_out_only_on_401 test_platform).
    intros k status body Hev. discriminate Hev.
  - destruct (@search_signs_out_only_on_401 test_platform
                (@People.run test_platform (People.init sample_global)
                   [ EvInput "bo"; EvTimer 1 ])
                (EvResponse 0 (HttpResponse 401 None))) as [_ H401].
    destruct (H401 0 None eq_refl eq_refl) as [Hg _].
    rewrite Hg. reflexivity.
Defined.

(** ** The search field *)

Lemma search_cancel_inv (main dashboard : bool) (s : Search.State) :
  search_inv main dashboard s →
  Search.cancel (Search.debounceHandle s) (Search.pending s) = [].
Proof.
  intros (_ & _ & [Hp|(id & Hh & Hp)]); rewrite Hp.
  - unfold Search.cancel. now destruct (Search.debounceHandle s).
  - rewrite Hh. simpl. now rewrite Nat.eqb_refl.
Qed.

Lemma search_step_inv `{Platform} (main dashboard : bool) (s : Search.State)
    (ev : Search.Event) :
  search_inv main dashboard s → search_inv main dashboard (Search.step s ev).
Proof.
  intros Hinv. pose proof Hinv as (Hm & Hd & Hp).
  destruct ev as [text|id]; simpl.
  - unfold search_inv. simpl. rewrite (search_cancel_inv _ _ _ Hinv).
    repeat split; try assumption. right. eauto.
  - unfold Search.on_timer.
    destruct (existsb (Nat.eqb id) (Search.pending s)) eqn:E; [|exact Hinv].
    unfold Search.search_now. simpl.
    assert (Hnil : List.filter (fun i => negb (Nat.eqb i id)) (Search.pending s)
                   = []).
    { destruct Hp as [Hp|(id' & _ & Hp)]; rewrite Hp in *; [reflexivity|].
      simpl in *. rewrite orb_false_r in E. apply Nat.eqb_eq in E. subst id'.
      now rewrite Nat.eqb_refl. }
    destruct (negb _ && negb _); unfold search_inv; simpl; rewrite Hnil; auto.
Qed.

Lemma search_run_inv `{Platform} (main dashboard : bool) (s : Search.State)
    (evs : list Search.Event) :
  search_inv main dashboard s → search_inv main dashboard (Search.run s evs).
Proof.
  revert s. induction evs as [|ev evs IH]; intros s Hs; [exact Hs|].
  simpl. apply IH. now apply search_step_inv.
Qed.

Lemma search_inputs_frame `{Platform} (texts : list string) (s : Search.State) :
  Search.href (Search.run s (map Search.Input texts)) = Search.href s
  ∧ Search.loads (Search.run s (map Search.Input texts)) = Search.loads s.
Proof.
  revert s. induction texts as [|t texts IH]; intros s; [auto|].
  simpl. destruct (IH (Search.on_input t s)) as [-> ->]. auto.
Qed.

(** X24.  The search field is debounced.  Take any state it can reach and a
    burst of 'input' events with no timer firing in between: the burst
    leaves exactly one timer pending and has searched nothing.  When that
    timer fires, the page searches once, for the trimmed text of the last
    event: on a page without a feed it goes to [index.html?q=] followed by
    the encoded text, or to [index.html] when the text is empty; on a page
    with feeds it reloads each feed it has and stays where it is. *)
Theorem search_debounce `{Platform} (text0 : string) (main dashboard : bool)
    (address : string) (evs : list Search.Event) (texts : list string)
    (last : string) :
  let s0 := Search.run (Search.init text0 main dashboard address) evs in
  let s := Search.run s0 (map Search.Input (texts ++ [last])) in
  ∃ id,
    Search.pending s = [ id ]
    ∧ Search.href s = Search.href s0
    ∧ Search.loads s = Search.loads s0
    ∧ let s' := Search.step s (Search.Timer id) in
      Search.pending s' = []
      ∧ if negb main && negb dashboard
        then Search.loads s' = Search.loads s0
             ∧ Search.href s'
               = (if Nat.ltb 0 (js_length (trim last))
                  then "index.html?q=" +:+ encodeURIComponent (trim last)
                  else "index.html")
        else Search.href s' = Search.href s0
             ∧ Search.loads s'
               = Search.loads s0
                 ++ (if main
                     then [ ("photo-grid", loadFeed_url (trim last)) ] else [])
                 ++ (if dashboard
                     then [ ("dashboard-photo-grid", loadFeed_url (trim last)) ]
                     else []).
Proof.
  cbv zeta.
  set (s0 := Search.run (Search.init text0 main dashboard address) evs).
  assert (H0 : search_inv main dashboard s0).
  { apply search_run_inv. unfold search_inv. simpl. auto. }
  rewrite map_app. unfold Search.run at 1 2 3 4 5 6 7 8.
  rewrite !fold_left_app. simpl.
  fold (Search.run s0 (map Search.Input texts)).
  set (s1 := Search.run s0 (map Search.Input texts)).
  assert (H1 : search_inv main dashboard s1) by now apply search_run_inv.
  destruct (search_inputs_frame texts s0) as [Hhref Hloads].
  fold s1 in Hhref, Hloads.
  pose proof H1 as (Hm & Hd & _).
  exists (Search.next_id s1).
  unfold Search.on_input at 1. simpl.
  rewrite (search_cancel_inv _ _ _ H1). simpl.
  split; [reflexivity|]. split; [exact Hhref|]. split; [exact Hloads|].
  unfold Search.on_timer. simpl.
  rewrite (search_cancel_inv _ _ _ H1). simpl.
  rewrite Nat.eqb_refl. simpl.
  unfold Search.search_now, Search.refreshFeeds. simpl.
  rewrite ?Nat.eqb_refl. simpl. rewrite ?Hm, ?Hd. simpl.
  destruct (negb main && negb dashboard); simpl.
  - auto.
  - rewrite Hhref, Hloads. auto.
Qed.

(** ** The people of a photo card *)

Lemma person_id_needs_person (p : Json) :
  truthy (person_id_of (Some p)) = true → truthy (Some p) = true.
Proof.
  destruct p as [|b|n|str|l|fs]; try reflexivity; simpl; discriminate.
Qed.

Lemma mapM_Forall2 {A B} (f : A → Error + B) (l : list A) (ys : list B) :
  mapM f l = inr ys → Forall2 (fun x y => f x = inr y) l ys.
Proof.
  revert ys. induction l as [|x l IH]; simpl; intros ys Hm.
  - injection Hm as <-. constructor.
  - destruct (f x) as [e|y] eqn:Hx; [discriminate|].
    destruct (mapM f l) as [e|ys']; [discriminate|].
    injection Hm as <-. constructor; auto.
Qed.

Lemma mapM_all {A B} (f : A → Error + B) (l : list A) :
  Forall (fun x => ∃ y, f x = inr y) l → ∃ ys, mapM f l = inr ys.
Proof.
  induction 1 as [|x l [y Hy] _ [ys Hys]]; simpl; [eauto|].
  rewrite Hy, Hys. eauto.
Qed.

Lemma mapM_some_throws {A B} (f : A → Error + B) (l : list A) (e : Error) :
  Forall (fun x => (∃ y, f x = inr y) ∨ f x = inl e) l →
  Exists (fun x => f x = inl e) l →
  mapM f l = inl e.
Proof.
  induction 1 as [|x l Hx Hl IH]; intros Hex; [inversion Hex|].
  simpl. destruct Hx as [[y Hy]|Hx]; [|now rewrite Hx].
  rewrite Hy. apply Exists_cons in Hex as [Hex|Hex]; [congruence|].
  now rewrite (IH Hex).
Qed.

Lemma person_name_of_error (p : JsVal) (e : Error) :
  person_name_of p = inl e → e = TypeError.
Proof.
  unfold person_name_of, to_text.
  destruct (person_raw_name p) as [[| | | | |fields]|]; try discriminate;
    try (destruct (truthy _); [|discriminate];
         destruct (printable _); [discriminate|congruence]).
  destruct (assoc "toString" fields); discriminate.
Qed.

(** The callback gives a link for an entry with an id it can render, and
    throws a TypeError for an entry it cannot. *)
Lemma person_link_cases `{Platform} (p : Json) :
  person_has_id p = true →
  if link_renders p
  then ∃ name,
         person_name_of (Some p) = inr name
         ∧ person_link p
           = inr (LinkAnchor
                    ("profile.html?id="
                     +:+ encodeURIComponent (template (person_id_of (Some p))))
                    (spec_escape name))
  else person_link p = inl TypeError.
Proof.
  unfold person_has_id, link_renders, person_link, to_text. intros Hp.
  apply andb_prop in Hp as [_ Hid]. rewrite Hid. simpl.
  destruct (person_name_of (Some p)) as [e|name] eqn:Hname.
  - now rewrite (person_name_of_error _ _ Hname).
  - destruct (printable (person_id_of (Some p))); [|reflexivity].
    exists name. split; [reflexivity|]. simpl.
    now rewrite replace_class_spec.
Qed.

(** X25.  When [buildPeopleMarkup] returns, every entry it has rendered is
    a link to a profile: the plain-text branch of its callback is never
    taken, because the entries without an id are filtered out first.  There
    is one link for each entry with an id, in their order, to
    [profile.html?id=] followed by the encoded text of the id, and no link
    text carries [<], [>] or a quote.  It returns exactly when the callback
    has a result for every entry with an id; when the id or the name of
    one of them has no text it throws a TypeError.  A value that is not an
    array gives no markup at all. *)
Theorem buildPeopleMarkup_only_links `{Platform} (people : JsVal) (c : ascii) :
  markup_char c = true →
  (∀ links, buildPeopleMarkup people = inr links →
     forallb is_anchor links = true
     ∧ Forall (fun l => occurs c (link_text l) = false) links
     ∧ (∀ entries, people = Some (JArr entries) →
          map link_href links
          = map (fun p => Some ("profile.html?id="
                                +:+ encodeURIComponent
                                      (template (person_id_of (Some p)))))
                (List.filter (fun p => truthy (person_id_of (Some p)))
                             entries)))
  ∧ (∀ entries, people = Some (JArr entries) →
       if forallb link_renders (List.filter person_has_id entries)
       then ∃ links, buildPeopleMarkup people = inr links
       else buildPeopleMarkup people = inl TypeError)
  ∧ ((∀ entries, people ≠ Some (JArr entries)) →
       buildPeopleMarkup people = inr []).
Proof.
  intros Hc.
  assert (Hfilter : ∀ entries,
            List.filter person_has_id entries
            = List.filter (fun p => truthy (person_id_of (Some p))) entries).
  { intros entries. apply List.filter_ext. intros p. unfold person_has_id.
    destruct (truthy (person_id_of (Some p))) eqn:E.
    - now rewrite (person_id_needs_person p E).
    - apply andb_false_r. }
  assert (Hlinks : ∀ entries links,
            mapM person_link (List.filter person_has_id entries) = inr links →
            Forall2 (fun p l =>
                       ∃ name, l = LinkAnchor
                                     ("profile.html?id="
                                      +:+ encodeURIComponent
                                            (template (person_id_of (Some p))))
                                     (spec_escape name))
                    (List.filter person_has_id entries) links).
  { intros entries links Hm. apply mapM_Forall2 in Hm.
    assert (Hall : Forall (fun p => person_has_id p = true)
                          (List.filter person_has_id entries)).
    { apply Forall_forall. intros p Hp. apply list_elem_of_In in Hp.
      now apply List.filter_In in Hp as [_ Hp]. }
    revert Hall. induction Hm as [|p l ps ls Hpl _ IH]; intros Hall;
      [constructor|].
    apply Forall_cons in Hall as [Hp Hall]. constructor; [|auto].
    pose proof (person_link_cases p Hp) as Hcase.
    destruct (link_renders p).
    - destruct Hcase as (name & _ & Hl). rewrite Hl in Hpl.
      injection Hpl as <-. eauto.
    - rewrite Hcase in Hpl. discriminate. }
  split; [|split].
  - intros links Hb.
    destruct people as [[| | | |entries|]|];
      try (injection Hb as <-; repeat split; try constructor;
           intros entries [=]).
    simpl in Hb. pose proof (Hlinks entries links Hb) as H2.
    split; [|split].
    + clear Hb. induction H2 as [|p l ps ls (name & ->) _ IH]; [reflexivity|].
      simpl. exact IH.
    + clear Hb. induction H2 as [|p l ps ls (name & ->) _ IH]; constructor.
      * simpl. now apply spec_escape_clean.
      * exact IH.
    + intros entries' [= <-]. rewrite <- Hfilter. clear Hb.
      induction H2 as [|p l ps ls (name & ->) _ IH]; [reflexivity|].
      simpl. now rewrite IH.
  - intros entries ->. simpl.
    assert (Hcases : Forall (fun p => (∃ l, person_link p = inr l)
                                      ∨ person_link p = inl TypeError)
                            (List.filter person_has_id entries)
                     ∧ Forall (fun p => link_renders p = true ↔
                                        ∃ l, person_link p = inr l)
                              (List.filter person_has_id entries)).
    { split; apply Forall_forall; intros p Hp; apply list_elem_of_In in Hp;
        apply List.filter_In in Hp as [_ Hp];
        pose proof (person_link_cases p Hp) as Hcase;
        destruct (link_renders p).
      - left. destruct Hcase as (name & _ & ->). eauto.
      - now right.
      - split; [intros _|reflexivity]. destruct Hcase as (name & _ & ->). eauto.
      - split; [discriminate|]. intros [l Hl]. rewrite Hcase in Hl.
        discriminate. }
    destruct Hcases as [Hor Hiff].
    destruct (forallb link_renders (List.filter person_has_id entries)) eqn:E.
    + apply mapM_all. rewrite forallb_forall in E.
      rewrite Forall_forall in Hiff. apply Forall_forall. intros p Hp.
      apply Hiff; [exact Hp|]. apply E. now apply list_elem_of_In.
    + apply (mapM_some_throws _ _ _ Hor).
      apply Exists_exists.
      assert (Hex : ∃ p, In p (List.filter person_has_id entries)
                         ∧ link_renders p = false).
      { clear Hor Hiff. induction (List.filter person_has_id entries)
          as [|p l IH]; simpl in E; [discriminate|].
        destruct (link_renders p) eqn:Ep; simpl in E.
        - destruct (IH E) as (q & Hq & Hr). exists q. split; [now right|exact Hr].
        - exists p. split; [now left|exact Ep]. }
      destruct Hex as (p & Hp & Hr). exists p.
      split; [now apply list_elem_of_In|].
      rewrite Forall_forall in Hor, Hiff. apply list_elem_of_In in Hp.
      destruct (Hor p Hp) as [Hl|Hl]; [|exact Hl].
      apply (Hiff p Hp) in Hl. congruence.
  - intros Hna. destruct people as [[| | | |entries|]|]; try reflexivity.
    now destruct (Hna entries).
Qed.

Lemma buildPeopleMarkup_only_links_witness :
  @buildPeopleMarkup test_platform
    (Some (JArr [ JObj [ ("userId", JStr "u2"); ("name", JStr "Bob <b>") ];
                  JObj [ ("name", JStr "No id") ];
                  JNull ]))
  = inr [ LinkAnchor "profile.html?id=u2" "Bob &lt;b&gt;" ]
  ∧ @buildPeopleMarkup test_platform (Some (JStr "nobody")) = inr []
  ∧ @buildPeopleMarkup test_platform
      (Some (JArr [ JObj [ ("userId", no_text); ("name", JStr "Eve") ] ]))
    = inl TypeError.
Proof.
  split; [reflexivity|].
  destruct (@buildPeopleMarkup_only_links test_platform (Some (JStr "nobody"))
              "<" eq_refl) as (_ & _ & Hna).
  split; [apply Hna; discriminate|].
  destruct (@buildPeopleMarkup_only_links test_platform
              (Some (JArr [ JObj [ ("userId", no_text);
                                   ("name", JStr "Eve") ] ]))
              "<" eq_refl) as (_ & Hthrow & _).
  exact (Hthrow _ eq_refl).
Defined.

(** ** The like state *)

(** X26.  The detail page and the feed card agree on whether the viewer
    likes a photo; the photo is marked liked only when a non-empty user id
    is stored and the list of likes holds it, so that the count shown is
    then at least one; with no stored user id nothing is marked liked. *)
Theorem like_state_agrees (ls : Storage) (photo : Json) (liked : bool)
    (count : nat) :
  updateLikeState ls photo = inr (liked, count) →
  liked = card_liked ls photo
  ∧ (liked = true →
       (1 ≤ count)%nat
       ∧ ∃ userId, stored_user_id ls = Some userId ∧ userId ≠ "")
  ∧ (stored_user_id ls = None → liked = false).
Proof.
  unfold updateLikeState, card_liked, get_prop_opt.
  destruct (get_prop (Some photo) "likes") as [e|likes]; [discriminate|].
  intros [= <- <-]. unfold str_truthy.
  destruct (stored_user_id ls) as [userId|]; simpl.
  - destruct (String.eqb userId "") eqn:E; simpl.
    + repeat split; try discriminate.
    + apply String.eqb_neq in E.
      split; [now destruct likes as [[]|]|].
      split; [|discriminate]. intros Hl. split; [|eauto].
      destruct likes as [[| | | |l|]|]; simpl in Hl; try discriminate.
      destruct l; [discriminate|simpl; lia].
  - repeat split; try discriminate.
Qed.

Lemma like_state_agrees_witness :
  true = card_liked sample_store (JObj [ ("likes", JArr [ JStr "u9"; JStr "u1" ]) ])
  ∧ (1 ≤ 2)%nat.
Proof.
  destruct (like_state_agrees sample_store
              (JObj [ ("likes", JArr [ JStr "u9"; JStr "u1" ]) ]) true 2 eq_refl)
    as (Hagree & Hliked & _).
  split; [exact Hagree|]. now destruct (Hliked eq_refl).
Defined.

(** ** Losing focus *)

Lemma handle_fresh_browser0 : handle_fresh None browser0.
Proof.
  split; [apply timers_ok_browser0|]. split; [discriminate|constructor].
Qed.

Lemma handle_fresh_clearTimeout (timeout : option nat) (id : nat) (b : Browser) :
  handle_fresh timeout b → handle_fresh timeout (clearTimeout id b).
Proof.
  intros (Hok & Hl & Hk). split; [now apply timers_ok_clearTimeout|].
  split; [exact Hl|].
  apply Forall_forall. intros t Ht. apply list_elem_of_filter in Ht as [_ Ht].
  rewrite Forall_forall in Hk. now apply Hk.
Qed.

Lemma handle_fresh_clear_if_set (timeout : option nat) (b : Browser) :
  handle_fresh timeout b →
  handle_fresh timeout (clear_if_set timeout b)
  ∧ fetch_timers (clear_if_set timeout b) = [].
Proof.
  intros Hf. pose proof Hf as (Hok & Hl & Hk).
  destruct (timers_ok_clear_if_set timeout timeout b Hok) as [Hok' Hnone].
  split; [|exact Hnone].
  unfold clear_if_set in *. destruct timeout as [id|]; [|exact Hf].
  destruct (Nat.eqb id 0); [exact Hf|]. now apply handle_fresh_clearTimeout.
Qed.

Lemma handle_fresh_setTimeout_fetch (timeout : option nat) (value : string)
    (delay : nat) (b : Browser) :
  handle_fresh timeout b → fetch_timers b = [] →
  handle_fresh (Some (next_timer b)) (setTimeout (CbFetch value) delay b).2.
Proof.
  intros (Hok & Hl & Hk) Hnone.
  split; [exact (timers_ok_setTimeout_fetch timeout value delay b Hok Hnone)|].
  split; [intros id [= <-]; simpl; lia|].
  simpl. apply Forall_app. split.
  - apply Forall_forall. intros t Ht _ [= Hid].
    destruct Hok as (_ & Hr & _). rewrite Forall_forall in Hr.
    specialize (Hr t Ht). lia.
  - constructor; [discriminate|constructor].
Qed.

Lemma handle_fresh_setTimeout_clear (timeout : option nat) (delay : nat)
    (b : Browser) :
  handle_fresh timeout b → handle_fresh timeout (setTimeout CbClear delay b).2.
Proof.
  intros (Hok & Hl & Hk).
  split; [now apply timers_ok_setTimeout_clear|].
  split; [intros id Hid; simpl; specialize (Hl id Hid); lia|].
  simpl. apply Forall_app. split; [exact Hk|].
  constructor; [|constructor]. simpl. intros _ Hid.
  specialize (Hl _ Hid). lia.
Qed.

Lemma timer_stays_clearTimeout (t : Timer) (id : nat) (b : Browser) :
  t ∈ timers b → timer_id t ≠ id → t ∈ timers (clearTimeout id b).
Proof.
  intros Ht Hne. unfold clearTimeout. simpl.
  apply list_elem_of_filter. auto.
Qed.

Lemma timer_stays_clear_if_set (t : Timer) (timeout : option nat) (b : Browser) :
  t ∈ timers b → timeout ≠ Some (timer_id t) → t ∈ timers (clear_if_set timeout b).
Proof.
  intros Ht Hne. unfold clear_if_set. destruct timeout as [id|]; [|exact Ht].
  destruct (Nat.eqb id 0); [exact Ht|].
  apply timer_stays_clearTimeout; [exact Ht|congruence].
Qed.

Lemma find_timer_unique (t : Timer) (b : Browser) :
  NoDup (map timer_id (timers b)) → t ∈ timers b →
  find_timer (timer_id t) b = Some t.
Proof.
  unfold find_timer. induction (timers b) as [|t' ts IH]; simpl.
  - intros _ Ht. inversion Ht.
  - intros Hnd Ht. apply NoDup_cons in Hnd as [Hn Hnd].
    apply elem_of_cons in Ht as [->|Ht]; [now rewrite Nat.eqb_refl|].
    destruct (Nat.eqb (timer_id t') (timer_id t)) eqn:E; [|auto].
    apply Nat.eqb_eq in E. exfalso. apply Hn. rewrite E.
    apply list_elem_of_fmap. eauto.
Qed.

Lemma loc_step_handle_fresh `{Platform} (s : Location.State) (ev : Event) :
  handle_fresh (Location.timeout s) (Location.browser s) →
  handle_fresh (Location.timeout (Location.step s ev))
               (Location.browser (Location.step s ev)).
Proof.
  intros Hf. loc_event_cases s ev; try exact Hf.
  - destruct (handle_fresh_clear_if_set _ _ Hf) as [Hf' Hnone].
    destruct (Nat.ltb _ 2); simpl; [exact Hf'|].
    exact (handle_fresh_setTimeout_fetch _ _ 250 _ Hf' Hnone).
  - exact (handle_fresh_clearTimeout _ id _ Hf).
  - exact (handle_fresh_clearTimeout _ id _ Hf).
  - destruct (loc_settled_frame r (Location.set_browser
                 (mark_settled k (Location.browser s)) s)) as (Hb & Ht & _).
    cbv zeta in Hb, Ht. rewrite Hb, Ht. exact Hf.
  - exact (handle_fresh_setTimeout_clear _ 150 _ Hf).
Qed.

Lemma loc_step_timer_stays `{Platform} (s : Location.State) (ev : Event)
    (bt : Timer) :
  handle_fresh (Location.timeout s) (Location.browser s) →
  is_fetch_timer bt = false →
  bt ∈ timers (Location.browser s) →
  ev ≠ EvTimer (timer_id bt) →
  bt ∈ timers (Location.browser (Location.step s ev)).
Proof.
  intros Hf Hc Ht Hev. pose proof Hf as (_ & _ & Hall).
  rewrite Forall_forall in Hall. pose proof (Hall bt Ht Hc) as Hne.
  clear Hall.
  loc_event_cases s ev; try exact Ht.
  - pose proof (timer_stays_clear_if_set bt _ _ Ht Hne) as Ht'.
    destruct (Nat.ltb _ 2); simpl; [exact Ht'|].
    apply elem_of_app. left. exact Ht'.
  - apply (timer_stays_clearTimeout bt id _ Ht). congruence.
  - apply (timer_stays_clearTimeout bt id _ Ht). congruence.
  - destruct (loc_settled_frame r (Location.set_browser
                 (mark_settled k (Location.browser s)) s)) as (Hb & _).
    cbv zeta in Hb. rewrite Hb. exact Ht.
  - apply elem_of_app. left. exact Ht.
Qed.

Lemma ppl_step_handle_fresh `{Platform} (s : People.State) (ev : Event) :
  handle_fresh (People.timeout s) (People.browser s) →
  handle_fresh (People.timeout (People.step s ev))
               (People.browser (People.step s ev)).
Proof.
  intros Hf. ppl_event_cases s ev; try exact Hf.
  - destruct (handle_fresh_clear_if_set _ _ Hf) as [Hf' Hnone].
    destruct (Nat.ltb _ 2); simpl; [exact Hf'|].
    exact (handle_fresh_setTimeout_fetch _ _ 200 _ Hf' Hnone).
  - exact (handle_fresh_clearTimeout _ id _ Hf).
  - exact (handle_fresh_clearTimeout _ id _ Hf).
  - destruct (ppl_settled_frame r (People.set_browser
                 (mark_settled k (People.browser s)) s)) as (Hb & Ht & _).
    cbv zeta in Hb, Ht. rewrite Hb, Ht. exact Hf.
  - exact (handle_fresh_setTimeout_clear _ 150 _ Hf).
Qed.

Lemma ppl_step_timer_stays `{Platform} (s : People.State) (ev : Event)
    (bt : Timer) :
  handle_fresh (People.timeout s) (People.browser s) →
  is_fetch_timer bt = false →
  bt ∈ timers (People.browser s) →
  ev ≠ EvTimer (timer_id bt) →
  bt ∈ timers (People.browser (People.step s ev)).
Proof.
  intros Hf Hc Ht Hev. pose proof Hf as (_ & _ & Hall).
  rewrite Forall_forall in Hall. pose proof (Hall bt Ht Hc) as Hne.
  clear Hall.
  ppl_event_cases s ev; try exact Ht.
  - pose proof (timer_stays_clear_if_set bt _ _ Ht Hne) as Ht'.
    destruct (Nat.ltb _ 2); simpl; [exact Ht'|].
    apply elem_of_app. left. exact Ht'.
  - apply (timer_stays_clearTimeout bt id _ Ht). congruence.
  - apply (timer_stays_clearTimeout bt id _ Ht). congruence.
  - destruct (ppl_settled_frame r (People.set_browser
                 (mark_settled k (People.browser s)) s)) as (Hb & _).
    cbv zeta in Hb. rewrite Hb. exact Ht.
  - apply elem_of_app. left. exact Ht.
Qed.

Lemma loc_run_timer_stays `{Platform} (evs : list Event) (s : Location.State)
    (bt : Timer) :
  handle_fresh (Location.timeout s) (Location.browser s) →
  is_fetch_timer bt = false →
  bt ∈ timers (Location.browser s) →
  Forall (fun ev => ev ≠ EvTimer (timer_id bt)) evs →
  handle_fresh (Location.timeout (Location.run s evs))
               (Location.browser (Location.run s evs))
  ∧ bt ∈ timers (Location.browser (Location.run s evs)).
Proof.
  revert s. induction evs as [|ev evs IH]; intros s Hf Hc Ht Hall; [auto|].
  apply Forall_cons in Hall as [Hev Hall]. simpl. apply IH; try assumption.
  - now apply loc_step_handle_fresh.
  - now apply loc_step_timer_stays.
Qed.

Lemma ppl_run_timer_stays `{Platform} (evs : list Event) (s : People.State)
    (bt : Timer) :
  handle_fresh (People.timeout s) (People.browser s) →
  is_fetch_timer bt = false →
  bt ∈ timers (People.browser s) →
  Forall (fun ev => ev ≠ EvTimer (timer_id bt)) evs →
  handle_fresh (People.timeout (People.run s evs))
               (People.browser (People.run s evs))
  ∧ bt ∈ timers (People.browser (People.run s evs)).
Proof.
  revert s. induction evs as [|ev evs IH]; intros s Hf Hc Ht Hall; [auto|].
  apply Forall_cons in Hall as [Hev Hall]. simpl. apply IH; try assumption.
  - now apply ppl_step_handle_fresh.
  - now apply ppl_step_timer_stays.
Qed.

Lemma loc_reachable_handle_fresh `{Platform} (evs : list Event) :
  handle_fresh (Location.timeout (Location.run Location.init evs))
               (Location.browser (Location.run Location.init evs)).
Proof.
  generalize handle_fresh_browser0.
  change None with (Location.timeout Location.init).
  change browser0 with (Location.browser Location.init).
  generalize Location.init.
  induction evs as [|ev evs IH]; intros s Hs; [exact Hs|].
  simpl. apply IH. now apply loc_step_handle_fresh.
Qed.

Lemma ppl_reachable_handle_fresh `{Platform} (g : Global) (evs : list Event) :
  handle_fresh (People.timeout (People.run (People.init g) evs))
               (People.browser (People.run (People.init g) evs)).
Proof.
  generalize handle_fresh_browser0.
  change None with (People.timeout (People.init g)).
  change browser0 with (People.browser (People.init g)).
  generalize (People.init g).
  induction evs as [|ev evs IH]; intros s Hs; [exact Hs|].
  simpl. apply IH. now apply ppl_step_handle_fresh.
Qed.

Lemma loc_fire_clear `{Platform} (s : Location.State) (id : nat) (bt : Timer) :
  find_timer id (Location.browser s) = Some bt →
  timer_cb bt = CbClear →
  list_cleared (Location.suggestionsEl (Location.step s (EvTimer id)))
               (Location.results (Location.step s (EvTimer id))).
Proof.
  intros Hfind Hcb.
  unfold Location.step, Location.handle, Location.on_timer,
    Location.run_callback, Location.clearSuggestions. unfold_monad.
  simpl. rewrite Hfind. simpl. rewrite Hcb. simpl. unfold list_cleared. auto.
Qed.

Lemma ppl_fire_clear `{Platform} (s : People.State) (id : nat) (bt : Timer) :
  find_timer id (People.browser s) = Some bt →
  timer_cb bt = CbClear →
  list_cleared (People.suggestionsEl (People.step s (EvTimer id)))
               (People.results (People.step s (EvTimer id))).
Proof.
  intros Hfind Hcb.
  unfold People.step, People.handle, People.on_timer,
    People.run_callback, People.clearSuggestions. unfold_monad.
  simpl. rewrite Hfind. simpl. rewrite Hcb. simpl. unfold list_cleared. auto.
Qed.

(** X27.  The timer a blur starts cannot be cancelled.  In any state a
    widget can reach, after the field loses focus the blur timer stays
    pending whatever happens next (typing again included), until it fires;
    and when it fires the suggestion list is cleared. *)
Theorem blur_is_never_cancelled `{Platform} (g : Global)
    (evs evs' : list Event) :
  (let s := Location.run Location.init evs in
   let id := next_timer (Location.browser s) in
   Forall (fun ev => ev ≠ EvTimer id) evs' →
   let s' := Location.run (Location.step s EvBlur) evs' in
   find_timer id (Location.browser s') = Some (blur_timer id)
   ∧ list_cleared (Location.suggestionsEl (Location.step s' (EvTimer id)))
                  (Location.results (Location.step s' (EvTimer id))))
  ∧
  (let s := People.run (People.init g) evs in
   let id := next_timer (People.browser s) in
   Forall (fun ev => ev ≠ EvTimer id) evs' →
   let s' := People.run (People.step s EvBlur) evs' in
   find_timer id (People.browser s') = Some (blur_timer id)
   ∧ list_cleared (People.suggestionsEl (People.step s' (EvTimer id)))
                  (People.results (People.step s' (EvTimer id)))).
Proof.
  cbv zeta. split.
  - set (s := Location.run Location.init evs). intros Hall.
    pose proof (loc_reachable_handle_fresh evs) as Hf. fold s in Hf.
    assert (Hin : blur_timer (next_timer (Location.browser s))
                  ∈ timers (Location.browser (Location.step s EvBlur))).
    { unfold Location.step, Location.handle, Location.on_blur. unfold_monad.
      simpl. apply elem_of_app. right. apply list_elem_of_here. }
    destruct (loc_run_timer_stays evs' (Location.step s EvBlur)
                (blur_timer (next_timer (Location.browser s)))
                (loc_step_handle_fresh s EvBlur Hf) eq_refl Hin Hall)
      as [Hf' Hin'].
    assert (Hfind : find_timer (next_timer (Location.browser s))
                      (Location.browser
                         (Location.run (Location.step s EvBlur) evs'))
                    = Some (blur_timer (next_timer (Location.browser s)))).
    { destruct Hf' as ((_ & _ & Hnd & _) & _).
      exact (find_timer_unique _ _ Hnd Hin'). }
    split; [exact Hfind|]. exact (loc_fire_clear _ _ _ Hfind eq_refl).
  - set (s := People.run (People.init g) evs). intros Hall.
    pose proof (ppl_reachable_handle_fresh g evs) as Hf. fold s in Hf.
    assert (Hin : blur_timer (next_timer (People.browser s))
                  ∈ timers (People.browser (People.step s EvBlur))).
    { unfold People.step, People.handle, People.on_blur. unfold_monad.
      simpl. apply elem_of_app. right. apply list_elem_of_here. }
    destruct (ppl_run_timer_stays evs' (People.step s EvBlur)
                (blur_timer (next_timer (People.browser s)))
                (ppl_step_handle_fresh s EvBlur Hf) eq_refl Hin Hall)
      as [Hf' Hin'].
    assert (Hfind : find_timer (next_timer (People.browser s))
                      (People.browser
                         (People.run (People.step s EvBlur) evs'))
                    = Some (blur_timer (next_timer (People.browser s)))).
    { destruct Hf' as ((_ & _ & Hnd & _) & _).
      exact (find_timer_unique _ _ Hnd Hin'). }
    split; [exact Hfind|]. exact (ppl_fire_clear _ _ _ Hfind eq_refl).
Qed.

Lemma blur_is_never_cancelled_witness :
  let s := @Location.run test_platform Location.init [ EvInput "Par" ] in
  let s' := @Location.run test_platform
              (@Location.step test_platform s EvBlur)
              [ EvInput "Pari"; EvTimer 3;
                EvResponse 0 (ok_json (JArr par_places)) ] in
  innerHTML (Location.suggestionsEl s') ≠ []
  ∧ find_timer 2 (Location.browser s') = Some (blur_timer 2)
  ∧ list_cleared
      (Location.suggestionsEl (@Location.step test_platform s' (EvTimer 2)))
      (Location.results (@Location.step test_platform s' (EvTimer 2))).
Proof.
  cbv zeta. split; [vm_compute; discriminate|].
  destruct (@blur_is_never_cancelled test_platform sample_global
              [ EvInput "Par" ]
              [ EvInput "Pari"; EvTimer 3;
                EvResponse 0 (ok_json (JArr par_places)) ]) as [Hloc _].
  apply Hloc. repeat constructor; discriminate.
Defined.

(** ** Navigation *)

Lemma toggle_all_lookup (sel : NavElement → bool) (force : bool)
    (page : list NavElement) (i : nat) (e' : NavElement) :
  toggle_all sel force page !! i = Some e' →
  ∃ e, page !! i = Some e
       ∧ e' = if sel e then toggle_hidden force e else e.
Proof.
  unfold toggle_all. rewrite list_lookup_fmap.
  destruct (page !! i) as [e|]; simpl; [|discriminate].
  intros [= <-]. eauto.
Qed.

Lemma toggle_by_id_lookup (id : string) (force : bool) (page : list NavElement)
    (i : nat) (e' : NavElement) :
  toggle_by_id id force page !! i = Some e' →
  ∃ e, page !! i = Some e
       ∧ (e' = e ∨ (data_visible e = None ∧ e' = toggle_hidden force e)).
Proof.
  revert i. induction page as [|x rest IH]; intros i; simpl; [discriminate|].
  destruct (attr_is (nav_id x) id).
  - destruct i as [|i]; simpl.
    + intros [= <-]. exists x. split; [reflexivity|].
      destruct (data_visible x); auto.
    + intros Hi. eauto.
  - destruct i as [|i]; simpl; [intros [= <-]; eauto|]. apply IH.
Qed.

(** An element that carries [data-visible] comes out of the three toggles
    by id as it went in. *)
Lemma toggle_by_id_keeps_marked (id : string) (force : bool)
    (page : list NavElement) (i : nat) (e' : NavElement) :
  toggle_by_id id force page !! i = Some e' →
  is_Some (data_visible e') →
  page !! i = Some e'.
Proof.
  intros Hi Hv. apply toggle_by_id_lookup in Hi as (e & He & [->|[Hn ->]]);
    [exact He|].
  simpl in Hv. rewrite Hn in Hv. destruct Hv as [x Hx]. discriminate.
Qed.

(** X28.  After [updateNavigationVisibility], an element marked
    [data-visible="guest"] is hidden exactly when a token is stored, one
    marked [data-visible="auth"] exactly when none is, unless the element is
    also marked [data-role="creator"]; and an element that carries
    [data-visible] and is marked [data-role="creator"] is hidden exactly
    when the stored role is not 'creator'.  No element is added, removed or
    moved. *)
Theorem navigation_visibility_rules (ls : Storage) (page : list NavElement)
    (i : nat) (e : NavElement) :
  updateNavigationVisibility ls page !! i = Some e →
  length (updateNavigationVisibility ls page) = length page
  ∧ (attr_is (data_visible e) "guest" = true →
     attr_is (data_role e) "creator" = false →
     nav_hidden e = str_truthy (getToken ls))
  ∧ (attr_is (data_visible e) "auth" = true →
     attr_is (data_role e) "creator" = false →
     nav_hidden e = negb (str_truthy (getToken ls)))
  ∧ (is_Some (data_visible e) →
     attr_is (data_role e) "creator" = true →
     nav_hidden e = negb (attr_is (getUserRole ls) "creator")).
Proof.
  intros He. split.
  - unfold updateNavigationVisibility, toggle_all.
    assert (Hlen : ∀ id f p, length (toggle_by_id id f p) = length p).
    { intros id f p. induction p as [|x p IH]; simpl; [reflexivity|].
      destruct (attr_is (nav_id x) id); simpl; [reflexivity|now rewrite IH]. }
    now rewrite !Hlen, !length_map.
  - assert (Hmarked : is_Some (data_visible e) →
      ∃ e0, page !! i = Some e0
            ∧ data_visible e0 = data_visible e
            ∧ data_role e0 = data_role e
            ∧ nav_hidden e
              = if attr_is (data_role e0) "creator"
                then negb (attr_is (getUserRole ls) "creator")
                else if attr_is (data_visible e0) "auth"
                     then negb (str_truthy (getToken ls))
                     else if attr_is (data_visible e0) "guest"
                          then str_truthy (getToken ls)
                          else nav_hidden e0).
    { intros Hv. unfold updateNavigationVisibility in He.
      apply toggle_by_id_keeps_marked in He; [|exact Hv].
      apply toggle_by_id_keeps_marked in He; [|exact Hv].
      apply toggle_by_id_keeps_marked in He; [|exact Hv].
      apply toggle_all_lookup in He as (e3 & He & ->).
      apply toggle_all_lookup in He as (e2 & He & ->).
      apply toggle_all_lookup in He as (e1 & He & ->).
      exists e1. split; [exact He|].
      destruct (attr_is (data_visible e1) "guest") eqn:Eg; simpl;
        destruct (attr_is (data_visible e1) "auth") eqn:Ea; simpl;
        destruct (attr_is (data_role e1) "creator") eqn:Ec; simpl;
        rewrite ?Eg, ?Ea, ?Ec; auto. }
    assert (Hsome : ∀ v, attr_is (data_visible e) v = true →
                         is_Some (data_visible e)).
    { intros v Hv. destruct (data_visible e); [eauto|discriminate]. }
    split; [|split].
    + intros Hg Hc. destruct (Hmarked (Hsome _ Hg)) as (e0 & _ & Hv & Hr & ->).
      rewrite Hr, Hv, Hc, Hg.
      destruct (attr_is (data_visible e) "auth") eqn:Ea; [|reflexivity].
      exfalso. destruct (data_visible e) as [x|]; [|discriminate].
      simpl in Hg, Ea. apply String.eqb_eq in Hg, Ea. congruence.
    + intros Ha Hc. destruct (Hmarked (Hsome _ Ha)) as (e0 & _ & Hv & Hr & ->).
      now rewrite Hr, Hv, Hc, Ha.
    + intros Hv Hc. destruct (Hmarked Hv) as (e0 & _ & _ & Hr & ->).
      now rewrite Hr, Hc.
Qed.

Lemma navigation_visibility_rules_witness :
  let page := [ mkNav (Some "login-link") None None false;
                mkNav None (Some "guest") None false;
                mkNav None (Some "auth") (Some "creator") true ] in
  nav_hidden (mkNav None (Some "guest") None true)
  = str_truthy (getToken sample_store)
  ∧ updateNavigationVisibility sample_store page
    = [ mkNav (Some "login-link") None None true;
        mkNav None (Some "guest") None true;
        mkNav None (Some "auth") (Some "creator") false ].
Proof.
  cbv zeta. split; [|reflexivity].
  destruct (navigation_visibility_rules sample_store
              [ mkNav (Some "login-link") None None false;
                mkNav None (Some "guest") None false;
                mkNav None (Some "auth") (Some "creator") true ]
              1 (mkNav None (Some "guest") None true) eq_refl)
    as (_ & Hguest & _).
  apply Hguest; reflexivity.
Defined.

(** ** The further properties at work *)

Lemma widgets_show_their_state_witness :
  (let s := @People.run test_platform (People.init sample_global)
              [ EvInput "bo"; EvTimer 1;
                EvResponse 0 (ok_json (JArr [ person "u2" "Bob";
                                              person "u4" "Bobby" ])) ] in
   ∃ item, People.results s !! 1 = Some item
           ∧ row_text (render_row 1 (People.to_item (person "u4" "Bobby")))
             = template (escapeHtml (item_name item)))
  ∧
  (let s := @People.run test_platform (People.init sample_global)
              [ EvInput "bo"; EvTimer 1;
                EvResponse 0 (ok_json (JArr [ person "u2" "Bob";
                                              person "u4" "Bobby" ]));
                EvMousedown (Some 1) ] in
   People.containerEl s = [ render_chip (People.to_item (person "u4" "Bobby")) ]).
Proof.
  cbv zeta. split.
  - destruct (@widgets_show_their_state test_platform sample_global
                [ EvInput "bo"; EvTimer 1;
                  EvResponse 0 (ok_json (JArr [ person "u2" "Bob";
                                                person "u4" "Bobby" ])) ])
      as (_ & _ & _ & Hrows).
    destruct (Hrows 1 (render_row 1 (People.to_item (person "u4" "Bobby")))
                eq_refl) as (item & Hitem & _ & Htext).
    exists item. split; assumption.
  - destruct (@widgets_show_their_state test_platform sample_global
                [ EvInput "bo"; EvTimer 1;
                  EvResponse 0 (ok_json (JArr [ person "u2" "Bob";
                                                person "u4" "Bobby" ]));
                  EvMousedown (Some 1) ])
      as (_ & _ & Hchips & _).
    exact (Hchips eq_refl).
Defined.

Lemma remove_chip_removes_one_witness :
  let s := @People.run test_platform (People.init sample_global)
             [ EvInput "bo"; EvTimer 1;
               EvResponse 0 (ok_json (JArr [ person "u2" "Bob";
                                             person "u4" "Bobby" ]));
               EvMousedown (Some 0);
               EvInput "bo"; EvTimer 2;
               EvResponse 1 (ok_json (JArr [ person "u2" "Bob";
                                             person "u4" "Bobby" ]));
               EvMousedown (Some 0) ] in
  let s' := @People.step test_platform s (EvRemoveClick (Some "u2")) in
  People.getSelectedIds s = [ Some (JStr "u2"); Some (JStr "u4") ]
  ∧ People.to_item (person "u4" "Bobby") ∈ People.selected s'
  ∧ (length (People.selected s) ≤ S (length (People.selected s')))%nat.
Proof.
  cbv zeta. split; [reflexivity|].
  destruct (@remove_chip_removes_one test_platform
              (@People.run test_platform (People.init sample_global)
                 [ EvInput "bo"; EvTimer 1;
                   EvResponse 0 (ok_json (JArr [ person "u2" "Bob";
                                                 person "u4" "Bobby" ]));
                   EvMousedown (Some 0);
                   EvInput "bo"; EvTimer 2;
                   EvResponse 1 (ok_json (JArr [ person "u2" "Bob";
                                                 person "u4" "Bobby" ]));
                   EvMousedown (Some 0) ]) "u2") as (_ & Hstay & Hone & _).
  split.
  - apply Hstay.
    + vm_compute. apply list_elem_of_further. apply list_elem_of_here.
    + discriminate.
  - apply Hone. reflexivity.
Defined.

(** Typing "c", "ca", "cat " on a page without a feed: one timer is left,
    and when it fires the browser goes to the search for "cat". *)
Example search_scenario :
  let s := @Search.run test_platform
             (Search.init "" false false "photo.html?id=1")
             [ Search.Input "c"; Search.Input "ca"; Search.Input "cat " ] in
  Search.pending s = [ 3 ]
  ∧ Search.href (@Search.step test_platform s (Search.Timer 3))
    = "index.html?q=cat"
  ∧ Search.href (@Search.step test_platform s (Search.Timer 2))
    = "photo.html?id=1".
Proof. vm_compute. repeat split. Qed.

(** A search field that holds a no-break space only is an empty search. *)
Example search_nbsp_scenario :
  let s := @Search.run test_platform
             (Search.init "" false false "photo.html?id=1")
             [ Search.Input nbsp ] in
  Search.href (@Search.step test_platform s (Search.Timer 1)) = "index.html".
Proof. reflexivity. Qed.

(** On the dashboard both feeds are reloaded, and an empty search asks for
    all photos. *)
Example search_dashboard_scenario :
  let s := @Search.run test_platform
             (Search.init "" true true "creator.html")
             [ Search.Input "x"; Search.Input " "; Search.Timer 2 ] in
  Search.loads s
  = [ ("photo-grid", DEFAULT_API_BASE +:+ "/photos");
      ("dashboard-photo-grid", DEFAULT_API_BASE +:+ "/photos") ]
  ∧ Search.href s = "creator.html".
Proof. vm_compute. split; reflexivity. Qed.

Example resolveApiBase_override :
  resolveApiBase
    (Some (mkWindow (Some "https://api.example.org/v1///")
             (mkWindowLocation "https:" "" "example.org" "https://example.org")))
    (Some (mkDocument (Some " https://other/ ")))
  = "https://api.example.org/v1".
Proof. reflexivity. Qed.

Example resolveApiBase_meta :
  resolveApiBase
    (Some (mkWindow None
             (mkWindowLocation "https:" "" "example.org" "https://example.org")))
    (Some (mkDocument (Some " https://other/api/ ")))
  = "https://other/api".
Proof. reflexivity. Qed.

(** A name given as an array is not escaped by [escapeHtml], which escapes
    strings only. *)
Example row_of_array_name :
  row_text (render_row 0 (mkItem (Some (JNum 1))
                                 (Some (JArr [ JStr "<b>" ])) undefined))
  = "<b>".
Proof. reflexivity. Qed.
